(** * ia-optimizer: a shallow embedding of the optimisation pipeline

    The development follows the TypeScript sources module by module:
    - [Js]        the string primitives of the host language the code calls;
    - [Crypto]    [lib/crypto.ts]      ([isHostAllowed]);
    - [Store]     [lib/store.ts]       ([loadStore], [saveStore], [deleteConnection]);
    - [Sys]       the file system, the process runner and the console;
    - [Perf]      [lib/optimizer/perf.ts];
    - [Seo]       [lib/optimizer/seo.ts];
    - [Audit]     [lib/optimizer/audit.ts];
    - [Optimizer] [lib/optimizer/index.ts] ([runOptimizationPipeline]).

    Strings are byte strings (UTF-8, as the sources are written), objects used
    as dictionaries are [gmap]s, and every effect (file system, subprocess,
    console, the mutable report) is threaded explicitly.  What the engine
    and the machine decide (case tables outside ASCII, regular expressions,
    numbers, subprocesses) enters as a function the statements quantify
    over. *)

From Stdlib Require Import ZArith Ascii String List Lia Decimal DecimalString.
From stdpp Require Import base tactics option list gmap strings fin_maps.

Open Scope string_scope.

(* ===================================================================== *)
(** ** Host-language string primitives *)
(* ===================================================================== *)

Module Js.

(** [String.prototype.startsWith] *)
Fixpoint startsWith (s p : string) {struct p} : bool :=
  match p with
  | EmptyString => true
  | String c p' =>
      match s with
      | EmptyString => false
      | String d s' => if Ascii.eqb c d then startsWith s' p' else false
      end
  end.

(** [String.prototype.endsWith] *)
Fixpoint endsWith (s suf : string) : bool :=
  String.eqb s suf ||
  match s with
  | EmptyString => false
  | String _ s' => endsWith s' suf
  end.

(** [String.prototype.includes] *)
Fixpoint includes (s needle : string) : bool :=
  startsWith s needle ||
  match s with
  | EmptyString => false
  | String _ s' => includes s' needle
  end.

Definition lowerChar (c : ascii) : ascii :=
  let n := nat_of_ascii c in
  if (65 <=? n)%nat && (n <=? 90)%nat then ascii_of_nat (n + 32) else c.

(** Folding of the letters A to Z; every other character stays. *)
Fixpoint lowerAscii (s : string) : string :=
  match s with
  | EmptyString => EmptyString
  | String c s' => String (lowerChar c) (lowerAscii s')
  end.

(** A string of ASCII characters only. *)
Fixpoint isAscii (s : string) : bool :=
  match s with
  | EmptyString => true
  | String c s' => (nat_of_ascii c <? 128)%nat && isAscii s'
  end.

(** [String.prototype.toLowerCase].  A string holds the UTF-8 bytes of its
    text.  On ASCII text the function folds the letters A to Z and changes
    nothing else.  On any other text the result follows the Unicode case
    tables and depends on the context (a capital sigma lowers to the final
    form at the end of a word), so it is not computed character by
    character: it is whatever [caseTables], the function of the engine,
    gives for the whole string. *)
Definition toLowerCase (caseTables : string -> string) (s : string) : string :=
  if isAscii s then lowerAscii s else caseTables s.

Fixpoint drop (n : nat) (s : string) : string :=
  match n, s with
  | O, _ => s
  | S _, EmptyString => EmptyString
  | S n', String _ s' => drop n' s'
  end.

(** [s.split(sep)[0]]: the part of [s] before the first [sep]. *)
Fixpoint splitHead (sep : ascii) (s : string) : string :=
  match s with
  | EmptyString => EmptyString
  | String c s' => if Ascii.eqb c sep then EmptyString else String c (splitHead sep s')
  end.

(** [s.split(sep)] *)
Fixpoint splitGo (sep : ascii) (cur : string) (s : string) : list string :=
  match s with
  | EmptyString => [String.rev cur]
  | String c s' =>
      if Ascii.eqb c sep then String.rev cur :: splitGo sep EmptyString s'
      else splitGo sep (String c cur) s'
  end.
Definition split (sep : ascii) (s : string) : list string := splitGo sep EmptyString s.

(** A character occurs in a string. *)
Fixpoint hasChar (c : ascii) (s : string) : bool :=
  match s with
  | EmptyString => false
  | String d s' => Ascii.eqb c d || hasChar c s'
  end.

(** Decimal rendering of a non-negative integer in a template literal. *)
Definition showNat (n : nat) : string := NilZero.string_of_uint (Nat.to_uint n).

(** Decimal rendering of an integer in a template literal. *)
Definition showZ (z : Z) : string := NilZero.string_of_int (Z.to_int z).

(** [xs.join(sep)] *)
Fixpoint join (sep : string) (xs : list string) : string :=
  match xs with
  | [] => ""
  | [x] => x
  | x :: rest => x +:+ sep +:+ join sep rest
  end.

(** The double-quote character, as a one-character string. *)
Definition dq : string := String (ascii_of_nat 34) EmptyString.

Definition isSpace (c : ascii) : bool :=
  let n := nat_of_ascii c in
  (n =? 32)%nat || ((9 <=? n)%nat && (n <=? 13)%nat).

Fixpoint trimStart (s : string) : string :=
  match s with
  | EmptyString => EmptyString
  | String c s' => if isSpace c then trimStart s' else s
  end.

(** [String.prototype.trim] (ASCII white space). *)
Definition trim (s : string) : string :=
  String.rev (trimStart (String.rev (trimStart s))).

(** [String.prototype.toUpperCase] on the ASCII letters. *)
Definition upperChar (c : ascii) : ascii :=
  let n := nat_of_ascii c in
  if (97 <=? n)%nat && (n <=? 122)%nat then ascii_of_nat (n - 32) else c.

Fixpoint toUpperCase (s : string) : string :=
  match s with
  | EmptyString => EmptyString
  | String c s' => String (upperChar c) (toUpperCase s')
  end.

(** Interpolation of a possibly undefined property in a template literal. *)
Definition tpl (o : option string) : string := default "undefined" o.

(** [o || d] on a possibly undefined string: the empty string is falsy. *)
Definition orElse (o : option string) (d : string) : string :=
  match o with
  | Some s => if String.eqb s "" then d else s
  | None => d
  end.

End Js.

(* ===================================================================== *)
(** ** lib/crypto.ts *)
(* ===================================================================== *)

Module Crypto.
Import Js.

(** [.replace(/^https?:\/\//, '')] *)
Definition stripScheme (s : string) : string :=
  if startsWith s "https://" then drop 8 s
  else if startsWith s "http://" then drop 7 s
  else s.

Definition normalizeHost (caseTables : string -> string) (host : string) : string :=
  splitHead ":" (splitHead "/" (stripScheme (toLowerCase caseTables host))).

Definition isHostAllowed (caseTables : string -> string) (host : string)
    (allowedHosts : list string) : bool :=
  let normalizedHost := normalizeHost caseTables host in
  existsb (fun allowed =>
    let normalizedAllowed := toLowerCase caseTables allowed in
    String.eqb normalizedHost normalizedAllowed
    || endsWith normalizedHost ("." +:+ normalizedAllowed)) allowedHosts.

(** The specification's wording, stated declaratively.  [hostOf s h]: [h] is what
    is left of [s] once a leading http:// or https:// scheme is removed
    and everything from the first '/' or ':' on is cut off. *)
Definition bare (h : string) : Prop := hasChar "/" h = false /\ hasChar ":" h = false.

Definition schemeOf (s : string) : string :=
  if startsWith s "https://" then "https://"
  else if startsWith s "http://" then "http://" else "".

Definition hostOf (s h : string) : Prop :=
  exists rest, s = schemeOf s +:+ h +:+ rest /\ bare h /\
    (rest = "" \/ startsWith rest "/" = true \/ startsWith rest ":" = true).

Definition allowedBySpec (caseTables : string -> string) (host : string)
    (allowedHosts : list string) : Prop :=
  exists h, hostOf (toLowerCase caseTables host) h /\
    exists a, In a allowedHosts /\
      (h = toLowerCase caseTables a
       \/ exists sub, h = sub +:+ "." +:+ toLowerCase caseTables a).

End Crypto.

(* ===================================================================== *)
(** ** lib/store.ts *)
(* ===================================================================== *)

Module Store.

Record EncryptedData := {
  salt : string;
  iv : string;
  ct : string;
  v : Z;
}.

Record StoredConnection := {
  id : string;
  encrypted : EncryptedData;
  createdAt : string;
  updatedAt : string;
}.

Record ConnectionStore := {
  connections : gmap string StoredConnection;
  version : Z;
}.

Definition STORE_VERSION : Z := 1.

(** What [fs.readFile(STORE_PATH)] followed by [JSON.parse] finds. *)
Inductive DiskFile :=
| NoFile
| Unparsable
| Parsed (store : ConnectionStore).

(** The persistent state behind the module: the file at [STORE_PATH], the
    file at [STORE_PATH.tmp], whether each file-system call of
    [loadStore]/[saveStore] goes through, the module variable
    [memoryStore], and (as an observation only) the stores handed to
    [saveStore] so far, oldest first. *)
Record State := {
  file : DiskFile;
  tmpFile : option ConnectionStore;
  readOk : bool;
  mkdirOk : bool;
  writeOk : bool;
  renameOk : bool;
  memoryStore : option ConnectionStore;
  saved : list ConnectionStore;
}.

Definition initializeStore : ConnectionStore :=
  {| connections := ∅; version := STORE_VERSION |}.

Definition loadStore (st : State) : ConnectionStore :=
  match (if readOk st then file st else NoFile) with
  | Parsed parsed =>
      if negb (Z.eqb (version parsed) STORE_VERSION) then initializeStore
      else parsed
  | _ =>
      match memoryStore st with
      | Some m => m
      | None => initializeStore
      end
  end.

Definition saveStore (store : ConnectionStore) (st : State) : State :=
  let st := {| file := file st; tmpFile := tmpFile st; readOk := readOk st;
               mkdirOk := mkdirOk st; writeOk := writeOk st; renameOk := renameOk st;
               memoryStore := memoryStore st; saved := saved st ++ [store] |} in
  let inMemory (tmp : option ConnectionStore) (f : DiskFile) :=
    {| file := f; tmpFile := tmp; readOk := readOk st;
       mkdirOk := mkdirOk st; writeOk := writeOk st; renameOk := renameOk st;
       memoryStore := Some store; saved := saved st |} in
  if negb (mkdirOk st) then inMemory (tmpFile st) (file st)
  else if negb (writeOk st) then inMemory (tmpFile st) (file st)
  else if negb (renameOk st) then inMemory (Some store) (file st)
  else inMemory None (Parsed store).

(** Names every plain object inherits from [Object.prototype]; the value
    found under each of them is a function or an object, hence truthy. *)
Definition objectPrototypeKeys : list string :=
  [ "constructor"; "__proto__"; "hasOwnProperty"; "isPrototypeOf";
    "propertyIsEnumerable"; "toLocaleString"; "toString"; "valueOf";
    "__defineGetter__"; "__defineSetter__"; "__lookupGetter__";
    "__lookupSetter__" ].

(** Truthiness of [obj[key]] for a plain object whose own values are
    objects: an own property, or else a property found on the prototype. *)
Definition truthyAt {V : Type} (obj : gmap string V) (key : string) : bool :=
  match obj !! key with
  | Some _ => true
  | None => existsb (String.eqb key) objectPrototypeKeys
  end.

Definition getAllConnections (st : State) : list StoredConnection :=
  (map_to_list (connections (loadStore st))).*2.

Definition deleteConnection (id : string) (st : State) : bool * State :=
  let store := loadStore st in
  if negb (truthyAt (connections store) id) then (false, st)
  else
    let store := {| connections := delete id (connections store);
                    version := version store |} in
    (true, saveStore store st).

End Store.

(* ===================================================================== *)
(** ** The process environment: file system, subprocesses, console *)
(* ===================================================================== *)

Module Sys.
Import Js.

(** The outcome of a call that may throw; [Throw msg] carries
    [error.message]. *)
Inductive result (A : Type) : Type :=
| Ok (a : A)
| Throw (msg : string).
Arguments Ok {A} a.
Arguments Throw {A} msg.

(** JSON documents.  A number is kept as the decimal literal
    [mantissa * 10 ^ exponent]; arithmetic on it is left to the host. *)
#[warnings="-register-all"]
Inductive json : Type :=
| JNull
| JBool (b : bool)
| JNum (mantissa exponent : Z)
| JStr (s : string)
| JArr (items : list json)
| JObj (fields : list (string * json)).

(** A flat picture of the file tree: the content of every file by full
    path, the directories created, and the paths on which a read
    (respectively a write or mkdir) is refused by the operating system.
    The picture has no symbolic links, and it does not ask that the
    directory of a file exists. *)
Record FS := {
  files : gmap string string;
  dirs : gset string;
  unreadable : gset string;
  unwritable : gset string;
}.

Inductive ExecOutcome :=
| ExecOk (stdout : string)
| ExecFail (stderr : string).

Record ExecRecord := {
  cmd : string;
  cwd : option string;
  succeeded : bool;
}.

(** [console] collects the lines written with [console.log] and
    [console.error]; [commands] the subprocesses started, oldest first. *)
Record World := {
  fs : FS;
  clock : nat;
  console : list string;
  commands : list ExecRecord;
}.

(** What the code takes from its surroundings: the effect of a subprocess
    (non-zero exit, kill on timeout: [ExecFail]), the wall clock, the JSON
    codec, the regular-expression engine (the pattern is passed as its
    source text), floating-point arithmetic and the reading of a text as a
    number ([textPositive text] is [Number(text) > 0]). *)
Record Host := {
  exec : nat -> string -> option string -> FS -> ExecOutcome * FS;
  dateNow : nat -> Z;
  toISOString : nat -> string;
  tmpdir : string;
  processCwd : string;
  JSON_parse : string -> option json;
  JSON_stringify : json -> string;
  regexReplace : string -> string -> string -> string;
  regexTest : string -> string -> bool;
  regexMatchCount : string -> string -> nat;
  roundTimes100 : json -> Z;
  showNumber : json -> string;
  percentOf : Z -> Z -> json;
  formatNonZeroBytes : Z -> string;
  textPositive : string -> bool;
}.

(** *** State and exceptions *)

Definition M (S A : Type) : Type := S -> result A * S.

Definition ret {S A : Type} (a : A) : M S A := fun s => (Ok a, s).

Definition bind {S A B : Type} (m : M S A) (k : A -> M S B) : M S B :=
  fun s => match m s with
           | (Ok a, s') => k a s'
           | (Throw e, s') => (Throw e, s')
           end.

Definition throw {S A : Type} (msg : string) : M S A := fun s => (Throw msg, s).

Definition tryCatch {S A : Type} (body : M S A) (handler : string -> M S A) : M S A :=
  fun s => match body s with
           | (Ok a, s') => (Ok a, s')
           | (Throw e, s') => handler e s'
           end.

Notation "x <- m ;; k" := (bind m (fun x => k))
  (at level 100, m at next level, right associativity).
Notation "m ;;; k" := (bind m (fun _ => k))
  (at level 100, right associativity).

(** A computation on the world run next to a local mutable object. *)
Definition liftW {L A : Type} (m : M World A) : M (L * World) A :=
  fun s => let '(r, w') := m (snd s) in (r, (fst s, w')).

Definition getL {L : Type} : M (L * World) L := fun s => (Ok (fst s), s).

Definition modifyL {L : Type} (f : L -> L) : M (L * World) unit :=
  fun s => (Ok tt, (f (fst s), snd s)).

(** Runs [m] with a fresh local object and hands the object back. *)
Definition withLocal {L A : Type} (init : L) (m : M (L * World) A) : M World (A * L) :=
  fun w => match m (init, w) with
           | (Ok a, (l, w')) => (Ok (a, l), w')
           | (Throw e, (_, w')) => (Throw e, w')
           end.

(** A [for (const x of xs)] loop that carries the variables it updates. *)
Fixpoint forAcc {S A B : Type} (xs : list A) (acc : B) (body : A -> B -> M S B) : M S B :=
  match xs with
  | [] => ret acc
  | x :: rest => bind (body x acc) (fun acc' => forAcc rest acc' body)
  end.

(** *** Console and clock *)

Definition withFs (w : World) (f : FS) : World :=
  {| fs := f; clock := clock w; console := console w; commands := commands w |}.

Definition log (line : string) : M World unit :=
  fun w => (Ok tt, {| fs := fs w; clock := clock w;
                      console := console w ++ [line]; commands := commands w |}).

Definition tick (w : World) : World :=
  {| fs := fs w; clock := S (clock w); console := console w; commands := commands w |}.

Definition DateNow (h : Host) : M World Z :=
  fun w => (Ok (dateNow h (clock w)), tick w).

Definition isoNow (h : Host) : M World string :=
  fun w => (Ok (toISOString h (clock w)), tick w).

(** *** fs.promises *)

(** One step of [path.normalize] on the segments of a path, the last one
    kept coming first: an empty segment and [.] are dropped, [..] removes
    the segment before it, and where there is none it stays in a relative
    path and is dropped in an absolute one. *)
Definition pushSegment (aboveRoot : bool) (kept : list string) (segment : string)
  : list string :=
  if String.eqb segment "" || String.eqb segment "." then kept
  else if String.eqb segment ".." then
    match kept with
    | last :: before => if String.eqb last ".." then segment :: kept else before
    | [] => if aboveRoot then [segment] else []
    end
  else segment :: kept.

(** [path.normalize] (POSIX). *)
Definition normalize (p : string) : string :=
  if String.eqb p "" then "."
  else
    let isAbsolute := startsWith p "/" in
    let trailing := endsWith p "/" in
    let body := join "/" (rev (fold_left (pushSegment (negb isAbsolute)) (split "/" p) [])) in
    if String.eqb body ""
    then (if isAbsolute then "/" else if trailing then "./" else ".")
    else (if isAbsolute then "/" else "") +:+ body +:+ (if trailing then "/" else "").

(** [path.join(a, b)] (POSIX): the operands that are not empty, joined by a
    separator and normalised. *)
Definition pathJoin (a b : string) : string :=
  if String.eqb a "" then normalize b
  else if String.eqb b "" then normalize a
  else normalize (a +:+ "/" +:+ b).

Definition isFile (f : FS) (p : string) : bool := bool_decide (p ∈ dom (files f)).
Definition isDir (f : FS) (p : string) : bool := bool_decide (p ∈ dirs f).

(** [fileExists]: [fs.access] succeeds. *)
Definition fileExists (p : string) : M World bool :=
  fun w => (Ok (isFile (fs w) p || isDir (fs w) p), w).

Definition readFile (p : string) : M World string :=
  fun w =>
    if bool_decide (p ∈ unreadable (fs w))
    then (Throw ("EACCES: permission denied, open '" +:+ p +:+ "'"), w)
    else match files (fs w) !! p with
         | Some content => (Ok content, w)
         | None => (Throw ("ENOENT: no such file or directory, open '" +:+ p +:+ "'"), w)
         end.

Definition writeFile (p content : string) : M World unit :=
  fun w =>
    if bool_decide (p ∈ unwritable (fs w))
    then (Throw ("EACCES: permission denied, open '" +:+ p +:+ "'"), w)
    else (Ok tt, withFs w {| files := <[p := content]> (files (fs w)); dirs := dirs (fs w);
                             unreadable := unreadable (fs w);
                             unwritable := unwritable (fs w) |}).

(** [fs.mkdir(p, { recursive: true })] *)
Definition mkdir (p : string) : M World unit :=
  fun w =>
    if bool_decide (p ∈ unwritable (fs w))
    then (Throw ("EACCES: permission denied, mkdir '" +:+ p +:+ "'"), w)
    else (Ok tt, withFs w {| files := files (fs w); dirs := {[p]} ∪ dirs (fs w);
                             unreadable := unreadable (fs w);
                             unwritable := unwritable (fs w) |}).

(** [stats.size] of a file found by a directory scan. *)
Definition fileSize (f : FS) (p : string) : Z :=
  match files f !! p with
  | Some content => Z.of_nat (String.length content)
  | None => 0
  end.

(** The path segments of [p] below the directory [dir], if [p] lies there. *)
Definition segmentsBelow (dir p : string) : option (list string) :=
  if startsWith p (dir +:+ "/")
  then Some (split "/" (drop (String.length dir + 1) p))
  else None.

(** The recursive directory scans of the sources: every file below [dir]
    none of whose path segments is [skip]ped and whose own name satisfies
    [pattern].  A directory that cannot be read contributes nothing. *)
Definition scanTree (skip pattern : string -> bool) (dir : string) (f : FS) : list string :=
  List.filter
    (fun p => match segmentsBelow dir p with
              | Some segs => forallb (fun s => negb (skip s)) segs
                             && pattern (List.last segs "")
              | None => false
              end)
    (map_to_list (files f)).*1.

(** *** child_process.exec, promisified *)

(** The message of the error [exec] rejects with names the command line
    and the captured standard error. *)
Definition execErrorMessage (command stderr : string) : string :=
  "Command failed: " +:+ command +:+ "
" +:+ stderr.

Definition execAsync (h : Host) (command : string) (dir : option string) : M World string :=
  fun w =>
    let '(outcome, f') := exec h (clock w) command dir (fs w) in
    let w' ok := {| fs := f'; clock := S (clock w); console := console w;
                    commands := commands w ++
                      [{| cmd := command; cwd := dir; succeeded := ok |}] |} in
    match outcome with
    | ExecOk stdout => (Ok stdout, w' true)
    | ExecFail stderr => (Throw (execErrorMessage command stderr), w' false)
    end.

(** *** Property access on parsed JSON *)

Fixpoint assoc (k : string) (l : list (string * json)) : option json :=
  match l with
  | [] => None
  | (k', x) :: rest => if String.eqb k k' then Some x else assoc k rest
  end.

Fixpoint assocSet (k : string) (x : json) (l : list (string * json)) : list (string * json) :=
  match l with
  | [] => [(k, x)]
  | (k', y) :: rest => if String.eqb k k' then (k, x) :: rest else (k', y) :: assocSet k x rest
  end.

(** [v.k]: a [TypeError] on [null], [undefined] on a missing property. *)
Definition getProp {S : Type} (x : json) (k : string) : M S (option json) :=
  match x with
  | JNull => throw ("Cannot read properties of null (reading '" +:+ k +:+ "')")
  | JObj fields => ret (assoc k fields)
  | _ => ret None
  end.

(** [o?.k] *)
Definition getOpt (o : option json) (k : string) : option json :=
  match o with
  | Some (JObj fields) => assoc k fields
  | _ => None
  end.

(** [o.k] when [o] may be [undefined]. *)
Definition getPropOf {S : Type} (o : option json) (k : string) : M S (option json) :=
  match o with
  | None => throw ("Cannot read properties of undefined (reading '" +:+ k +:+ "')")
  | Some x => getProp x k
  end.

(** [v.k = x] in strict mode. *)
Definition setProp {S : Type} (target : json) (k : string) (x : json) : M S json :=
  match target with
  | JObj fields => ret (JObj (assocSet k x fields))
  | JArr items => ret (JArr items)
  | JNull => throw ("Cannot set properties of null (setting '" +:+ k +:+ "')")
  | _ => throw ("Cannot create property '" +:+ k +:+ "'")
  end.

Definition truthy (o : option json) : bool :=
  match o with
  | None | Some JNull | Some (JBool false) | Some (JNum 0 _) | Some (JStr "") => false
  | Some _ => true
  end.

Definition parseJson {S : Type} (h : Host) (text : string) : M S json :=
  match JSON_parse h text with
  | Some x => ret x
  | None => throw "Unexpected token in JSON"
  end.

End Sys.

(* ===================================================================== *)
(** ** lib/optimizer/perf.ts *)
(* ===================================================================== *)

Module Perf.
Import Js Sys.

Record PerfOptimizationResult := {
  applied : list string;
  skipped : list string;
  errors : list string;
}.

Definition emptyResult : PerfOptimizationResult :=
  {| applied := []; skipped := []; errors := [] |}.

(** [result.applied.push(msg)] and its two siblings. *)
Definition pushApplied (msg : string) : M (PerfOptimizationResult * World) unit :=
  modifyL (fun r => {| applied := applied r ++ [msg]; skipped := skipped r; errors := errors r |}).

Definition pushSkipped (msg : string) : M (PerfOptimizationResult * World) unit :=
  modifyL (fun r => {| applied := applied r; skipped := skipped r ++ [msg]; errors := errors r |}).

Definition pushError (msg : string) : M (PerfOptimizationResult * World) unit :=
  modifyL (fun r => {| applied := applied r; skipped := skipped r; errors := errors r ++ [msg] |}).

Definition skipDir (name : string) : bool :=
  String.eqb name "node_modules" || String.eqb name ".next" || String.eqb name ".git".

(** [/\.(tsx|jsx)$/] and [/\.css$/] on an entry name. *)
Definition isTsxOrJsx (name : string) : bool := endsWith name ".tsx" || endsWith name ".jsx".
Definition isCss (name : string) : bool := endsWith name ".css".

Definition findFiles (dir : string) (pattern : string -> bool) : M World (list string) :=
  fun w => (Ok (scanTree skipDir pattern dir (fs w)), w).

Definition optimizations : string := "
// Optimisations de performance
const nextConfig = {
  ...existingConfig,

  // Compression et minification
  compress: true,
  swcMinify: true,

  // Optimisation des images
  images: {
    formats: ['image/avif', 'image/webp'],
    deviceSizes: [640, 750, 828, 1080, 1200, 1920, 2048, 3840],
    imageSizes: [16, 32, 48, 64, 96, 128, 256, 384],
    minimumCacheTTL: 31536000,
  },

  // Headers de cache pour assets statiques
  async headers() {
    return [
      {
        source: '/:all*(svg|jpg|jpeg|png|gif|ico|webp|avif)',
        headers: [
          { key: 'Cache-Control', value: 'public, max-age=31536000, immutable' }
        ],
      },
      {
        source: '/_next/static/:path*',
        headers: [
          { key: 'Cache-Control', value: 'public, max-age=31536000, immutable' }
        ],
      },
    ];
  },

  // Optimisation du bundle
  webpack: (config, { isServer }) => {
    if (!isServer) {
      config.optimization = {
        ...config.optimization,
        splitChunks: {
          chunks: 'all',
          cacheGroups: {
            default: false,
            vendors: false,
            commons: {
              name: 'commons',
              chunks: 'all',
              minChunks: 2,
            },
          },
        },
      };
    }
    return config;
  },
};
".

Definition middleware : string := "import { NextResponse } from 'next/server';
import type { NextRequest } from 'next/server';

export function middleware(request: NextRequest) {
  const response = NextResponse.next();

  // Headers de cache pour assets statiques
  if (request.nextUrl.pathname.startsWith('/_next/static/')) {
    response.headers.set('Cache-Control', 'public, max-age=31536000, immutable');
  }

  // Sécurité headers
  response.headers.set('X-Content-Type-Options', 'nosniff');
  response.headers.set('X-Frame-Options', 'DENY');
  response.headers.set('Referrer-Policy', 'strict-origin-when-cross-origin');

  return response;
}

export const config = {
  matcher: [
    '/((?!api|_next/static|_next/image|favicon.ico).*)',
  ],
};
".

Section WithHost.
Variable h : Host.

Definition optimizeNextConfig (workDir : string) : M (PerfOptimizationResult * World) unit :=
  tryCatch
    (let configPath := pathJoin workDir "next.config.js" in
     let configTsPath := pathJoin workDir "next.config.ts" in
     hasJs <- liftW (fileExists configPath) ;;
     let targetPath := if hasJs : bool then configPath else configTsPath in
     found <- liftW (fileExists targetPath) ;;
     if negb found then pushSkipped "next.config.js - fichier non trouvé"
     else
       config <- liftW (readFile targetPath) ;;
       if negb (includes config "swcMinify") && negb (includes config "compress")
       then
         let config :=
           regexReplace h "/module\.exports\s*=\s*{/"
             ("module.exports = {
  " +:+ trim optimizations) config in
         liftW (writeFile targetPath config) ;;;
         pushApplied "next.config.js - optimisations ajoutées"
       else pushSkipped "next.config.js - déjà optimisé")
    (fun message => pushError ("next.config.js - " +:+ message)).

Definition optimizeImages (workDir : string) : M (PerfOptimizationResult * World) unit :=
  tryCatch
    (files <- liftW (findFiles workDir isTsxOrJsx) ;;
     optimizedCount <- liftW (forAcc files 0%nat (fun file optimizedCount =>
       content <- readFile file ;;
       let '(content, modified) :=
         if includes content "<Image" && negb (includes content "loading=")
         then (regexReplace h "/<Image\s/g" ("<Image loading=" +:+ dq +:+ "lazy" +:+ dq +:+ " ") content,
               true)
         else (content, false) in
       let '(content, modified) :=
         if includes content "<Image" && negb (includes content "decoding=")
         then (regexReplace h "/<Image\s/g" ("<Image decoding=" +:+ dq +:+ "async" +:+ dq +:+ " ") content,
               true)
         else (content, modified) in
       if modified : bool
       then writeFile file content ;;; ret (S optimizedCount)
       else ret optimizedCount)) ;;
     if (0 <? optimizedCount)%nat
     then pushApplied ("Images - " +:+ showNat optimizedCount +:+ " fichiers optimisés")
     else pushSkipped "Images - aucun fichier à optimiser")
    (fun message => pushError ("Images - " +:+ message)).

Definition optimizeFonts (workDir : string) : M (PerfOptimizationResult * World) unit :=
  tryCatch
    (cssFiles <- liftW (findFiles workDir isCss) ;;
     optimizedCount <- liftW (forAcc cssFiles 0%nat (fun file optimizedCount =>
       content <- readFile file ;;
       if includes content "@font-face" && negb (includes content "font-display")
       then
         let content := regexReplace h "/@font-face\s*{/g" "@font-face {
  font-display: swap;" content in
         writeFile file content ;;; ret (S optimizedCount)
       else ret optimizedCount)) ;;
     if (0 <? optimizedCount)%nat
     then pushApplied ("Fonts - " +:+ showNat optimizedCount
                       +:+ " fichiers optimisés (font-display: swap)")
     else pushSkipped "Fonts - aucun @font-face trouvé")
    (fun message => pushError ("Fonts - " +:+ message)).

Definition optimizeCacheHeaders (workDir : string) : M (PerfOptimizationResult * World) unit :=
  tryCatch
    (let middlewarePath := pathJoin workDir "middleware.ts" in
     found <- liftW (fileExists middlewarePath) ;;
     if negb found
     then liftW (writeFile middlewarePath middleware) ;;;
          pushApplied "Cache headers - middleware créé"
     else pushSkipped "Cache headers - middleware existe déjà")
    (fun message => pushError ("Cache headers - " +:+ message)).

Definition optimizeBundle (workDir : string) : M (PerfOptimizationResult * World) unit :=
  tryCatch
    (let packageJsonPath := pathJoin workDir "package.json" in
     found <- liftW (fileExists packageJsonPath) ;;
     if negb found then pushSkipped "Bundle - package.json non trouvé"
     else
       text <- liftW (readFile packageJsonPath) ;;
       packageJson <- parseJson h text ;;
       scripts <- getProp packageJson "scripts" ;;
       if negb (truthy (getOpt scripts "analyze"))
       then
         let scripts := if truthy scripts then default JNull scripts else JObj [] in
         packageJson <- setProp packageJson "scripts" scripts ;;
         scripts <- setProp scripts "analyze" (JStr "ANALYZE=true next build") ;;
         packageJson <- setProp packageJson "scripts" scripts ;;
         liftW (writeFile packageJsonPath (JSON_stringify h packageJson)) ;;;
         pushApplied "Bundle - script analyze ajouté"
       else pushSkipped "Bundle - script analyze existe déjà")
    (fun message => pushError ("Bundle - " +:+ message)).

Definition optimizeCodeSplitting (workDir : string) : M (PerfOptimizationResult * World) unit :=
  tryCatch
    (files <- liftW (findFiles workDir isTsxOrJsx) ;;
     liftW (forAcc files 0%nat (fun file optimizedCount =>
       content <- readFile file ;;
       if regexTest h ("/import.*from.*['" +:+ dq +:+ "].*\/(Modal|Chart|Editor|Map)['"
                       +:+ dq +:+ "]/") content
       then ret optimizedCount
       else ret optimizedCount)) ;;;
     pushSkipped "Code splitting - analyse manuelle requise")
    (fun message => pushError ("Code splitting - " +:+ message)).

Definition purgeCss (workDir : string) : M (PerfOptimizationResult * World) unit :=
  tryCatch
    (let tailwindConfigPath := pathJoin workDir "tailwind.config.js" in
     found <- liftW (fileExists tailwindConfigPath) ;;
     if found : bool
     then
       config <- liftW (readFile tailwindConfigPath) ;;
       if negb (includes config "content:") && negb (includes config "purge:")
       then pushError "Tailwind - configuration content manquante"
       else pushSkipped "Tailwind - purge déjà configuré"
     else pushSkipped "CSS Purge - Tailwind non détecté")
    (fun message => pushError ("CSS Purge - " +:+ message)).

Definition applyPerfOptimizations (workDir : string) : M World PerfOptimizationResult :=
  out <- withLocal emptyResult
    (liftW (log "🚀 Application des optimisations de performance...") ;;;
     optimizeNextConfig workDir ;;;
     optimizeImages workDir ;;;
     optimizeFonts workDir ;;;
     optimizeCacheHeaders workDir ;;;
     optimizeBundle workDir ;;;
     optimizeCodeSplitting workDir ;;;
     purgeCss workDir ;;;
     result <- getL ;;
     liftW (log ("✓ Optimisations terminées: " +:+ showNat (length (applied result))
                 +:+ " appliquées, " +:+ showNat (length (skipped result)) +:+ " ignorées"))) ;;
  ret (snd out).

End WithHost.
End Perf.

(* ===================================================================== *)
(** ** lib/optimizer/seo.ts *)
(* ===================================================================== *)

Module Seo.
Import Js Sys.

Record SeoOptimizationResult := {
  applied : list string;
  skipped : list string;
  errors : list string;
}.

Definition emptyResult : SeoOptimizationResult :=
  {| applied := []; skipped := []; errors := [] |}.

Definition pushApplied (msg : string) : M (SeoOptimizationResult * World) unit :=
  modifyL (fun r => {| applied := applied r ++ [msg]; skipped := skipped r; errors := errors r |}).

Definition pushSkipped (msg : string) : M (SeoOptimizationResult * World) unit :=
  modifyL (fun r => {| applied := applied r; skipped := skipped r ++ [msg]; errors := errors r |}).

Definition pushError (msg : string) : M (SeoOptimizationResult * World) unit :=
  modifyL (fun r => {| applied := applied r; skipped := skipped r; errors := errors r ++ [msg] |}).

Definition skipDir (name : string) : bool :=
  String.eqb name "node_modules" || String.eqb name ".next" || String.eqb name ".git".

(** [/page\.tsx$/] and [/\.(tsx|jsx)$/] on an entry name. *)
Definition isPageTsx (name : string) : bool := endsWith name "page.tsx".
Definition isTsxOrJsx (name : string) : bool := endsWith name ".tsx" || endsWith name ".jsx".

Definition findFiles (dir : string) (pattern : string -> bool) : M World (list string) :=
  fun w => (Ok (scanTree skipDir pattern dir (fs w)), w).

(** [path.dirname] and [path.relative] on the normalised absolute paths the
    scans produce. *)
Fixpoint dirnameGo (cur acc : string) (p : string) : string :=
  match p with
  | EmptyString => String.rev acc
  | String c p' =>
      if Ascii.eqb c "/" then dirnameGo (String c cur) cur p'
      else dirnameGo (String c cur) acc p'
  end.
Definition dirname (p : string) : string := dirnameGo EmptyString EmptyString p.

Definition relative (from to : string) : string :=
  if String.eqb from to then EmptyString
  else if startsWith to (from +:+ "/") then drop (String.length from + 1) to
  else to.

(** [.replace(/^(app|src\/app)/, '').replace(/\\/g, '/').replace(/^\//, '')] *)
Fixpoint backslashesToSlashes (s : string) : string :=
  match s with
  | EmptyString => EmptyString
  | String c s' => String (if Ascii.eqb c (ascii_of_nat 92) then "/"%char else c)
                          (backslashesToSlashes s')
  end.

Definition routeOf (relativePath : string) : string :=
  let s := if startsWith relativePath "app" then drop 3 relativePath
           else if startsWith relativePath "src/app" then drop 7 relativePath
           else relativePath in
  let s := backslashesToSlashes s in
  if startsWith s "/" then drop 1 s else s.

Definition metadataBlock (siteUrl : string) : string := "
export const metadata = {
  metadataBase: new URL('" +:+ siteUrl +:+ "'),
  title: {
    default: 'Votre Site',
    template: '%s | Votre Site',
  },
  description: 'Description de votre site pour les moteurs de recherche',
  keywords: ['mot-clé 1', 'mot-clé 2', 'mot-clé 3'],
  authors: [{ name: 'Votre Nom' }],
  creator: 'Votre Nom',
  publisher: 'Votre Organisation',
  robots: {
    index: true,
    follow: true,
    googleBot: {
      index: true,
      follow: true,
      'max-video-preview': -1,
      'max-image-preview': 'large',
      'max-snippet': -1,
    },
  },
  openGraph: {
    type: 'website',
    locale: 'fr_FR',
    url: '" +:+ siteUrl +:+ "',
    title: 'Votre Site',
    description: 'Description de votre site',
    siteName: 'Votre Site',
    images: [
      {
        url: '" +:+ siteUrl +:+ "/og-image.jpg',
        width: 1200,
        height: 630,
        alt: 'Image de prévisualisation',
      },
    ],
  },
  twitter: {
    card: 'summary_large_image',
    title: 'Votre Site',
    description: 'Description de votre site',
    images: ['" +:+ siteUrl +:+ "/og-image.jpg'],
    creator: '@votre_compte',
  },
  verification: {
    google: 'votre-code-google-search-console',
  },
};
".

Definition robotsTxt (siteUrl : string) : string := "# robots.txt
User-agent: *
Allow: /

# Sitemap
Sitemap: " +:+ siteUrl +:+ "/sitemap.xml

# Crawl-delay (optionnel)
# Crawl-delay: 10

# Bloquer certains bots indésirables
User-agent: AhrefsBot
Disallow: /

User-agent: SemrushBot
Disallow: /
".

Definition sitemapCode (siteUrl : string) : string := "import { MetadataRoute } from 'next';

export default function sitemap(): MetadataRoute.Sitemap {
  const baseUrl = '" +:+ siteUrl +:+ "';

  // Routes statiques
  const routes = ['', '/about', '/contact', '/blog'].map((route) => ({
    url: `${baseUrl}${route}`,
    lastModified: new Date().toISOString(),
    changeFrequency: 'daily' as const,
    priority: route === '' ? 1.0 : 0.8,
  }));

  // Ajouter ici les routes dynamiques (articles, produits, etc.)
  // Exemple: const posts = await getPosts();
  // const postUrls = posts.map(post => ({ url: ... }));

  return routes;
}
".

Definition component (siteUrl : string) : string := "import React from 'react';

interface StructuredDataProps {
  data: object;
}

export function StructuredData({ data }: StructuredDataProps) {
  return (
    <script
      type=" +:+ dq +:+ "application/ld+json" +:+ dq +:+ "
      dangerouslySetInnerHTML={{ __html: JSON.stringify(data) }}
    />
  );
}

// Schemas prédéfinis
export const WebSiteSchema = {
  '@context': 'https://schema.org',
  '@type': 'WebSite',
  name: 'Votre Site',
  url: '" +:+ siteUrl +:+ "',
  description: 'Description de votre site',
  potentialAction: {
    '@type': 'SearchAction',
    target: {
      '@type': 'EntryPoint',
      urlTemplate: '" +:+ siteUrl +:+ "/search?q={search_term_string}',
    },
    'query-input': 'required name=search_term_string',
  },
};

export const OrganizationSchema = {
  '@context': 'https://schema.org',
  '@type': 'Organization',
  name: 'Votre Organisation',
  url: '" +:+ siteUrl +:+ "',
  logo: '" +:+ siteUrl +:+ "/logo.png',
  sameAs: [
    'https://www.facebook.com/votre-page',
    'https://www.twitter.com/votre-compte',
    'https://www.linkedin.com/company/votre-societe',
  ],
};

export function createBreadcrumbSchema(items: Array<{ name: string; url: string }>) {
  return {
    '@context': 'https://schema.org',
    '@type': 'BreadcrumbList',
    itemListElement: items.map((item, index) => ({
      '@type': 'ListItem',
      position: index + 1,
      name: item.name,
      item: item.url,
    })),
  };
}

export function createArticleSchema(article: {
  title: string;
  description: string;
  image: string;
  datePublished: string;
  dateModified: string;
  author: string;
}) {
  return {
    '@context': 'https://schema.org',
    '@type': 'Article',
    headline: article.title,
    description: article.description,
    image: article.image,
    datePublished: article.datePublished,
    dateModified: article.dateModified,
    author: {
      '@type': 'Person',
      name: article.author,
    },
  };
}
".

(** The [for ... break] search for the first existing layout. *)
Fixpoint firstExisting (paths : list string) : M World (option string) :=
  match paths with
  | [] => ret None
  | p :: rest =>
      bind (fileExists p) (fun found : bool =>
        if found then ret (Some p) else firstExisting rest)
  end.

Section WithHost.
Variable h : Host.

Definition optimizeMetaTags (workDir siteUrl : string) : M (SeoOptimizationResult * World) unit :=
  tryCatch
    (let layoutPaths := [ pathJoin workDir "app/layout.tsx";
                          pathJoin workDir "src/app/layout.tsx" ] in
     layoutPath <- liftW (firstExisting layoutPaths) ;;
     match layoutPath with
     | None => pushSkipped "Meta tags - layout.tsx non trouvé"
     | Some layoutPath =>
         layout <- liftW (readFile layoutPath) ;;
         if includes layout "export const metadata"
         then pushSkipped "Meta tags - metadata déjà défini"
         else
           let layout :=
             regexReplace h "/export default function/"
               (metadataBlock siteUrl +:+ "

export default function") layout in
           liftW (writeFile layoutPath layout) ;;;
           pushApplied "Meta tags - metadata ajouté au layout"
     end)
    (fun message => pushError ("Meta tags - " +:+ message)).

Definition optimizeRobotsTxt (workDir siteUrl : string) : M (SeoOptimizationResult * World) unit :=
  tryCatch
    (let robotsTxtPath := pathJoin workDir "public/robots.txt" in
     liftW (mkdir (pathJoin workDir "public")) ;;;
     liftW (writeFile robotsTxtPath (robotsTxt siteUrl)) ;;;
     pushApplied "robots.txt - créé/mis à jour")
    (fun message => pushError ("robots.txt - " +:+ message)).

Definition optimizeSitemap (workDir siteUrl : string) : M (SeoOptimizationResult * World) unit :=
  tryCatch
    (let sitemapPath := pathJoin workDir "app/sitemap.ts" in
     found <- liftW (fileExists sitemapPath) ;;
     if found : bool
     then pushSkipped "sitemap.xml - sitemap.ts existe déjà"
     else
       liftW (writeFile sitemapPath (sitemapCode siteUrl)) ;;;
       pushApplied "sitemap.xml - sitemap.ts généré")
    (fun message => pushError ("sitemap.xml - " +:+ message)).

Definition addStructuredData (workDir siteUrl : string) : M (SeoOptimizationResult * World) unit :=
  tryCatch
    (let componentDir := pathJoin workDir "components/seo" in
     liftW (mkdir componentDir) ;;;
     let structuredDataPath := pathJoin componentDir "StructuredData.tsx" in
     found <- liftW (fileExists structuredDataPath) ;;
     if found : bool
     then pushSkipped "Schema.org - composant existe déjà"
     else
       liftW (writeFile structuredDataPath (component siteUrl)) ;;;
       pushApplied "Schema.org - composant StructuredData créé")
    (fun message => pushError ("Schema.org - " +:+ message)).

Definition addCanonicalUrls (workDir siteUrl : string) : M (SeoOptimizationResult * World) unit :=
  tryCatch
    (files <- liftW (findFiles workDir isPageTsx) ;;
     modifiedCount <- liftW (forAcc files 0%nat (fun file modifiedCount =>
       content <- readFile file ;;
       if includes content "export const metadata" && negb (includes content "alternates")
       then
         let relativePath := relative workDir (dirname file) in
         let route := routeOf relativePath in
         let canonicalUrl :=
           if String.eqb route "" then siteUrl else siteUrl +:+ "/" +:+ route in
         let content :=
           regexReplace h "/(export const metadata = {[^}]*)/"
             ("$1
  alternates: {
    canonical: '" +:+ canonicalUrl +:+ "',
  },") content in
         writeFile file content ;;; ret (S modifiedCount)
       else ret modifiedCount)) ;;
     if (0 <? modifiedCount)%nat
     then pushApplied ("Canonical URLs - " +:+ showNat modifiedCount +:+ " pages mises à jour")
     else pushSkipped "Canonical URLs - aucune page à modifier")
    (fun message => pushError ("Canonical URLs - " +:+ message)).

Definition checkImageAltTexts (workDir : string) : M (SeoOptimizationResult * World) unit :=
  tryCatch
    (files <- liftW (findFiles workDir isTsxOrJsx) ;;
     missingAlt <- liftW (forAcc files ([] : list string) (fun file missingAlt =>
       content <- readFile file ;;
       let matches := regexMatchCount h "/<(Image|img)\s+(?![^>]*alt=)[^>]*>/g" content in
       if (0 <? matches)%nat
       then ret (missingAlt ++ [relative workDir file +:+ " (" +:+ showNat matches
                                +:+ " images)"])%list
       else ret missingAlt)) ;;
     if (0 <? length missingAlt)%nat
     then pushError ("Alt texts manquants dans: " +:+ join ", " missingAlt)
     else pushApplied "Alt texts - toutes les images ont des descriptions")
    (fun message => pushError ("Alt texts - " +:+ message)).

Definition applySeoOptimizations (workDir siteUrl : string) : M World SeoOptimizationResult :=
  out <- withLocal emptyResult
    (liftW (log "🔍 Application des optimisations SEO...") ;;;
     optimizeMetaTags workDir siteUrl ;;;
     optimizeRobotsTxt workDir siteUrl ;;;
     optimizeSitemap workDir siteUrl ;;;
     addStructuredData workDir siteUrl ;;;
     addCanonicalUrls workDir siteUrl ;;;
     checkImageAltTexts workDir ;;;
     result <- getL ;;
     liftW (log ("✓ Optimisations SEO terminées: " +:+ showNat (length (applied result))
                 +:+ " appliquées"))) ;;
  ret (snd out).

End WithHost.
End Seo.

(* ===================================================================== *)
(** ** lib/optimizer/audit.ts *)
(* ===================================================================== *)

Module Audit.
Import Js Sys.

Record Scores := {
  performance : Z;
  accessibility : Z;
  bestPractices : Z;
  seo : Z;
}.

Record Metrics := {
  fcp : option json;
  lcp : option json;
  cls : option json;
  tti : option json;
  tbt : option json;
  si : option json;
}.

Inductive Preset := mobile | desktop.

Record LighthouseResult := {
  url : string;
  device : Preset;
  scores : Scores;
  metrics : Metrics;
  timestamp : string;
}.

Record BundleFile := {
  path : string;
  size : Z;
  percentage : option json;
}.

Record BundleAnalysis := {
  totalSize : Z;
  files : list BundleFile;
  largestFiles : list BundleFile;
}.

Definition presetName (preset : Preset) : string :=
  match preset with mobile => "mobile" | desktop => "desktop" end.

Definition zeroScores : Scores :=
  {| performance := 0; accessibility := 0; bestPractices := 0; seo := 0 |}.

Definition noMetrics : Metrics :=
  {| fcp := None; lcp := None; cls := None; tti := None; tbt := None; si := None |}.

(** Node's rendering of the scores object passed to [console.log]. *)
Definition showScores (s : Scores) : string :=
  "{ performance: " +:+ showZ (performance s) +:+ ", accessibility: " +:+ showZ (accessibility s)
  +:+ ", bestPractices: " +:+ showZ (bestPractices s) +:+ ", seo: " +:+ showZ (seo s) +:+ " }".

Definition isJsOrCss (name : string) : bool := endsWith name ".js" || endsWith name ".css".

(** [[...files].sort((a, b) => b.size - a.size)]: stable, largest first. *)
Fixpoint insertBySize (x : BundleFile) (l : list BundleFile) : list BundleFile :=
  match l with
  | [] => [x]
  | y :: rest => if (size y <=? size x)%Z then x :: l else y :: insertBySize x rest
  end.

Definition sortBySizeDesc (l : list BundleFile) : list BundleFile :=
  fold_right insertBySize [] l.

Section WithHost.
Variable h : Host.

Definition REPORTS_DIR : string := pathJoin (processCwd h) ".reports".

Definition formatBytes (bytes : Z) : string :=
  if (bytes =? 0)%Z then "0 B" else formatNonZeroBytes h bytes.

(** [Math.round((category?.score || 0) * 100)] *)
Definition scoreOf (category : option json) : Z :=
  let score := getOpt category "score" in
  if truthy score then roundTimes100 h (default JNull score) else 0.

Definition lighthouseCommand (url : string) (preset : Preset) (outputPath : string) : string :=
  let formFactor := match preset with mobile => "mobile" | desktop => "desktop" end in
  let screenEmulation :=
    match preset with
    | mobile => "--screenEmulation.mobile=true --screenEmulation.width=375 --screenEmulation.height=667"
    | desktop => "--screenEmulation.mobile=false --screenEmulation.width=1920 --screenEmulation.height=1080"
    end in
  "npx lighthouse " +:+ dq +:+ url +:+ dq +:+ "       --output=json       --output-path="
  +:+ dq +:+ outputPath +:+ dq
  +:+ "       --only-categories=performance,accessibility,best-practices,seo       --form-factor="
  +:+ formFactor +:+ "       " +:+ screenEmulation +:+ "       --quiet       --chrome-flags="
  +:+ dq +:+ "--headless --no-sandbox --disable-gpu" +:+ dq.

Definition runLighthouse (url : string) (preset : Preset) : M World LighthouseResult :=
  tryCatch
    (mkdir REPORTS_DIR ;;;
     timestamp <- DateNow h ;;
     let outputPath :=
       pathJoin REPORTS_DIR ("lh-" +:+ presetName preset +:+ "-" +:+ showZ timestamp +:+ ".json") in
     let command := lighthouseCommand url preset outputPath in
     log ("Lancement de Lighthouse (" +:+ presetName preset +:+ ") pour " +:+ url +:+ "...") ;;;
     execAsync h command None ;;;
     rawData <- readFile outputPath ;;
     lhResult <- parseJson h rawData ;;
     categories <- getProp lhResult "categories" ;;
     cPerformance <- getPropOf categories "performance" ;;
     cAccessibility <- getPropOf categories "accessibility" ;;
     cBestPractices <- getPropOf categories "best-practices" ;;
     cSeo <- getPropOf categories "seo" ;;
     audits <- getProp lhResult "audits" ;;
     aFcp <- getPropOf audits "first-contentful-paint" ;;
     aLcp <- getPropOf audits "largest-contentful-paint" ;;
     aCls <- getPropOf audits "cumulative-layout-shift" ;;
     aTti <- getPropOf audits "interactive" ;;
     aTbt <- getPropOf audits "total-blocking-time" ;;
     aSi <- getPropOf audits "speed-index" ;;
     now <- isoNow h ;;
     let result :=
       {| url := url;
          device := preset;
          scores := {| performance := scoreOf cPerformance;
                       accessibility := scoreOf cAccessibility;
                       bestPractices := scoreOf cBestPractices;
                       seo := scoreOf cSeo |};
          metrics := {| fcp := getOpt aFcp "numericValue";
                        lcp := getOpt aLcp "numericValue";
                        cls := getOpt aCls "numericValue";
                        tti := getOpt aTti "numericValue";
                        tbt := getOpt aTbt "numericValue";
                        si := getOpt aSi "numericValue" |};
          timestamp := now |} in
     log ("✓ Lighthouse " +:+ presetName preset +:+ " terminé - Scores: "
          +:+ showScores (scores result)) ;;;
     ret result)
    (fun message =>
       log ("Erreur lors de l'audit Lighthouse (" +:+ presetName preset +:+ "): " +:+ message) ;;;
       now <- isoNow h ;;
       ret {| url := url;
              device := preset;
              scores := {| performance := 0; accessibility := 0; bestPractices := 0; seo := 0 |};
              metrics := noMetrics;
              timestamp := now |}).

Definition writeBundleReport (analysis : BundleAnalysis) (outputPath : string) : M World unit :=
  let lines :=
   ([ "# Analyse des Bundles";
      "";
      "**Taille totale:** " +:+ formatBytes (totalSize analysis);
      "";
      "## Top 10 des fichiers les plus lourds";
      "";
      "| Fichier | Taille |";
      "|---------|--------|" ]
    ++ List.map (fun file => "| " +:+ path file +:+ " | " +:+ formatBytes (size file) +:+ " |")
         (largestFiles analysis)
    ++ [ "";
         "## Recommandations";
         "";
         "- Vérifier les dépendances lourdes et envisager des alternatives";
         "- Implémenter le code-splitting pour les pages volumineuses";
         "- Activer la compression Brotli/Gzip sur le serveur";
         "- Utiliser dynamic imports pour les composants non critiques" ])%list in
  writeFile outputPath (join "
" lines).

(** The inner [scanDirectory]: every script or style file below [dir], with
    its path relative to [buildDir] and its size. *)
Definition scanDirectory (buildDir dir : string) : M World (list BundleFile) :=
  fun w =>
    (Ok (List.map (fun fullPath =>
           {| path := drop (String.length buildDir + 1) fullPath;
              size := fileSize (fs w) fullPath;
              percentage := None |})
           (scanTree (fun _ => false) isJsOrCss dir (fs w))), w).

Definition analyzeBundles (buildDir : string) : M World BundleAnalysis :=
  tryCatch
    (let outDir := pathJoin buildDir ".next" in
     let staticDir := pathJoin outDir "static" in
     files <- scanDirectory buildDir staticDir ;;
     let totalSize := fold_left (fun sum f => (sum + size f)%Z) files 0%Z in
     let filesWithPercentage :=
       List.map (fun f => {| path := path f; size := size f;
                             percentage := Some (if (0 <? totalSize)%Z
                                                 then percentOf h (size f) totalSize
                                                 else JNum 0 0) |}) files in
     let largestFiles := firstn 10 (sortBySizeDesc files) in
     let analysis := {| totalSize := totalSize; files := filesWithPercentage;
                        largestFiles := largestFiles |} in
     stamp <- DateNow h ;;
     let reportPath := pathJoin REPORTS_DIR ("bundles-" +:+ showZ stamp +:+ ".md") in
     writeBundleReport analysis reportPath ;;;
     log ("✓ Analyse des bundles terminée - Taille totale: " +:+ formatBytes totalSize) ;;;
     ret analysis)
    (fun message =>
       log ("Erreur lors de l'analyse des bundles: " +:+ message) ;;;
       ret {| totalSize := 0; files := []; largestFiles := [] |}).

End WithHost.

Definition compareAudits (before after : LighthouseResult) : gmap string Z :=
  <["performance" := (performance (scores after) - performance (scores before))%Z]>
  (<["accessibility" := (accessibility (scores after) - accessibility (scores before))%Z]>
  (<["bestPractices" := (bestPractices (scores after) - bestPractices (scores before))%Z]>
  (<["seo" := (seo (scores after) - seo (scores before))%Z]> ∅))).

End Audit.

(* ===================================================================== *)
(** ** The decrypted connection descriptor *)
(* ===================================================================== *)

Module Connection.

(** The fields the admin panel encrypts, as the optimiser reads them back
    ([connectionData] is untyped there): a missing property is [None]. *)
Record Connection := {
  type : string;
  label : option string;
  host : option string;
  port : option Z;
  username : option string;
  authMethod : option string;
  password : option string;
  privateKey : option string;
  passphrase : option string;
  repoUrl : option string;
  branch : option string;
  remotePath : option string;
}.

End Connection.

(* ===================================================================== *)
(** ** lib/optimizer/index.ts *)
(* ===================================================================== *)

Module Optimizer.
Import Js Sys.

Record MinScores := {
  minPerformance : Z;
  minSeo : Z;
  minAccessibility : Z;
  minBestPractices : Z;
}.

Record OptimizationConfig := {
  connectionId : string;
  connectionData : Connection.Connection;
  siteUrl : string;
  lighthouseMinScores : MinScores;
  optimizeBranch : string;
  preferPr : bool;
  constraints : option string;
  allowedHosts : list string;
}.

Record LighthouseSnapshots := {
  before : option Audit.LighthouseResult;
  after : option Audit.LighthouseResult;
  mobile : option Audit.LighthouseResult;
}.

Record OptimizationReport := {
  success : bool;
  workDir : string;
  branch : string;
  prUrl : option string;
  lighthouse : LighthouseSnapshots;
  bundles : option Audit.BundleAnalysis;
  perf : Perf.PerfOptimizationResult;
  seo : Seo.SeoOptimizationResult;
  diffs : gmap string Z;
  errors : list string;
  warnings : list string;
}.

(** *** Assignments to the fields of the report *)

Definition setSuccess (b : bool) (r : OptimizationReport) : OptimizationReport :=
  {| success := b; workDir := workDir r; branch := branch r; prUrl := prUrl r;
     lighthouse := lighthouse r; bundles := bundles r; perf := perf r; seo := seo r;
     diffs := diffs r; errors := errors r; warnings := warnings r |}.

Definition setWorkDir (d : string) (r : OptimizationReport) : OptimizationReport :=
  {| success := success r; workDir := d; branch := branch r; prUrl := prUrl r;
     lighthouse := lighthouse r; bundles := bundles r; perf := perf r; seo := seo r;
     diffs := diffs r; errors := errors r; warnings := warnings r |}.

Definition setPrUrl (u : option string) (r : OptimizationReport) : OptimizationReport :=
  {| success := success r; workDir := workDir r; branch := branch r; prUrl := u;
     lighthouse := lighthouse r; bundles := bundles r; perf := perf r; seo := seo r;
     diffs := diffs r; errors := errors r; warnings := warnings r |}.

Definition setLighthouse (l : LighthouseSnapshots) (r : OptimizationReport) : OptimizationReport :=
  {| success := success r; workDir := workDir r; branch := branch r; prUrl := prUrl r;
     lighthouse := l; bundles := bundles r; perf := perf r; seo := seo r;
     diffs := diffs r; errors := errors r; warnings := warnings r |}.

Definition setBefore (x : Audit.LighthouseResult) (r : OptimizationReport) : OptimizationReport :=
  setLighthouse {| before := Some x; after := after (lighthouse r);
                   mobile := mobile (lighthouse r) |} r.

Definition setAfter (x : Audit.LighthouseResult) (r : OptimizationReport) : OptimizationReport :=
  setLighthouse {| before := before (lighthouse r); after := Some x;
                   mobile := mobile (lighthouse r) |} r.

Definition setMobile (x : Audit.LighthouseResult) (r : OptimizationReport) : OptimizationReport :=
  setLighthouse {| before := before (lighthouse r); after := after (lighthouse r);
                   mobile := Some x |} r.

Definition setBundles (b : Audit.BundleAnalysis) (r : OptimizationReport) : OptimizationReport :=
  {| success := success r; workDir := workDir r; branch := branch r; prUrl := prUrl r;
     lighthouse := lighthouse r; bundles := Some b; perf := perf r; seo := seo r;
     diffs := diffs r; errors := errors r; warnings := warnings r |}.

Definition setPerf (p : Perf.PerfOptimizationResult) (r : OptimizationReport) : OptimizationReport :=
  {| success := success r; workDir := workDir r; branch := branch r; prUrl := prUrl r;
     lighthouse := lighthouse r; bundles := bundles r; perf := p; seo := seo r;
     diffs := diffs r; errors := errors r; warnings := warnings r |}.

Definition setSeo (p : Seo.SeoOptimizationResult) (r : OptimizationReport) : OptimizationReport :=
  {| success := success r; workDir := workDir r; branch := branch r; prUrl := prUrl r;
     lighthouse := lighthouse r; bundles := bundles r; perf := perf r; seo := p;
     diffs := diffs r; errors := errors r; warnings := warnings r |}.

Definition setDiffs (d : gmap string Z) (r : OptimizationReport) : OptimizationReport :=
  {| success := success r; workDir := workDir r; branch := branch r; prUrl := prUrl r;
     lighthouse := lighthouse r; bundles := bundles r; perf := perf r; seo := seo r;
     diffs := d; errors := errors r; warnings := warnings r |}.

(** [report.errors.push(msg)] and [report.warnings.push(msg)] *)
Definition pushError (msg : string) (r : OptimizationReport) : OptimizationReport :=
  {| success := success r; workDir := workDir r; branch := branch r; prUrl := prUrl r;
     lighthouse := lighthouse r; bundles := bundles r; perf := perf r; seo := seo r;
     diffs := diffs r; errors := errors r ++ [msg]; warnings := warnings r |}.

Definition pushWarning (msg : string) (r : OptimizationReport) : OptimizationReport :=
  {| success := success r; workDir := workDir r; branch := branch r; prUrl := prUrl r;
     lighthouse := lighthouse r; bundles := bundles r; perf := perf r; seo := seo r;
     diffs := diffs r; errors := errors r; warnings := warnings r ++ [msg] |}.

Definition initialReport (config : OptimizationConfig) : OptimizationReport :=
  {| success := false;
     workDir := "";
     branch := optimizeBranch config;
     prUrl := None;
     lighthouse := {| before := None; after := None; mobile := None |};
     bundles := None;
     perf := {| Perf.applied := []; Perf.skipped := []; Perf.errors := [] |};
     seo := {| Seo.applied := []; Seo.skipped := []; Seo.errors := [] |};
     diffs := ∅;
     errors := [];
     warnings := [] |}.

(** *** Utilities *)

(** [`${x?.scores.f || 'N/A'}`] *)
Definition scoreOrNA (x : option Audit.LighthouseResult) (f : Audit.Scores -> Z) : string :=
  match x with
  | Some r => if (f (Audit.scores r) =? 0)%Z then "N/A" else showZ (f (Audit.scores r))
  | None => "N/A"
  end.

Definition formatDiff (diff : option Z) : string :=
  match diff with
  | None => ""
  | Some d =>
      if (d =? 0)%Z then ""
      else
        let sign := if (0 <? d)%Z then "+" else "" in
        "(" +:+ sign +:+ showZ d +:+ ")"
  end.

(** [.replace(/"/g, '\\"')] *)
Fixpoint escapeQuotes (s : string) : string :=
  match s with
  | EmptyString => EmptyString
  | String c s' =>
      if Ascii.eqb c (ascii_of_nat 34)
      then String (ascii_of_nat 92) (String c (escapeQuotes s'))
      else String c (escapeQuotes s')
  end.

(** [x > 0] on a value read from the report of [npm audit].  A number is
    compared as it is and [true] counts as one; a text is read as a number;
    an array counts as the text it joins to, which is a number only for an
    array of one element that is not a boolean; [null], [undefined] and
    plain objects are not greater than zero. *)
Fixpoint positive (h : Host) (x : json) : bool :=
  match x with
  | JNum m _ => (0 <? m)%Z
  | JBool b => b
  | JStr text => textPositive h text
  | JArr [JBool _] => false
  | JArr [item] => positive h item
  | _ => false
  end.

Definition gtZero (h : Host) (o : option json) : bool :=
  match o with
  | Some x => positive h x
  | None => false
  end.

Definition validateScores (config : OptimizationConfig) (report : OptimizationReport)
  : OptimizationReport :=
  match after (lighthouse report) with
  | None => report
  | Some a =>
      let scores := Audit.scores a in
      let lighthouseMinScores := lighthouseMinScores config in
      let report :=
        if (Audit.performance scores <? minPerformance lighthouseMinScores)%Z
        then pushWarning ("Performance " +:+ showZ (Audit.performance scores) +:+ " < "
                          +:+ showZ (minPerformance lighthouseMinScores)) report
        else report in
      let report :=
        if (Audit.seo scores <? minSeo lighthouseMinScores)%Z
        then pushWarning ("SEO " +:+ showZ (Audit.seo scores) +:+ " < "
                          +:+ showZ (minSeo lighthouseMinScores)) report
        else report in
      let report :=
        if (Audit.accessibility scores <? minAccessibility lighthouseMinScores)%Z
        then pushWarning ("Accessibilité " +:+ showZ (Audit.accessibility scores) +:+ " < "
                          +:+ showZ (minAccessibility lighthouseMinScores)) report
        else report in
      if (Audit.bestPractices scores <? minBestPractices lighthouseMinScores)%Z
      then pushWarning ("Best Practices " +:+ showZ (Audit.bestPractices scores) +:+ " < "
                        +:+ showZ (minBestPractices lighthouseMinScores)) report
      else report
  end.

Definition commitMessage (report : OptimizationReport) : string :=
  "chore: optimisations perf + SEO

- " +:+ showNat (length (Perf.applied (perf report))) +:+ " optimisations de performance appliquées
- " +:+ showNat (length (Seo.applied (seo report))) +:+ " optimisations SEO appliquées

Scores Lighthouse (desktop):
- Performance: " +:+ scoreOrNA (after (lighthouse report)) Audit.performance +:+ "
- SEO: " +:+ scoreOrNA (after (lighthouse report)) Audit.seo +:+ "
- Accessibilité: " +:+ scoreOrNA (after (lighthouse report)) Audit.accessibility +:+ "
- Best Practices: " +:+ scoreOrNA (after (lighthouse report)) Audit.bestPractices +:+ "

🤖 Généré automatiquement".

Section WithHost.
Variable h : Host.

Definition prBody (report : OptimizationReport) : string :=
  "## 🚀 Optimisations automatiques Perf + SEO

### 📊 Résultats Lighthouse

**Desktop:**
- Performance: " +:+ scoreOrNA (after (lighthouse report)) Audit.performance +:+ " "
    +:+ formatDiff (diffs report !! "performance") +:+ "
- SEO: " +:+ scoreOrNA (after (lighthouse report)) Audit.seo +:+ " "
    +:+ formatDiff (diffs report !! "seo") +:+ "
- Accessibilité: " +:+ scoreOrNA (after (lighthouse report)) Audit.accessibility +:+ " "
    +:+ formatDiff (diffs report !! "accessibility") +:+ "
- Best Practices: " +:+ scoreOrNA (after (lighthouse report)) Audit.bestPractices +:+ " "
    +:+ formatDiff (diffs report !! "bestPractices") +:+ "

**Mobile:**
- Performance: " +:+ scoreOrNA (mobile (lighthouse report)) Audit.performance +:+ "
- SEO: " +:+ scoreOrNA (mobile (lighthouse report)) Audit.seo +:+ "

### ⚡ Optimisations de performance

" +:+ join "
" (List.map (fun a => "- ✅ " +:+ a) (Perf.applied (perf report))) +:+ "

### 🔍 Optimisations SEO

" +:+ join "
" (List.map (fun a => "- ✅ " +:+ a) (Seo.applied (seo report))) +:+ "

### 📦 Bundles

Taille totale: "
  +:+ Audit.formatBytes h (match bundles report with
                           | Some b => Audit.totalSize b
                           | None => 0%Z
                           end) +:+ "

" +:+ (if (0 <? length (warnings report))%nat
       then "
### ⚠️ Avertissements

" +:+ join "
" (List.map (fun w => "- " +:+ w) (warnings report))
       else "") +:+ "

### 📋 Plan de test

- [ ] Vérifier que le site build correctement
- [ ] Tester les fonctionnalités critiques
- [ ] Vérifier l'affichage sur mobile
- [ ] Valider les scores Lighthouse en production

---
🤖 Généré automatiquement avec l'optimiseur".

Definition prepareWorkingDirectory (config : OptimizationConfig) : M World string :=
  stamp <- DateNow h ;;
  let workDir :=
    pathJoin (tmpdir h) ("workdir-" +:+ connectionId config +:+ "-" +:+ showZ stamp) in
  mkdir workDir ;;;
  log ("📁 Répertoire de travail: " +:+ workDir) ;;;
  ret workDir.

Definition fetchSources (config : OptimizationConfig) (workDir : string) : M World unit :=
  let connectionData := connectionData config in
  if String.eqb (Connection.type connectionData) "git" then
    log ("🔄 Clonage du dépôt Git: " +:+ tpl (Connection.repoUrl connectionData)) ;;;
    let branch := orElse (Connection.branch connectionData) "main" in
    execAsync h ("git clone --depth 1 --branch " +:+ branch +:+ " "
                 +:+ dq +:+ tpl (Connection.repoUrl connectionData) +:+ dq +:+ " "
                 +:+ dq +:+ workDir +:+ dq) None ;;;
    ret tt
  else if String.eqb (Connection.type connectionData) "ssh"
          || String.eqb (Connection.type connectionData) "sftp" then
    log ("📥 Téléchargement des sources via "
         +:+ toUpperCase (Connection.type connectionData) +:+ "...") ;;;
    let remotePath := orElse (Connection.remotePath connectionData) "/var/www/html" in
    let command :=
      "scp -r " +:+ tpl (Connection.username connectionData) +:+ "@"
      +:+ tpl (Connection.host connectionData) +:+ ":" +:+ remotePath +:+ "/* "
      +:+ dq +:+ workDir +:+ "/" +:+ dq in
    tryCatch (execAsync h command None ;;; ret tt)
      (fun message => throw ("Échec du téléchargement SSH/SFTP: Error: " +:+ message))
  else
    throw ("Type de connexion non supporté: " +:+ Connection.type connectionData).

Definition createOptimizationBranch (workDir branchName : string) : M World unit :=
  tryCatch
    (execAsync h ("git checkout -b " +:+ branchName) (Some workDir) ;;;
     log ("🌿 Branche créée: " +:+ branchName))
    (fun _ => log "⚠️  Branche existe déjà ou pas de git repo, continuation...").

Definition installDependencies (workDir : string) : M World unit :=
  log "📦 Installation des dépendances..." ;;;
  let packageJsonPath := pathJoin workDir "package.json" in
  found <- fileExists packageJsonPath ;;
  if negb found then log "⚠️  package.json non trouvé, skip install"
  else
    hasLockfile <- fileExists (pathJoin workDir "package-lock.json") ;;
    hasPnpmLock <- fileExists (pathJoin workDir "pnpm-lock.yaml") ;;
    hasYarnLock <- fileExists (pathJoin workDir "yarn.lock") ;;
    let installCmd :=
      if hasPnpmLock : bool then "pnpm install"
      else if hasYarnLock : bool then "yarn install"
      else "npm install" in
    tryCatch
      (execAsync h installCmd (Some workDir) ;;;
       log "✓ Dépendances installées")
      (fun message => log ("⚠️  Erreur installation dépendances: " +:+ message)).

Definition runQualityChecks (workDir : string) : M (OptimizationReport * World) unit :=
  liftW (log "🔍 Vérifications qualité...") ;;;
  tryCatch
    (liftW (execAsync h "npm run lint -- --fix" (Some workDir)) ;;;
     liftW (log "✓ ESLint OK"))
    (fun _ => modifyL (pushWarning "ESLint a détecté des erreurs (non bloquant)")) ;;;
  tryCatch
    (liftW (execAsync h ("npx prettier --write " +:+ dq
                         +:+ "**/*.{ts,tsx,js,jsx,json,css,md}" +:+ dq) (Some workDir)) ;;;
     liftW (log "✓ Prettier OK"))
    (fun _ => ret tt) ;;;
  tryCatch
    (stdout <- liftW (execAsync h "npm audit --json" (Some workDir)) ;;
     auditResult <- parseJson h stdout ;;
     metadata <- getProp auditResult "metadata" ;;
     let high := getOpt (getOpt metadata "vulnerabilities") "high" in
     if gtZero h high
     then modifyL (pushWarning ("npm audit: " +:+ showNumber h (default JNull high)
                                +:+ " vulnérabilités élevées"))
     else ret tt)
    (fun _ => ret tt).

Definition buildProject (workDir : string) : M (OptimizationReport * World) unit :=
  liftW (log "🔨 Build du projet...") ;;;
  tryCatch
    (liftW (execAsync h "npm run build" (Some workDir)) ;;;
     liftW (log "✓ Build réussi"))
    (fun error =>
       let message := "Build échoué: " +:+ error in
       modifyL (pushError message) ;;;
       throw message).

Definition commitChanges (workDir : string) (config : OptimizationConfig)
  : M (OptimizationReport * World) unit :=
  liftW (log "💾 Commit des changements...") ;;;
  tryCatch
    (liftW (execAsync h "git add ." (Some workDir)) ;;;
     report <- getL ;;
     liftW (execAsync h ("git commit -m " +:+ dq +:+ commitMessage report +:+ dq)
                      (Some workDir)) ;;;
     liftW (log "✓ Changements commités") ;;;
     liftW (execAsync h ("git push -u origin " +:+ optimizeBranch config) (Some workDir)) ;;;
     liftW (log "✓ Changements poussés"))
    (fun message =>
       liftW (log ("⚠️  Erreur lors du commit/push: " +:+ message)) ;;;
       modifyL (pushWarning "Commit/push a échoué")).

Definition createPullRequest (workDir : string) (config : OptimizationConfig)
  : M (OptimizationReport * World) (option string) :=
  liftW (log "🔀 Création de la Pull Request...") ;;;
  tryCatch
    (report <- getL ;;
     stdout <- liftW (execAsync h
       ("gh pr create --title " +:+ dq +:+ "chore: optimisations perf + SEO" +:+ dq
        +:+ " --body " +:+ dq +:+ escapeQuotes (prBody report) +:+ dq) (Some workDir)) ;;
     let prUrl := trim stdout in
     liftW (log ("✓ PR créée: " +:+ prUrl)) ;;;
     ret (Some prUrl))
    (fun message =>
       liftW (log ("⚠️  Impossible de créer la PR automatiquement: " +:+ message)) ;;;
       modifyL (pushWarning ("Créer manuellement la PR depuis la branche "
                             +:+ optimizeBranch config)) ;;;
       ret None).

(** The body of the [try] block of [runOptimizationPipeline]. *)
Definition pipelineSteps (config : OptimizationConfig) : M (OptimizationReport * World) unit :=
  workDir <- liftW (prepareWorkingDirectory config) ;;
  modifyL (setWorkDir workDir) ;;;
  liftW (fetchSources config workDir) ;;;
  liftW (log "📊 Audit avant optimisation...") ;;;
  x <- liftW (Audit.runLighthouse h (siteUrl config) Audit.desktop) ;;
  modifyL (setBefore x) ;;;
  liftW (createOptimizationBranch workDir (optimizeBranch config)) ;;;
  liftW (installDependencies workDir) ;;;
  p <- liftW (Perf.applyPerfOptimizations h workDir) ;;
  modifyL (setPerf p) ;;;
  s <- liftW (Seo.applySeoOptimizations h workDir (siteUrl config)) ;;
  modifyL (setSeo s) ;;;
  runQualityChecks workDir ;;;
  buildProject workDir ;;;
  b <- liftW (Audit.analyzeBundles h workDir) ;;
  modifyL (setBundles b) ;;;
  liftW (log "📊 Audit après optimisation...") ;;;
  x <- liftW (Audit.runLighthouse h (siteUrl config) Audit.desktop) ;;
  modifyL (setAfter x) ;;;
  x <- liftW (Audit.runLighthouse h (siteUrl config) Audit.mobile) ;;
  modifyL (setMobile x) ;;;
  modifyL (fun report =>
    match before (lighthouse report), after (lighthouse report) with
    | Some b, Some a =>
        setDiffs
          (<["performance" := (Audit.performance (Audit.scores a)
                               - Audit.performance (Audit.scores b))%Z]>
          (<["accessibility" := (Audit.accessibility (Audit.scores a)
                                 - Audit.accessibility (Audit.scores b))%Z]>
          (<["bestPractices" := (Audit.bestPractices (Audit.scores a)
                                 - Audit.bestPractices (Audit.scores b))%Z]>
          (<["seo" := (Audit.seo (Audit.scores a) - Audit.seo (Audit.scores b))%Z]> ∅))))
          report
    | _, _ => report
    end) ;;;
  modifyL (validateScores config) ;;;
  commitChanges workDir config ;;;
  (if preferPr config
   then u <- createPullRequest workDir config ;; modifyL (setPrUrl u)
   else ret tt) ;;;
  modifyL (setSuccess true) ;;;
  liftW (log "✅ Pipeline d'optimisation terminé avec succès").

Definition runOptimizationPipeline (config : OptimizationConfig) : M World OptimizationReport :=
  log "🚀 Démarrage du pipeline d'optimisation..." ;;;
  out <- withLocal (initialReport config)
    (tryCatch (pipelineSteps config)
       (fun message =>
          liftW (log ("❌ Erreur lors du pipeline: " +:+ message)) ;;;
          modifyL (pushError message) ;;;
          modifyL (setSuccess false))) ;;
  ret (snd out).

End WithHost.
End Optimizer.

(* ===================================================================== *)
(** ** Vocabulary of the statements *)
(* ===================================================================== *)

Module Spec.
Import Js Sys.

(** [m] run from [s] ends in a result and a state that satisfy [Q]. *)
Definition post {S A : Type} (m : M S A) (s : S) (Q : result A -> S -> Prop) : Prop :=
  Q (fst (m s)) (snd (m s)).

(** [m] never throws. *)
Definition total {S A : Type} (m : M S A) : Prop :=
  forall s, exists a s', m s = (Ok a, s').

(** Every run of [m] relates the state it starts from to the one it ends in. *)
Definition keeps {S A : Type} (R : S -> S -> Prop) (m : M S A) : Prop :=
  forall s, R s (snd (m s)).

(** [w'] is [w] after more subprocesses, each of which satisfies [P]. *)
Definition grows (P : ExecRecord -> Prop) (w w' : World) : Prop :=
  exists extra, commands w' = (commands w ++ extra)%list /\ Forall P extra.

(** The same, next to a local object. *)
Definition growsL {L : Type} (P : ExecRecord -> Prop) (s s' : L * World) : Prop :=
  grows P (snd s) (snd s').

(** The command lines of the subprocesses started so far. *)
Definition commandLines (w : World) : list string := List.map cmd (commands w).

(** A string occurs in some line. *)
Definition mentions (needle : string) (lines : list string) : bool :=
  existsb (fun line => includes line needle) lines.

(** The external page-quality scorer is down: every invocation of it fails
    (non-zero exit or kill on timeout). *)
Definition auditToolDown (h : Host) : Prop :=
  forall t command dir f,
    startsWith command "npx lighthouse " = true ->
    exists stderr f', exec h t command dir f = (ExecFail stderr, f').

(** *** Outcome of one patch sub-step *)

(** The descriptions the performance sub-steps record as skipped. *)
Definition perfSkippedMsgs : list string :=
  [ "next.config.js - fichier non trouvé";
    "next.config.js - déjà optimisé";
    "Images - aucun fichier à optimiser";
    "Fonts - aucun @font-face trouvé";
    "Cache headers - middleware existe déjà";
    "Bundle - package.json non trouvé";
    "Bundle - script analyze existe déjà";
    "Code splitting - analyse manuelle requise";
    "Tailwind - purge déjà configuré";
    "CSS Purge - Tailwind non détecté" ].

(** The descriptions the SEO sub-steps record as skipped. *)
Definition seoSkippedMsgs : list string :=
  [ "Meta tags - layout.tsx non trouvé";
    "Meta tags - metadata déjà défini";
    "sitemap.xml - sitemap.ts existe déjà";
    "Schema.org - composant existe déjà";
    "Canonical URLs - aucune page à modifier" ].

(** [r'] is [r] with exactly one more entry, in exactly one of the three
    lists; an applied entry is none of the skipped descriptions and a
    skipped entry is one of them. *)
Inductive perfOneMore (r r' : Perf.PerfOptimizationResult) : Prop :=
| perf_more_applied (msg : string) :
    ~ In msg perfSkippedMsgs ->
    Perf.applied r' = (Perf.applied r ++ [msg])%list ->
    Perf.skipped r' = Perf.skipped r -> Perf.errors r' = Perf.errors r ->
    perfOneMore r r'
| perf_more_skipped (msg : string) :
    In msg perfSkippedMsgs ->
    Perf.applied r' = Perf.applied r ->
    Perf.skipped r' = (Perf.skipped r ++ [msg])%list -> Perf.errors r' = Perf.errors r ->
    perfOneMore r r'
| perf_more_error (msg : string) :
    Perf.applied r' = Perf.applied r ->
    Perf.skipped r' = Perf.skipped r -> Perf.errors r' = (Perf.errors r ++ [msg])%list ->
    perfOneMore r r'.

Inductive seoOneMore (r r' : Seo.SeoOptimizationResult) : Prop :=
| seo_more_applied (msg : string) :
    ~ In msg seoSkippedMsgs ->
    Seo.applied r' = (Seo.applied r ++ [msg])%list ->
    Seo.skipped r' = Seo.skipped r -> Seo.errors r' = Seo.errors r ->
    seoOneMore r r'
| seo_more_skipped (msg : string) :
    In msg seoSkippedMsgs ->
    Seo.applied r' = Seo.applied r ->
    Seo.skipped r' = (Seo.skipped r ++ [msg])%list -> Seo.errors r' = Seo.errors r ->
    seoOneMore r r'
| seo_more_error (msg : string) :
    Seo.applied r' = Seo.applied r ->
    Seo.skipped r' = Seo.skipped r -> Seo.errors r' = (Seo.errors r ++ [msg])%list ->
    seoOneMore r r'.

(** A sub-step, whatever the tree it runs on, returns normally having
    recorded exactly one entry. *)
Definition perfSubStep (step : M (Perf.PerfOptimizationResult * World) unit) : Prop :=
  forall r w, exists r' w', step (r, w) = (Ok tt, (r', w')) /\ perfOneMore r r'.

Definition seoSubStep (step : M (Seo.SeoOptimizationResult * World) unit) : Prop :=
  forall r w, exists r' w', step (r, w) = (Ok tt, (r', w')) /\ seoOneMore r r'.

(** [n] entries in all, every applied one outside the skipped descriptions
    and every skipped one among them. *)
Definition perfTally (n : nat) (r : Perf.PerfOptimizationResult) : Prop :=
  (length (Perf.applied r) + length (Perf.skipped r) + length (Perf.errors r) = n)%nat /\
  Forall (fun msg => ~ In msg perfSkippedMsgs) (Perf.applied r) /\
  Forall (fun msg => In msg perfSkippedMsgs) (Perf.skipped r).

Definition seoTally (n : nat) (r : Seo.SeoOptimizationResult) : Prop :=
  (length (Seo.applied r) + length (Seo.skipped r) + length (Seo.errors r) = n)%nat /\
  Forall (fun msg => ~ In msg seoSkippedMsgs) (Seo.applied r) /\
  Forall (fun msg => In msg seoSkippedMsgs) (Seo.skipped r).

(** The character at position [n] is a decimal digit. *)
Fixpoint digitAt (n : nat) (s : string) : bool :=
  match s with
  | EmptyString => false
  | String c s' =>
      match n with
      | O => (48 <=? nat_of_ascii c)%nat && (nat_of_ascii c <=? 57)%nat
      | S n' => digitAt n' s'
      end
  end.

(** A read of [p] is not refused. *)
Definition readable (f : FS) (p : string) : bool := negb (bool_decide (p ∈ unreadable f)).

(** *** Failures of the pipeline's stages, read off the subprocess trace *)

Definition isClone (r : ExecRecord) : bool := startsWith (cmd r) "git clone ".
Definition isSecureCopy (r : ExecRecord) : bool := startsWith (cmd r) "scp ".
Definition isBuild (r : ExecRecord) : bool := String.eqb (cmd r) "npm run build".

(** A failed subprocess of a stage whose failure aborts the run: the
    source fetch (clone or secure copy) or the build. *)
Definition fatalFailure (r : ExecRecord) : bool :=
  negb (succeeded r) && (isClone r || isSecureCopy r || isBuild r).

Definition supportedType (c : Connection.Connection) : bool :=
  String.eqb (Connection.type c) "git" || String.eqb (Connection.type c) "ssh"
  || String.eqb (Connection.type c) "sftp".

Definition nonFatal (r : ExecRecord) : Prop := fatalFailure r = false.

(** No subprocess at all. *)
Definition noCommand (r : ExecRecord) : Prop := False.

(** With the scorer down, the snapshot carries the all-zero score. *)
Definition zeroWhenDown (h : Host) (x : Audit.LighthouseResult) : Prop :=
  auditToolDown h -> Audit.scores x = Audit.zeroScores.

(** Two reports that differ at most in their warnings. *)
Definition sameButWarnings (r r' : Optimizer.OptimizationReport) : Prop :=
  Optimizer.success r' = Optimizer.success r /\
  Optimizer.workDir r' = Optimizer.workDir r /\
  Optimizer.branch r' = Optimizer.branch r /\
  Optimizer.prUrl r' = Optimizer.prUrl r /\
  Optimizer.lighthouse r' = Optimizer.lighthouse r /\
  Optimizer.bundles r' = Optimizer.bundles r /\
  Optimizer.perf r' = Optimizer.perf r /\
  Optimizer.seo r' = Optimizer.seo r /\
  Optimizer.diffs r' = Optimizer.diffs r /\
  Optimizer.errors r' = Optimizer.errors r.

(** A stage that works on the report: it may add warnings, and starts only
    subprocesses that satisfy [P]. *)
Definition warnsOnly (P : ExecRecord -> Prop)
    (s s' : Optimizer.OptimizationReport * World) : Prop :=
  sameButWarnings (fst s) (fst s') /\ grows P (snd s) (snd s').

(** The world once the start of the run has been announced on the console. *)
Definition announced (w : World) : World :=
  snd (log "🚀 Démarrage du pipeline d'optimisation..." w).

(** The [catch] block of [runOptimizationPipeline]. *)
Definition onAbort (message : string) : M (Optimizer.OptimizationReport * World) unit :=
  liftW (log ("❌ Erreur lors du pipeline: " +:+ message)) ;;;
  modifyL (Optimizer.pushError message) ;;;
  modifyL (Optimizer.setSuccess false).

Definition noSnapshots : Optimizer.LighthouseSnapshots :=
  {| Optimizer.before := None; Optimizer.after := None; Optimizer.mobile := None |}.

(** The four ways a run of the pipeline ends, with what the report and the
    subprocesses started during the run ([extra]) then look like. *)
Inductive Outcome (h : Host) (config : Optimizer.OptimizationConfig)
    (report : Optimizer.OptimizationReport) (extra : list ExecRecord) : Prop :=
| completed (b a m : Audit.LighthouseResult) :
    Optimizer.success report = true ->
    Optimizer.errors report = [] ->
    Optimizer.workDir report <> "" ->
    supportedType (Optimizer.connectionData config) = true ->
    existsb fatalFailure extra = false ->
    Optimizer.lighthouse report =
      {| Optimizer.before := Some b; Optimizer.after := Some a; Optimizer.mobile := Some m |} ->
    Optimizer.diffs report = Audit.compareAudits b a ->
    zeroWhenDown h b -> zeroWhenDown h a -> zeroWhenDown h m ->
    Outcome h config report extra
| aborted_at_workdir (e : string) :
    Optimizer.success report = false ->
    Optimizer.errors report = [e] ->
    Optimizer.workDir report = "" ->
    extra = [] ->
    Optimizer.lighthouse report = noSnapshots ->
    Optimizer.diffs report = ∅ ->
    Outcome h config report extra
| aborted_at_fetch (e : string) :
    Optimizer.success report = false ->
    Optimizer.errors report = [e] ->
    Optimizer.workDir report <> "" ->
    (supportedType (Optimizer.connectionData config) = false /\ extra = []
     \/ exists rec, extra = [rec] /\ succeeded rec = false /\
                    isClone rec || isSecureCopy rec = true) ->
    Optimizer.lighthouse report = noSnapshots ->
    Optimizer.diffs report = ∅ ->
    Outcome h config report extra
| aborted_at_build (e : string) (b : Audit.LighthouseResult)
    (earlier : list ExecRecord) (rec : ExecRecord) :
    Optimizer.success report = false ->
    Optimizer.errors report = [e; e] ->
    Optimizer.workDir report <> "" ->
    supportedType (Optimizer.connectionData config) = true ->
    extra = (earlier ++ [rec])%list ->
    existsb fatalFailure earlier = false ->
    succeeded rec = false -> isBuild rec = true ->
    Optimizer.lighthouse report =
      {| Optimizer.before := Some b; Optimizer.after := None; Optimizer.mobile := None |} ->
    Optimizer.diffs report = ∅ ->
    zeroWhenDown h b ->
    Outcome h config report extra.






End Spec.

(* ===================================================================== *)
(** ** Concrete environments and runs *)
(* ===================================================================== *)

Module Scenario.
Import Js Sys.

(** The text after the first occurrence of [marker] in [s]. *)
Fixpoint after (marker s : string) : string :=
  if startsWith s marker then drop (String.length marker) s
  else match s with
       | EmptyString => EmptyString
       | String _ s' => after marker s'
       end.

Definition lighthouseJson : json :=
  JObj [ ("categories",
          JObj [ ("performance", JObj [("score", JNum 9 (-1))]);
                 ("accessibility", JObj [("score", JNum 85 (-2))]);
                 ("best-practices", JObj [("score", JNum 1 0)]);
                 ("seo", JObj [("score", JNum 8 (-1))]) ]);
         ("audits", JObj []) ].

Definition writeTo (f : FS) (p content : string) : FS :=
  {| files := <[p := content]> (files f); dirs := dirs f;
     unreadable := unreadable f; unwritable := unwritable f |}.

(** A machine on which the commands for which [failing] holds exit with an
    error and every other command succeeds; the scorer leaves its report
    where [--output-path] says, a clone delivers an empty repository.  It
    reads a text as a positive number when the text is a decimal numeral
    that is not zero. *)
Definition machine (failing : string -> bool) : Host :=
  {| exec := fun _ command _ f =>
       if failing command then (ExecFail "exit status 1", f)
       else if startsWith command "npx lighthouse "
       then (ExecOk "", writeTo f (splitHead (ascii_of_nat 34)
                                     (after ("--output-path=" +:+ dq) command)) "lighthouse")
       else if startsWith command "gh pr create"
       then (ExecOk "https://git.example.org/acme/site/pull/7
", f)
       else (ExecOk "", f);
     dateNow := fun t => (1700000000000 + Z.of_nat t)%Z;
     toISOString := fun _ => "2023-11-14T22:13:20.000Z";
     tmpdir := "/tmp";
     processCwd := "/srv/app";
     JSON_parse := fun text =>
       if String.eqb text "lighthouse" then Some lighthouseJson else None;
     JSON_stringify := fun _ => "{}";
     regexReplace := fun _ _ subject => subject;
     regexTest := fun _ _ => false;
     regexMatchCount := fun _ _ => 0%nat;
     roundTimes100 := fun x =>
       match x with
       | JNum m e => (m * 10 ^ (e + 2))%Z
       | _ => 0%Z
       end;
     showNumber := fun x => match x with JNum m _ => showZ m | _ => "NaN" end;
     percentOf := fun a b => JNum (100 * a / b) 0;
     formatNonZeroBytes := fun b => showZ b +:+ ".00 B";
     textPositive := fun text =>
       negb (String.eqb text "")
       && forallb (fun c => (48 <=? nat_of_ascii c)%nat && (nat_of_ascii c <=? 57)%nat)
                  (list_ascii_of_string text)
       && existsb (fun c => negb (Ascii.eqb c "0")) (list_ascii_of_string text) |}.

Definition emptyFs : FS :=
  {| files := ∅; dirs := ∅; unreadable := ∅; unwritable := ∅ |}.

Definition freshWorld : World :=
  {| fs := emptyFs; clock := 0; console := []; commands := [] |}.

Definition gitConnection (repoUrl : string) : Connection.Connection :=
  {| Connection.type := "git"; Connection.label := Some "site";
     Connection.host := None; Connection.port := None; Connection.username := None;
     Connection.authMethod := None; Connection.password := None;
     Connection.privateKey := None; Connection.passphrase := None;
     Connection.repoUrl := Some repoUrl; Connection.branch := Some "main";
     Connection.remotePath := None |}.

Definition configFor (c : Connection.Connection) : Optimizer.OptimizationConfig :=
  {| Optimizer.connectionId := "conn_1";
     Optimizer.connectionData := c;
     Optimizer.siteUrl := "https://www.example.org";
     Optimizer.lighthouseMinScores :=
       {| Optimizer.minPerformance := 0; Optimizer.minSeo := 0;
          Optimizer.minAccessibility := 0; Optimizer.minBestPractices := 0 |};
     Optimizer.optimizeBranch := "chore/optimize-auto";
     Optimizer.preferPr := false;
     Optimizer.constraints := None;
     Optimizer.allowedHosts := ["localhost"] |}.

(** Everything works. *)
Definition allGood : Host := machine (fun _ => false).

(** [String.prototype.toLowerCase] at a capital sigma: alone it lowers to
    the small sigma, after a letter at the end of a word to the final
    form.  Elsewhere this function is not consulted by the examples. *)
Definition finalSigma (s : string) : string :=
  if String.eqb s "Σ" then "σ"
  else if String.eqb s "x.Σ" then "x.ς"
  else s.

(** Only the linter fails. *)
Definition lintFails : Host := machine (fun c => String.eqb c "npm run lint -- --fix").

(** The remote cannot be reached: the clone fails. *)
Definition unreachable : Host := machine (fun c => startsWith c "git clone ").

(** The scorer fails whenever it is started. *)
Definition scorerDown : Host := machine (fun c => startsWith c "npx lighthouse ").

(** A repository on a host outside the allow-list [["localhost"]]. *)
Definition foreignRepo : Optimizer.OptimizationConfig :=
  configFor (gitConnection "https://git.example.org/acme/site.git").

(** A repository URL that carries an access token. *)
Definition tokenRepo : Optimizer.OptimizationConfig :=
  configFor (gitConnection "https://ghp_s3cr3tT0k3n@github.com/acme/site.git").

(** A working tree with one source file that cannot be read. *)
Definition lockedTree : World :=
  {| fs := {| files := {[ "/w/app/page.tsx" := "export default function Page() {}" ]};
              dirs := {[ "/w" ]}; unreadable := {[ "/w/app/page.tsx" ]}; unwritable := ∅ |};
     clock := 0; console := []; commands := [] |}.

(** A working tree with a manifest and two lockfiles. *)
Definition pnpmAndYarnTree : World :=
  {| fs := {| files := {[ "/w/package.json" := "{}" ]} ∪ {[ "/w/pnpm-lock.yaml" := "" ]}
                       ∪ {[ "/w/yarn.lock" := "" ]};
              dirs := {[ "/w" ]}; unreadable := ∅; unwritable := ∅ |};
     clock := 0; console := []; commands := [] |}.

(** A store with no file on disk and nothing in memory, all disk
    operations going through. *)
Definition emptyStore : Store.State :=
  {| Store.file := Store.NoFile; Store.tmpFile := None; Store.readOk := true;
     Store.mkdirOk := true; Store.writeOk := true; Store.renameOk := true;
     Store.memoryStore := None; Store.saved := [] |}.

Definition someConnection (id : string) : Store.StoredConnection :=
  {| Store.id := id;
     Store.encrypted := {| Store.salt := "c2FsdA=="; Store.iv := "aXY="; Store.ct := "Y3Q=";
                           Store.v := 1 |};
     Store.createdAt := "2023-11-14T22:13:20.000Z";
     Store.updatedAt := "2023-11-14T22:13:20.000Z" |}.

(** A store file on disk holding the connections [conn_1] and [conn_2]. *)
Definition twoOnDisk : Store.State :=
  {| Store.file := Store.Parsed
       {| Store.connections := <["conn_1" := someConnection "conn_1"]>
                                (<["conn_2" := someConnection "conn_2"]> ∅);
          Store.version := 1 |};
     Store.tmpFile := None; Store.readOk := true;
     Store.mkdirOk := true; Store.writeOk := true; Store.renameOk := true;
     Store.memoryStore := None; Store.saved := [] |}.

End Scenario.

(* ===================================================================== *)
(** ** lib/store.ts: the other operations *)
(* ===================================================================== *)

Module StoreOps.
Import Js Store Sys.

(** What [store.connections[id]] evaluates to: the entry of that name, a
    member every object inherits from [Object.prototype] (a function or an
    object), or [undefined]. *)
Inductive Lookup :=
| Own (connection : StoredConnection)
| Inherited
| Undefined.

Definition lookup (obj : gmap string StoredConnection) (key : string) : Lookup :=
  match obj !! key with
  | Some c => Own c
  | None => if existsb (String.eqb key) objectPrototypeKeys then Inherited else Undefined
  end.

(** [obj[key] = c] on a plain object.  Under the name [__proto__] the
    assignment goes to the accessor every object inherits and replaces the
    prototype: no entry is added (the new prototype itself is not kept
    here; it is not written by [JSON.stringify]). *)
Definition assign (obj : gmap string StoredConnection) (key : string) (c : StoredConnection)
  : gmap string StoredConnection :=
  if String.eqb key "__proto__" then obj else <[key := c]> obj.

(** [store.connections[id] || null]; [Undefined] stands for [null]. *)
Definition getConnection (id : string) (st : State) : Lookup :=
  lookup (connections (loadStore st)) id.

(** [now] is the value of [new Date().toISOString()] at the call. *)
Definition upsertConnection (now : string) (id : string) (encrypted : EncryptedData)
    (st : State) : StoredConnection * State :=
  let store := loadStore st in
  let existing := lookup (connections store) id in
  let connection :=
    {| Store.id := id;
       Store.encrypted := encrypted;
       createdAt := orElse (match existing with
                            | Own c => Some (createdAt c)
                            | _ => None
                            end) now;
       updatedAt := now |} in
  let store := {| connections := assign (connections store) id connection;
                  version := version store |} in
  (connection, saveStore store st).

Definition exportStore (st : State) : ConnectionStore := loadStore st.

Definition importStore (store : ConnectionStore) (st : State) : result unit * State :=
  if negb (Z.eqb (version store) STORE_VERSION)
  then (Throw "Version du store incompatible", st)
  else (Ok tt, saveStore store st).

Section Dates.

(** The time value of [new Date(text)], [None] for an invalid date. *)
Variable parseDate : string -> option Z.
(** The time value of [new Date()] after [setDate(getDate() - daysOld)],
    [None] for an invalid date. *)
Variable cutoffDate : Z -> option Z.

(** [updatedAt < cutoffDate]: false as soon as one side is not a date. *)
Definition isOld (cutoff : option Z) (conn : StoredConnection) : bool :=
  match parseDate (updatedAt conn), cutoff with
  | Some t, Some c => (t <? c)%Z
  | _, _ => false
  end.

(** One turn of the loop over [Object.entries(store.connections)], on the
    dictionary and [deletedCount]. *)
Definition pruneStep (cutoff : option Z) (acc : gmap string StoredConnection * nat)
    (entry : string * StoredConnection) : gmap string StoredConnection * nat :=
  if isOld cutoff (snd entry)
  then (delete (fst entry) (fst acc), S (snd acc))
  else acc.

Definition pruneOldConnections (daysOld : Z) (st : State) : nat * State :=
  let store := loadStore st in
  let cutoff := cutoffDate daysOld in
  let '(remaining, deletedCount) :=
    fold_left (pruneStep cutoff) (map_to_list (connections store))
      (connections store, 0%nat) in
  if (0 <? deletedCount)%nat
  then (deletedCount,
        saveStore {| connections := remaining; version := version store |} st)
  else (deletedCount, st).

End Dates.

(** What is saved is what the next [loadStore] returns: the write reaches
    the disk, or the file cannot be read back (missing, unreadable, not
    JSON) and the copy in memory is used. *)
Definition readsBack (st : State) : bool :=
  (mkdirOk st && writeOk st && renameOk st)
  || negb (readOk st)
  || match file st with Parsed _ => false | _ => true end.

End StoreOps.


(* ===================================================================== *)
(** ** lib/crypto.ts: the Base64 helpers *)
(* ===================================================================== *)

Module Encoding.
Import Js Sys.

(** A binary string: one character per code unit below 256. *)
Definition charCodeAt (c : ascii) : N := N_of_ascii c.
Definition fromCharCode (n : N) : ascii := ascii_of_N n.

Definition alphabet : string :=
  "ABCDEFGHIJKLMNOPQRSTUVWXYZabcdefghijklmnopqrstuvwxyz0123456789+/".

(** The character that stands for a six-bit value, and back. *)
Definition sextetChar (n : N) : ascii :=
  match String.get (N.to_nat n) alphabet with
  | Some c => c
  | None => "A"%char
  end.

Fixpoint indexOf (c : ascii) (s : string) : option N :=
  match s with
  | EmptyString => None
  | String d s' => if Ascii.eqb c d then Some 0%N else option_map N.succ (indexOf c s')
  end.

Definition charSextet (c : ascii) : option N := indexOf c alphabet.

(** [btoa]: three bytes make four characters; one or two bytes left over
    make two or three, padded with [=] to four. *)
Fixpoint btoa (binary : string) : string :=
  match binary with
  | EmptyString => EmptyString
  | String a EmptyString =>
      let n := (charCodeAt a * 16)%N in
      String (sextetChar (n / 64)) (String (sextetChar (n mod 64)) "==")
  | String a (String b EmptyString) =>
      let n := (charCodeAt a * 1024 + charCodeAt b * 4)%N in
      String (sextetChar (n / 4096)) (String (sextetChar ((n / 64) mod 64))
        (String (sextetChar (n mod 64)) "="))
  | String a (String b (String c rest)) =>
      let n := (charCodeAt a * 65536 + charCodeAt b * 256 + charCodeAt c)%N in
      String (sextetChar (n / 262144)) (String (sextetChar ((n / 4096) mod 64))
        (String (sextetChar ((n / 64) mod 64)) (String (sextetChar (n mod 64)) (btoa rest))))
  end.

(** [atob], the forgiving decoder: ASCII white space is dropped, then one
    or two [=] at the end of a text whose length is a multiple of four. *)
Definition isAsciiWhitespace (c : ascii) : bool :=
  let n := charCodeAt c in
  ((n =? 9) || (n =? 10) || (n =? 12) || (n =? 13) || (n =? 32))%N.

Fixpoint removeWhitespace (s : string) : string :=
  match s with
  | EmptyString => EmptyString
  | String c s' => if isAsciiWhitespace c then removeWhitespace s'
                   else String c (removeWhitespace s')
  end.

Fixpoint dropPadding (s : string) : string :=
  match s with
  | EmptyString => EmptyString
  | String c s' =>
      if Ascii.eqb c "=" && (String.eqb s' "" || String.eqb s' "=") then EmptyString
      else String c (dropPadding s')
  end.

Fixpoint sextets (s : string) : option (list N) :=
  match s with
  | EmptyString => Some []
  | String c s' =>
      match charSextet c, sextets s' with
      | Some n, Some l => Some (n :: l)
      | _, _ => None
      end
  end.

(** Four six-bit values make three bytes; of two or three left over, the
    last bits are discarded. *)
Fixpoint bytesOf (l : list N) : string :=
  match l with
  | s1 :: s2 :: s3 :: s4 :: rest =>
      let n := (((s1 * 64 + s2) * 64 + s3) * 64 + s4)%N in
      String (fromCharCode (n / 65536)) (String (fromCharCode ((n / 256) mod 256))
        (String (fromCharCode (n mod 256)) (bytesOf rest)))
  | [s1; s2; s3] =>
      let n := (((s1 * 64 + s2) * 64 + s3) / 4)%N in
      String (fromCharCode (n / 256)) (String (fromCharCode (n mod 256)) EmptyString)
  | [s1; s2] => String (fromCharCode ((s1 * 64 + s2) / 16)) EmptyString
  | _ => EmptyString
  end.

Definition atob (data : string) : result string :=
  let data := removeWhitespace data in
  let data := if (String.length data mod 4 =? 0)%nat then dropPadding data else data in
  if (String.length data mod 4 =? 1)%nat
  then Throw "The string to be decoded is not correctly encoded."
  else match sextets data with
       | None => Throw "The string to be decoded is not correctly encoded."
       | Some l => Ok (bytesOf l)
       end.

(** The two helpers of the module; a [Uint8Array] is a list of bytes. *)
Definition arrayBufferToBase64 (bytes : list Byte.byte) : string :=
  let binary :=
    fold_left (fun binary b => binary +:+ String (ascii_of_byte b) EmptyString)
      bytes EmptyString in
  btoa binary.

Definition base64ToArrayBuffer (base64 : string) : result (list Byte.byte) :=
  match atob base64 with
  | Ok binary =>
      Ok (List.map byte_of_ascii (list_ascii_of_string binary))
  | Throw e => Throw e
  end.

End Encoding.

(* ===================================================================== *)
(** ** app/api/connections/[id]/test/route.ts *)
(* ===================================================================== *)

Module TestRoute.
Import Js Sys Store StoreOps Crypto.

(** [NextResponse.json(body, { status })]; the status is 200 when none is
    given. *)
Record Response := {
  status : Z;
  body : json;
}.

(** The first match of [/git@([^:]+):/] in [url], as [match[1]]: at the
    leftmost [git@] that is followed by at least one character other than
    a colon and then by a colon. *)
Fixpoint matchGitAt (url : string) : option string :=
  match url with
  | EmptyString => None
  | String _ rest =>
      let run := splitHead ":" (drop 4 url) in
      if startsWith url "git@"
         && negb (String.eqb run "")
         && startsWith (drop (4 + String.length run) url) ":"
      then Some run
      else matchGitAt rest
  end.

(** An object literal as it is serialised: a property whose value is
    [undefined] is left out. *)
Definition object (fields : list (string * option json)) : json :=
  JObj (flat_map (fun field => match snd field with
                               | Some x => [(fst field, x)]
                               | None => []
                               end) fields).

(** [a || b] *)
Definition orJson (a : option json) (b : json) : json :=
  if truthy a then default JNull a else b.

(** What the handler does around the store: the lines written with
    [console.error], and the network the connection tests talk to. *)
Record Env (Net : Type) := {
  console : list string;
  net : Net;
}.
Arguments console {Net} _.
Arguments net {Net} _.

Section WithEnvironment.

(** [String.prototype.toLowerCase] outside ASCII. *)
Variable caseTables : string -> string.
(** [(process.env.ALLOWED_HOSTS || 'localhost').split(',')] *)
Variable ALLOWED_HOSTS : list string.
(** [new URL(url).hostname]; [None] when the constructor throws. *)
Variable urlHostname : string -> option string.
(** The text of a value in a template literal, and of an error passed to
    [console.error]. *)
Variable templateText : option json -> string.
Variable Net : Type.
(** [testGitConnection], which queries the hosting service. *)
Variable testGitConnection : json -> Net -> result json * Net.

Definition extractHostFromUrl (url : option json) : string :=
  if negb (truthy url) then ""
  else match url with
       | Some (JStr text) =>
           if startsWith text "git@" then default "" (matchGitAt text)
           else default "" (urlHostname text)
       | _ => ""
       end.

(** [const { decryptedData } = body] *)
Definition destructure (body : json) (k : string) : M (Env Net) (option json) :=
  match body with
  | JNull => throw ("Cannot destructure property '" +:+ k +:+ "' of 'body' as it is null.")
  | JObj fields => ret (assoc k fields)
  | _ => ret None
  end.

(** [isHostAllowed(host, ALLOWED_HOSTS)] on a value that need not be a
    string. *)
Definition checkHost (host : json) : M (Env Net) bool :=
  match host with
  | JStr text => ret (isHostAllowed caseTables text ALLOWED_HOSTS)
  | _ => throw "host.toLowerCase is not a function"
  end.

Definition logError (line : string) : M (Env Net) unit :=
  fun env => (Ok tt, {| console := console env ++ [line]; net := net env |}).

Definition callGitTest (data : json) : M (Env Net) json :=
  fun env => let '(r, n) := testGitConnection data (net env) in
             (r, {| console := console env; net := n |}).

Definition failure (code : Z) (message : string) : Response :=
  {| status := code; body := JObj [("ok", JBool false); ("error", JStr message)] |}.

(** [id] is [params.id], [requestBody] the outcome of [request.json()],
    [st] the state of the connection store. *)
Definition POST (id : string) (requestBody : result json) (st : State) : M (Env Net) Response :=
  tryCatch
    (body <- (fun env => (requestBody, env)) ;;
     match getConnection id st with
     | Undefined => ret (failure 404 "Connexion non trouvée")
     | _ =>
         decryptedData <- destructure body "decryptedData" ;;
         if negb (truthy decryptedData)
         then ret (failure 400 "Données déchiffrées manquantes")
         else
           let host := orJson (getOpt decryptedData "host")
                              (JStr (extractHostFromUrl (getOpt decryptedData "repoUrl"))) in
           allowed <- checkHost host ;;
           if negb allowed
           then ret (failure 403 ("Host non autorisé: "
                                  +:+ match host with
                                      | JStr text => text
                                      | _ => templateText (Some host)
                                      end))
           else
             match getOpt decryptedData "type" with
             | Some (JStr "git") =>
                 result <- callGitTest (default JNull decryptedData) ;;
                 ret {| status := 200; body := result |}
             | Some (JStr "ssh") | Some (JStr "sftp") =>
                 ret {| status := 200;
                        body := object
                          [ ("ok", Some (JBool true));
                            ("type", getOpt decryptedData "type");
                            ("details", Some (object
                               [ ("message", Some (JStr
                                    "Test SSH/SFTP non disponible sur Vercel (modules natifs requis)"));
                                 ("note", Some (JStr
                                    "La connexion sera utilisée pour l'optimisation mais ne peut être testée ici"));
                                 ("host", getOpt decryptedData "host");
                                 ("port", Some (orJson (getOpt decryptedData "port") (JNum 22 0)));
                                 ("username", getOpt decryptedData "username") ])) ] |}
             | other =>
                 ret (failure 400 ("Type de connexion non supporté: " +:+ templateText other))
             end
     end)
    (fun message =>
       logError ("Erreur POST /api/connections/:id/test: " +:+ message) ;;;
       ret (failure 500 (orElse (Some message) "Erreur lors du test de connexion"))).

End WithEnvironment.
End TestRoute.

(* ===================================================================== *)
(** ** lib/optimizer/audit.ts: the audit report *)
(* ===================================================================== *)

Module AuditReports.
Import Js Sys.

Record Snapshots := {
  before : option Audit.LighthouseResult;
  after : option Audit.LighthouseResult;
  mobile : option Audit.LighthouseResult;
  desktop : option Audit.LighthouseResult;
}.

Record AuditReport := {
  lighthouse : Snapshots;
  bundles : option Audit.BundleAnalysis;
  timestamp : string;
}.

(** [if (url)] on an optional string: [undefined] and the empty string are
    falsy. *)
Definition given (url : option string) : bool :=
  match url with
  | Some text => negb (String.eqb text "")
  | None => false
  end.

Section WithHost.
Variable h : Host.

Definition generateAuditReport (beforeUrl afterUrl : option string) : M World AuditReport :=
  now <- isoNow h ;;
  before <- (if given beforeUrl
             then x <- Audit.runLighthouse h (default "" beforeUrl) Audit.desktop ;; ret (Some x)
             else ret None) ;;
  afterAndMobile <-
    (if given afterUrl
     then a <- Audit.runLighthouse h (default "" afterUrl) Audit.desktop ;;
          m <- Audit.runLighthouse h (default "" afterUrl) Audit.mobile ;;
          ret (Some a, Some m)
     else ret (None, None)) ;;
  ret {| lighthouse := {| before := before; after := fst afterAndMobile;
                          mobile := snd afterAndMobile; desktop := None |};
         bundles := None;
         timestamp := now |}.

End WithHost.
End AuditReports.

(* ===================================================================== *)
(** ** More vocabulary *)
(* ===================================================================== *)

Module Traces.
Import Js Sys.

Definition prettierCommand : string :=
  "npx prettier --write " +:+ dq +:+ "**/*.{ts,tsx,js,jsx,json,css,md}" +:+ dq.

(** The subprocesses a run may start up to the build: the fetch and the
    audit, which are given no directory, and in the working directory [d]
    the branch creation, one of the installers and the three quality
    tools. *)
Definition beforeBuild (config : Optimizer.OptimizationConfig) (d : string)
    (rec : ExecRecord) : bool :=
  match cwd rec with
  | None =>
      startsWith (cmd rec) "git clone --depth 1 --branch "
      || startsWith (cmd rec) "scp -r "
      || startsWith (cmd rec) "npx lighthouse "
  | Some dir =>
      String.eqb dir d
      && (String.eqb (cmd rec) ("git checkout -b " +:+ Optimizer.optimizeBranch config)
          || existsb (String.eqb (cmd rec))
               [ "pnpm install"; "yarn install"; "npm install";
                 "npm run lint -- --fix"; prettierCommand; "npm audit --json" ])
  end.

(** The subprocesses a run may start once the build has succeeded: the
    audits, and in the working directory the three git commands and, when
    a change request is preferred, its creation. *)
Definition afterBuild (config : Optimizer.OptimizationConfig) (d : string)
    (rec : ExecRecord) : bool :=
  match cwd rec with
  | None => startsWith (cmd rec) "npx lighthouse "
  | Some dir =>
      String.eqb dir d
      && (String.eqb (cmd rec) "git add ."
          || startsWith (cmd rec) "git commit -m "
          || String.eqb (cmd rec) ("git push -u origin " +:+ Optimizer.optimizeBranch config)
          || (Optimizer.preferPr config && startsWith (cmd rec) "gh pr create --title "))
  end.

(** The build command, run in [d]. *)
Definition buildIn (d : string) (rec : ExecRecord) : bool :=
  String.eqb (cmd rec) "npm run build"
  && match cwd rec with Some dir => String.eqb dir d | None => false end.

(** A command line that begins as one of the commands that record or
    publish the changes. *)
Definition publishes (rec : ExecRecord) : bool :=
  startsWith (cmd rec) "git add" || startsWith (cmd rec) "git commit"
  || startsWith (cmd rec) "git push" || startsWith (cmd rec) "gh ".

(** *** How the shell reads a command line *)

(** Every character of a string satisfies [P]. *)
Fixpoint every (P : ascii -> bool) (s : string) : bool :=
  match s with
  | EmptyString => true
  | String c s' => P c && every P s'
  end.

(** The characters the shell expands even between double quotes. *)
Definition expands (c : ascii) : bool :=
  existsb (Ascii.eqb c) ["$"; "`"; "\"]%char.

(** The characters that, outside quotes, end a command, start another one,
    redirect, group or quote. *)
Definition separates (c : ascii) : bool :=
  existsb (Ascii.eqb c) [";"; "&"; "|"; "<"; ">"; "("; ")"; "'"; ascii_of_nat 10]%char.

(** How reading [text] leaves the shell, started between double quotes
    ([quoted]) or outside them: between quotes or not, or [None] when the
    text has a character that expands, or outside quotes one that
    separates. *)
Fixpoint reads (quoted : bool) (text : string) : option bool :=
  match text with
  | EmptyString => Some quoted
  | String c rest =>
      if Ascii.eqb c (ascii_of_nat 34) then reads (negb quoted) rest
      else if expands c || (negb quoted && separates c) then None
      else reads quoted rest
  end.

(** A command line that the shell reads as one simple command, a program
    and its arguments: nothing in it separates or expands, and every
    double quote is closed. *)
Definition oneCommand (line : string) : bool :=
  match reads false line with
  | Some false => true
  | _ => false
  end.

(** A character with no meaning for the shell, in or out of quotes. *)
Definition plainChar (c : ascii) : bool :=
  negb (expands c) && negb (separates c) && negb (Ascii.eqb c (ascii_of_nat 34))
  && negb (isSpace c).

(** A value that can be interpolated anywhere in a command line without
    changing how the shell reads the line. *)
Definition plain (s : string) : bool := every plainChar s.

(** A character that stays itself between double quotes. *)
Definition quotableChar (c : ascii) : bool :=
  negb (expands c) && negb (Ascii.eqb c (ascii_of_nat 34)).

Definition quotable (s : string) : bool := every quotableChar s.

(** The values the pipeline interpolates in its command lines are all
    plain. *)
Definition plainConfig (h : Host) (config : Optimizer.OptimizationConfig) : bool :=
  let c := Optimizer.connectionData config in
  plain (tmpdir h) && plain (processCwd h)
  && plain (Optimizer.connectionId config) && plain (Optimizer.siteUrl config)
  && plain (Optimizer.optimizeBranch config)
  && plain (orElse (Connection.branch c) "main") && plain (tpl (Connection.repoUrl c))
  && plain (tpl (Connection.username c)) && plain (tpl (Connection.host c))
  && plain (orElse (Connection.remotePath c) "/var/www/html").

(** The decimal numerals. *)
Definition numeral (c : ascii) : bool :=
  Ascii.eqb c "-" || ((48 <=? nat_of_ascii c)%nat && (nat_of_ascii c <=? 57)%nat).

(** A subprocess started up to the build: one of the listed ones, and for
    plain values one simple command. *)
Definition early (h : Host) (config : Optimizer.OptimizationConfig) (d : string)
    (rec : ExecRecord) : Prop :=
  beforeBuild config d rec = true /\
  (plainConfig h config = true -> oneCommand (cmd rec) = true).

(** A subprocess started after the build: one of the listed ones, and for
    plain values one simple command, the creation of the change request
    left aside. *)
Definition late (h : Host) (config : Optimizer.OptimizationConfig) (d : string)
    (rec : ExecRecord) : Prop :=
  afterBuild config d rec = true /\
  (plainConfig h config = true -> startsWith (cmd rec) "gh " = false ->
   oneCommand (cmd rec) = true).

(** A command line that publishes, or that the shell would not read as
    one simple command. *)
Definition flagged (rec : ExecRecord) : bool :=
  publishes rec || negb (oneCommand (cmd rec)).


(** The directory [prepareWorkingDirectory] makes for a run started in [w]. *)
Definition workDirOf (h : Host) (config : Optimizer.OptimizationConfig) (w : World) : string :=
  pathJoin (tmpdir h)
    ("workdir-" +:+ Optimizer.connectionId config +:+ "-" +:+ showZ (dateNow h (clock w))).

(** How the subprocesses of a run that got a working directory [d] follow
    one another, and what the report then says. *)
Inductive Phases (h : Host) (config : Optimizer.OptimizationConfig) (d : string)
    (report : Optimizer.OptimizationReport) (extra : list ExecRecord) : Prop :=
| stopped_at_fetch :
    Forall (early h config d) extra ->
    (length extra <= 1)%nat ->
    Optimizer.success report = false ->
    Optimizer.prUrl report = None ->
    Phases h config d report extra
| stopped_at_build (pre : list ExecRecord) (build : ExecRecord) (stderr : string) :
    extra = (pre ++ [build])%list ->
    Forall (early h config d) pre ->
    buildIn d build = true -> succeeded build = false ->
    Optimizer.success report = false ->
    Optimizer.prUrl report = None ->
    Optimizer.errors report =
      [ "Build échoué: " +:+ execErrorMessage "npm run build" stderr;
        "Build échoué: " +:+ execErrorMessage "npm run build" stderr ] ->
    Phases h config d report extra
| ran_through (pre post : list ExecRecord) (build : ExecRecord) :
    extra = (pre ++ [build] ++ post)%list ->
    Forall (early h config d) pre ->
    buildIn d build = true -> succeeded build = true ->
    Forall (late h config d) post ->
    Optimizer.success report = true ->
    (Optimizer.preferPr config = false -> Optimizer.prUrl report = None) ->
    Phases h config d report extra.

(** A run either got no working directory and started nothing, or works
    in [workDirOf] and went through the phases. *)
Definition shaped (h : Host) (config : Optimizer.OptimizationConfig) (w0 : World)
    (report : Optimizer.OptimizationReport) (extra : list ExecRecord) : Prop :=
  (Optimizer.workDir report = "" /\ extra = [] /\
   Optimizer.success report = false /\ Optimizer.prUrl report = None)
  \/ (Optimizer.workDir report = workDirOf h config w0 /\
      Phases h config (Optimizer.workDir report) report extra).

(** Two configurations that agree on every field the pipeline reads. *)
Definition sameReadFields (a b : Optimizer.OptimizationConfig) : Prop :=
  Optimizer.connectionId a = Optimizer.connectionId b /\
  Optimizer.siteUrl a = Optimizer.siteUrl b /\
  Optimizer.lighthouseMinScores a = Optimizer.lighthouseMinScores b /\
  Optimizer.optimizeBranch a = Optimizer.optimizeBranch b /\
  Optimizer.preferPr a = Optimizer.preferPr b /\
  Connection.type (Optimizer.connectionData a) = Connection.type (Optimizer.connectionData b) /\
  Connection.repoUrl (Optimizer.connectionData a)
    = Connection.repoUrl (Optimizer.connectionData b) /\
  Connection.branch (Optimizer.connectionData a)
    = Connection.branch (Optimizer.connectionData b) /\
  Connection.username (Optimizer.connectionData a)
    = Connection.username (Optimizer.connectionData b) /\
  Connection.host (Optimizer.connectionData a) = Connection.host (Optimizer.connectionData b) /\
  Connection.remotePath (Optimizer.connectionData a)
    = Connection.remotePath (Optimizer.connectionData b).

End Traces.

(* ===================================================================== *)
(** ** More concrete environments *)
(* ===================================================================== *)

Module Cases.
Import Js Sys Store.

(** A store file with two connections on a disk that has become read-only. *)
Definition readOnlyDisk : State :=
  {| file := file Scenario.twoOnDisk; tmpFile := None; readOk := true;
     mkdirOk := true; writeOk := false; renameOk := true;
     memoryStore := None; saved := [] |}.

(** The build fails, everything else works. *)
Definition buildFails : Host := Scenario.machine (fun c => String.eqb c "npm run build").

(** A connection over SSH with a password and a key, and the same one
    without them and with another allow-list. *)
Definition withSecrets : Optimizer.OptimizationConfig :=
  {| Optimizer.connectionId := "conn_1";
     Optimizer.connectionData :=
       {| Connection.type := "ssh"; Connection.label := Some "site";
          Connection.host := Some "www.example.org"; Connection.port := Some 22%Z;
          Connection.username := Some "deploy";
          Connection.authMethod := Some "password"; Connection.password := Some "hunter2";
          Connection.privateKey := Some "-----BEGIN KEY-----";
          Connection.passphrase := Some "open";
          Connection.repoUrl := None; Connection.branch := None;
          Connection.remotePath := Some "/srv/www" |};
     Optimizer.siteUrl := "https://www.example.org";
     Optimizer.lighthouseMinScores :=
       {| Optimizer.minPerformance := 90; Optimizer.minSeo := 90;
          Optimizer.minAccessibility := 90; Optimizer.minBestPractices := 90 |};
     Optimizer.optimizeBranch := "chore/optimize-auto";
     Optimizer.preferPr := true;
     Optimizer.constraints := Some "no new dependency";
     Optimizer.allowedHosts := ["example.org"] |}.

Definition withoutSecrets : Optimizer.OptimizationConfig :=
  {| Optimizer.connectionId := "conn_1";
     Optimizer.connectionData :=
       {| Connection.type := "ssh"; Connection.label := None;
          Connection.host := Some "www.example.org"; Connection.port := None;
          Connection.username := Some "deploy";
          Connection.authMethod := None; Connection.password := None;
          Connection.privateKey := None; Connection.passphrase := None;
          Connection.repoUrl := None; Connection.branch := None;
          Connection.remotePath := Some "/srv/www" |};
     Optimizer.siteUrl := "https://www.example.org";
     Optimizer.lighthouseMinScores :=
       {| Optimizer.minPerformance := 90; Optimizer.minSeo := 90;
          Optimizer.minAccessibility := 90; Optimizer.minBestPractices := 90 |};
     Optimizer.optimizeBranch := "chore/optimize-auto";
     Optimizer.preferPr := true;
     Optimizer.constraints := None;
     Optimizer.allowedHosts := [] |}.

End Cases.

(* ===================================================================== *)
(** * Properties *)
(* ===================================================================== *)

(** ** Strings *)

Module JsFacts.
Import Js.

Lemma app_cons (c : ascii) (a b : string) : String c a +:+ b = String c (a +:+ b).
Proof. reflexivity. Qed.

Lemma app_empty_l (b : string) : "" +:+ b = b.
Proof. reflexivity. Qed.

Lemma app_empty_r (a : string) : a +:+ "" = a.
Proof. induction a as [|c a IH]; [reflexivity|]. rewrite app_cons, IH. reflexivity. Qed.

Lemma app_assoc (a b c : string) : (a +:+ b) +:+ c = a +:+ (b +:+ c).
Proof.
  induction a as [|x a IH]; [reflexivity|].
  rewrite !app_cons, IH. reflexivity.
Qed.

Lemma startsWith_iff (s p : string) :
  startsWith s p = true <-> exists rest, s = p +:+ rest.
Proof.
  revert s. induction p as [|c p IH]; intros s; simpl.
  - split; [intros _; exists s; reflexivity | reflexivity].
  - destruct s as [|d s].
    + split; [discriminate | intros [rest H]; rewrite app_cons in H; discriminate].
    + destruct (Ascii.eqb c d) eqn:E.
      * apply Ascii.eqb_eq in E. subst d. rewrite IH. split.
        -- intros [rest ->]. exists rest. reflexivity.
        -- intros [rest H]. rewrite app_cons in H. injection H as ->. exists rest. reflexivity.
      * apply Ascii.eqb_neq in E. split; [discriminate|].
        intros [rest H]. rewrite app_cons in H. injection H as -> _. congruence.
Qed.

Lemma drop_app (p rest : string) : drop (String.length p) (p +:+ rest) = rest.
Proof. induction p as [|c p IH]; [destruct rest; reflexivity | exact IH]. Qed.

Lemma startsWith_drop (s p : string) :
  startsWith s p = true -> s = p +:+ drop (String.length p) s.
Proof.
  intros H. apply startsWith_iff in H as [rest ->]. rewrite drop_app. reflexivity.
Qed.

Lemma endsWith_nil (suf : string) : endsWith "" suf = String.eqb "" suf.
Proof. cbn [endsWith]. apply orb_false_r. Qed.

Lemma endsWith_cons (c : ascii) (s suf : string) :
  endsWith (String c s) suf = String.eqb (String c s) suf || endsWith s suf.
Proof. reflexivity. Qed.

Lemma endsWith_iff (s suf : string) :
  endsWith s suf = true <-> exists pre, s = pre +:+ suf.
Proof.
  induction s as [|c s IH].
  - rewrite endsWith_nil, String.eqb_eq. split.
    + intros <-. exists "". reflexivity.
    + intros [pre H]. destruct pre as [|x pre]; [exact H | rewrite app_cons in H; discriminate].
  - rewrite endsWith_cons, orb_true_iff, String.eqb_eq, IH. split.
    + intros [<- | [pre ->]]; [exists ""; reflexivity | exists (String c pre); reflexivity].
    + intros [pre H]. destruct pre as [|x pre].
      * left. exact H.
      * right. rewrite app_cons in H. injection H as -> ->. exists pre. reflexivity.
Qed.

(** Cutting at the first separator: what is kept has no separator, and
    what is cut off is empty or starts with one. *)
Lemma splitHead_decompose (c : ascii) (s : string) :
  exists rest, s = splitHead c s +:+ rest /\ hasChar c (splitHead c s) = false /\
               (rest = "" \/ startsWith rest (String c "") = true).
Proof.
  induction s as [|d s (rest & Hs & Hno & Hrest)]; simpl.
  - exists "". auto.
  - destruct (Ascii.eqb d c) eqn:E.
    + apply Ascii.eqb_eq in E. subst d. exists (String c s). repeat split.
      right. simpl. rewrite Ascii.eqb_refl. reflexivity.
    + exists rest. rewrite app_cons. simpl. rewrite Ascii.eqb_sym, E. simpl.
      repeat split; [congruence | assumption | assumption].
Qed.

Lemma splitHead_app_clean (c : ascii) (a rest : string) :
  hasChar c a = false -> splitHead c (a +:+ rest) = a +:+ splitHead c rest.
Proof.
  induction a as [|d a IH]; simpl; intros H; [reflexivity|].
  apply orb_false_iff in H as [Hd Ha].
  rewrite Ascii.eqb_sym, Hd, IH by assumption. reflexivity.
Qed.

Lemma splitHead_at_sep (c : ascii) (rest : string) :
  rest = "" \/ startsWith rest (String c "") = true -> splitHead c rest = "".
Proof.
  intros [-> | H]; [reflexivity|].
  destruct rest as [|d rest]; [reflexivity|]. simpl in *.
  destruct (Ascii.eqb c d) eqn:E; [|discriminate].
  rewrite Ascii.eqb_sym, E. reflexivity.
Qed.

Lemma hasChar_app (c : ascii) (a b : string) :
  hasChar c (a +:+ b) = hasChar c a || hasChar c b.
Proof.
  induction a as [|d a IH]; [reflexivity|].
  rewrite app_cons. simpl. rewrite IH, orb_assoc. reflexivity.
Qed.

Lemma lowerAscii_app (a b : string) :
  lowerAscii (a +:+ b) = lowerAscii a +:+ lowerAscii b.
Proof.
  induction a as [|c a IH]; [reflexivity|].
  rewrite app_cons. simpl. rewrite IH. reflexivity.
Qed.

Lemma isAscii_app (a b : string) : isAscii (a +:+ b) = isAscii a && isAscii b.
Proof.
  induction a as [|c a IH]; [reflexivity|].
  rewrite app_cons. simpl. rewrite IH, andb_assoc. reflexivity.
Qed.

Lemma lowerChar_ascii (c : ascii) :
  (nat_of_ascii (lowerChar c) <? 128)%nat = (nat_of_ascii c <? 128)%nat.
Proof.
  unfold lowerChar.
  destruct ((65 <=? nat_of_ascii c)%nat && (nat_of_ascii c <=? 90)%nat) eqn:E; [|reflexivity].
  apply andb_true_iff in E as [E1 E2].
  apply Nat.leb_le in E1. apply Nat.leb_le in E2.
  rewrite nat_ascii_embedding by lia.
  transitivity true; [|symmetry]; apply Nat.ltb_lt; lia.
Qed.

Lemma isAscii_lowerAscii (s : string) : isAscii (lowerAscii s) = isAscii s.
Proof.
  induction s as [|c s IH]; [reflexivity|].
  simpl. rewrite IH, lowerChar_ascii. reflexivity.
Qed.

(** On ASCII text lowercasing is the folding of the letters, whatever the
    case tables say elsewhere. *)
Lemma toLowerCase_ascii (caseTables : string -> string) (s : string) :
  isAscii s = true -> toLowerCase caseTables s = lowerAscii s.
Proof. intros H. unfold toLowerCase. rewrite H. reflexivity. Qed.

Lemma lowerChar_keeps (d c : ascii) :
  (nat_of_ascii d < 65 \/ 90 + 32 < nat_of_ascii d)%nat ->
  Ascii.eqb d (lowerChar c) = Ascii.eqb d c.
Proof.
  intros Hd. unfold lowerChar.
  destruct ((65 <=? nat_of_ascii c)%nat && (nat_of_ascii c <=? 90)%nat) eqn:E; [|reflexivity].
  apply andb_true_iff in E as [E1 E2].
  apply Nat.leb_le in E1. apply Nat.leb_le in E2.
  assert (d <> c) as N1 by (intros ->; lia).
  assert (d <> ascii_of_nat (nat_of_ascii c + 32)) as N2.
  { intros ->. rewrite nat_ascii_embedding in Hd by lia. lia. }
  apply Ascii.eqb_neq in N1. apply Ascii.eqb_neq in N2. congruence.
Qed.

Lemma hasChar_lowerAscii (d : ascii) (s : string) :
  (nat_of_ascii d < 65 \/ 90 + 32 < nat_of_ascii d)%nat ->
  hasChar d (lowerAscii s) = hasChar d s.
Proof.
  intros Hd. induction s as [|c s IH]; [reflexivity|].
  simpl. rewrite IH, lowerChar_keeps by assumption. reflexivity.
Qed.

Lemma startsWith_hasChar (s p : string) (c : ascii) :
  startsWith s p = true -> hasChar c p = true -> hasChar c s = true.
Proof.
  intros H Hp. apply startsWith_iff in H as [rest ->].
  rewrite hasChar_app, Hp. reflexivity.
Qed.

End JsFacts.

(** ** lib/crypto.ts: the host allow-list *)

Module CryptoFacts.
Import Js JsFacts Crypto.

Lemma stripScheme_decompose (s : string) : s = schemeOf s +:+ stripScheme s.
Proof.
  unfold schemeOf, stripScheme.
  destruct (startsWith s "https://") eqn:E1.
  - exact (startsWith_drop _ _ E1).
  - destruct (startsWith s "http://") eqn:E2.
    + exact (startsWith_drop _ _ E2).
    + reflexivity.
Qed.

(** The host the code computes is the host part in the sense of the specification. *)
Lemma normalized_is_hostOf (s : string) :
  hostOf s (splitHead ":" (splitHead "/" (stripScheme s))).
Proof.
  destruct (splitHead_decompose "/" (stripScheme s)) as (r1 & H1 & N1 & R1).
  destruct (splitHead_decompose ":" (splitHead "/" (stripScheme s))) as (r2 & H2 & N2 & R2).
  set (a := splitHead "/" (stripScheme s)) in *.
  set (b := splitHead ":" a) in *.
  exists (r2 +:+ r1). split; [|split].
  - rewrite (stripScheme_decompose s) at 1. f_equal.
    rewrite H1, H2 at 1. apply app_assoc.
  - split; [|exact N2].
    rewrite H2, hasChar_app in N1. apply orb_false_iff in N1. tauto.
  - destruct R2 as [-> | R2].
    + destruct R1 as [-> | R1]; [left; reflexivity | right; left; exact R1].
    + right; right. apply startsWith_iff in R2 as [t ->].
      apply startsWith_iff. exists (t +:+ r1). apply app_assoc.
Qed.

(** There is only one host part. *)
Lemma hostOf_unique (s h : string) :
  hostOf s h -> h = splitHead ":" (splitHead "/" (stripScheme s)).
Proof.
  intros (rest & Hs & [Nslash Ncolon] & Hrest).
  assert (stripScheme s = h +:+ rest) as ->.
  { rewrite (stripScheme_decompose s) in Hs at 1.
    exact (String.app_inj _ _ _ Hs). }
  rewrite (splitHead_app_clean "/" h rest Nslash).
  rewrite (splitHead_app_clean ":" h _ Ncolon).
  rewrite (splitHead_at_sep ":" (splitHead "/" rest)); [symmetry; apply app_empty_r|].
  destruct Hrest as [-> | [H | H]].
  - left. reflexivity.
  - left. apply splitHead_at_sep. right. exact H.
  - right. apply startsWith_iff in H as [t ->]. reflexivity.
Qed.

Lemma bare_no_scheme (s : string) : bare s -> stripScheme s = s.
Proof.
  intros [_ Ncolon]. unfold stripScheme.
  destruct (startsWith s "https://") eqn:E1.
  - rewrite (startsWith_hasChar s "https://" ":" E1 eq_refl) in Ncolon. discriminate.
  - destruct (startsWith s "http://") eqn:E2; [|reflexivity].
    rewrite (startsWith_hasChar s "http://" ":" E2 eq_refl) in Ncolon. discriminate.
Qed.

Lemma bare_lowerAscii (s : string) : bare s -> bare (lowerAscii s).
Proof.
  intros [H1 H2]. split.
  - rewrite hasChar_lowerAscii; [exact H1 | left; vm_compute; lia].
  - rewrite hasChar_lowerAscii; [exact H2 | left; vm_compute; lia].
Qed.

Lemma normalizeHost_bare (caseTables : string -> string) (s : string) :
  bare s -> isAscii s = true -> normalizeHost caseTables s = lowerAscii s.
Proof.
  intros Hb Ha. apply bare_lowerAscii in Hb. unfold normalizeHost.
  rewrite (toLowerCase_ascii caseTables s Ha).
  rewrite (bare_no_scheme _ Hb). destruct Hb as [H1 H2].
  rewrite <- (app_empty_r (lowerAscii s)) at 1.
  rewrite (splitHead_app_clean "/" _ "" H1). simpl. rewrite app_empty_r.
  rewrite <- (app_empty_r (lowerAscii s)) at 1.
  rewrite (splitHead_app_clean ":" _ "" H2). simpl. apply app_empty_r.
Qed.

Lemma matches_iff (h a : string) :
  String.eqb h a || endsWith h ("." +:+ a) = true <->
  (h = a \/ exists sub, h = sub +:+ "." +:+ a).
Proof. rewrite orb_true_iff, String.eqb_eq, endsWith_iff. reflexivity. Qed.

(** C9, as the code has it.  [isHostAllowed] answers true exactly when the
    host part of the lowercased input (scheme removed, path and port cut
    off) equals a lowercased allow-list entry or ends with a dot followed
    by it, whatever the case tables of the engine.  A bare host name made
    of a label, a dot and an allowed entry is allowed when it is written in
    ASCII, where lowercasing works character by character. *)
Theorem isHostAllowed_spec :
  (forall caseTables host allowedHosts,
     isHostAllowed caseTables host allowedHosts = true
     <-> allowedBySpec caseTables host allowedHosts) /\
  (forall caseTables sub a allowedHosts,
     In a allowedHosts -> bare (sub +:+ "." +:+ a) ->
     isAscii (sub +:+ "." +:+ a) = true ->
     isHostAllowed caseTables (sub +:+ "." +:+ a) allowedHosts = true).
Proof.
  assert (forall caseTables host allowedHosts,
            isHostAllowed caseTables host allowedHosts = true
            <-> allowedBySpec caseTables host allowedHosts) as Hiff.
  { intros caseTables host allowedHosts. unfold isHostAllowed, allowedBySpec.
    rewrite existsb_exists. split.
    - intros (a & Hin & Hm). exists (normalizeHost caseTables host). split.
      + apply normalized_is_hostOf.
      + exists a. split; [exact Hin|]. apply matches_iff. exact Hm.
    - intros (h & Hh & a & Hin & Hm). exists a. split; [exact Hin|].
      apply hostOf_unique in Hh. unfold normalizeHost. rewrite <- Hh.
      apply matches_iff. exact Hm. }
  split; [exact Hiff|].
  intros caseTables sub a allowedHosts Hin Hb Ha. apply Hiff.
  pose proof Ha as Hparts. rewrite !isAscii_app in Hparts.
  apply andb_true_iff in Hparts as [Hsub Hrest].
  apply andb_true_iff in Hrest as [_ Hentry].
  exists (lowerAscii (sub +:+ "." +:+ a)). split.
  - pose proof (normalized_is_hostOf (toLowerCase caseTables (sub +:+ "." +:+ a))) as H.
    change (splitHead ":" (splitHead "/"
              (stripScheme (toLowerCase caseTables (sub +:+ "." +:+ a)))))
      with (normalizeHost caseTables (sub +:+ "." +:+ a)) in H.
    rewrite (normalizeHost_bare _ _ Hb Ha) in H. exact H.
  - exists a. split; [exact Hin|]. right. exists (lowerAscii sub).
    rewrite (toLowerCase_ascii caseTables a Hentry), !lowerAscii_app. reflexivity.
Qed.

(** A subdomain of an allowed host, written with a scheme, a port and a
    path, is allowed; a host that merely ends with the same letters is not. *)
Lemma isHostAllowed_spec_witness :
  isHostAllowed Scenario.finalSigma "api.github.com" ["gitlab.com"; "GitHub.com"] = true /\
  (isHostAllowed Scenario.finalSigma "HTTPS://Api.GitHub.com:443/x/y" ["github.com"] = true <->
   allowedBySpec Scenario.finalSigma "HTTPS://Api.GitHub.com:443/x/y" ["github.com"]).
Proof.
  split.
  - apply (proj2 isHostAllowed_spec Scenario.finalSigma "api" "GitHub.com"
             ["gitlab.com"; "GitHub.com"]).
    + right. left. reflexivity.
    + split; reflexivity.
    + reflexivity.
  - apply (proj1 isHostAllowed_spec).
Defined.

(** C9, at the input on which the code departs from it.  The entry is a
    capital sigma and the host is a label, a dot and that entry.  Alone the
    sigma lowers to the ordinary small sigma; at the end of the host name,
    after a letter, it lowers to the final form, so the host does not end
    with the lowered entry and is refused. *)
Lemma subdomain_beyond_ascii_is_refused :
  In "Σ" ["Σ"] /\
  bare ("x" +:+ "." +:+ "Σ") /\
  toLowerCase Scenario.finalSigma "Σ" = "σ" /\
  toLowerCase Scenario.finalSigma ("x" +:+ "." +:+ "Σ") = "x.ς" /\
  isHostAllowed Scenario.finalSigma ("x" +:+ "." +:+ "Σ") ["Σ"] = false.
Proof.
  split; [left; reflexivity|]. split; [split; reflexivity|].
  split; [reflexivity|]. split; reflexivity.
Qed.

Example isHostAllowed_lookalike :
  forall caseTables, isHostAllowed caseTables "evilgithub.com" ["github.com"] = false.
Proof. reflexivity. Qed.

End CryptoFacts.

(** ** lib/store.ts: deleting a connection *)

Module StoreFacts.
Import Store.

Lemma truthyAt_own {V : Type} (obj : gmap string V) (key : string) (x : V) :
  obj !! key = Some x -> truthyAt obj key = true.
Proof. intros H. unfold truthyAt. rewrite H. reflexivity. Qed.

Lemma truthyAt_absent {V : Type} (obj : gmap string V) (key : string) :
  obj !! key = None -> ~ In key objectPrototypeKeys -> truthyAt obj key = false.
Proof.
  intros H Hk. unfold truthyAt. rewrite H.
  destruct (existsb (String.eqb key) objectPrototypeKeys) eqn:E; [|reflexivity].
  apply existsb_exists in E as (k & Hin & Heq). apply String.eqb_eq in Heq. subst k.
  contradiction.
Qed.

Lemma truthyAt_inherited {V : Type} (obj : gmap string V) (key : string) :
  In key objectPrototypeKeys -> truthyAt obj key = true.
Proof.
  intros Hk. unfold truthyAt. destruct (obj !! key); [reflexivity|].
  apply existsb_exists. exists key. split; [exact Hk | apply String.eqb_refl].
Qed.

(** No connection under [id], and [id] is not a name found on the
    prototype: the answer is [false] and nothing is written. *)
Lemma deleteConnection_absent (id : string) (st : State) :
  connections (loadStore st) !! id = None -> ~ In id objectPrototypeKeys ->
  deleteConnection id st = (false, st).
Proof.
  intros H Hk. unfold deleteConnection.
  rewrite (truthyAt_absent _ _ H Hk). reflexivity.
Qed.

(** A connection under [id]: the answer is [true] and the store handed to
    [saveStore] is the loaded one without that entry, every other entry and
    the version untouched. *)
Lemma deleteConnection_present (id : string) (st : State) (c : StoredConnection) :
  connections (loadStore st) !! id = Some c ->
  exists store,
    deleteConnection id st = (true, saveStore store st) /\
    connections store !! id = None /\
    (forall other, other <> id ->
       connections store !! other = connections (loadStore st) !! other) /\
    version store = version (loadStore st).
Proof.
  intros H. unfold deleteConnection. rewrite (truthyAt_own _ _ _ H). simpl.
  eexists. split; [reflexivity|]. simpl. split; [|split].
  - apply lookup_delete_eq.
  - intros other Hne. apply lookup_delete_ne. congruence.
  - reflexivity.
Qed.

Lemma saveStore_records (store : ConnectionStore) (st : State) :
  memoryStore (saveStore store st) = Some store /\
  saved (saveStore store st) = (saved st ++ [store])%list.
Proof.
  unfold saveStore. simpl.
  destruct (mkdirOk st), (writeOk st), (renameOk st); simpl; auto.
Qed.

Lemma saveStore_on_disk (store : ConnectionStore) (st : State) :
  mkdirOk st = true -> writeOk st = true -> renameOk st = true ->
  file (saveStore store st) = Parsed store.
Proof. intros H1 H2 H3. unfold saveStore. simpl. rewrite H1, H2, H3. reflexivity. Qed.

Lemma loadStore_after_save (store : ConnectionStore) (st : State) :
  mkdirOk st = true -> writeOk st = true -> renameOk st = true -> readOk st = true ->
  version store = STORE_VERSION ->
  loadStore (saveStore store st) = store.
Proof.
  intros H1 H2 H3 H4 Hv. unfold loadStore.
  rewrite (saveStore_on_disk store st H1 H2 H3).
  assert (readOk (saveStore store st) = true) as ->.
  { unfold saveStore. simpl. rewrite H1, H2, H3. exact H4. }
  rewrite Hv. reflexivity.
Qed.

Example deleteConnection_second_of_two :
  fst (deleteConnection "conn_2" Scenario.twoOnDisk) = true /\
  (map_to_list (connections (loadStore (snd (deleteConnection "conn_2" Scenario.twoOnDisk))))).*1
  = ["conn_1"].
Proof. split; vm_compute; reflexivity. Qed.

Example deleteConnection_unknown :
  deleteConnection "conn_9" Scenario.twoOnDisk = (false, Scenario.twoOnDisk).
Proof.
  apply deleteConnection_absent; [vm_compute; reflexivity|].
  vm_compute. intuition discriminate.
Qed.

(** C10, at the input on which the code departs from it.  The store is
    empty, so no connection is called [toString]; [store.connections[id]] is
    nevertheless truthy (the method every object inherits), the function
    goes on to [saveStore] and answers [true]. *)
Theorem deleteConnection_inherited_key :
  connections (loadStore Scenario.emptyStore) !! "toString" = None /\
  fst (deleteConnection "toString" Scenario.emptyStore) = true /\
  saved (snd (deleteConnection "toString" Scenario.emptyStore)) = [initializeStore] /\
  snd (deleteConnection "toString" Scenario.emptyStore) <> Scenario.emptyStore.
Proof.
  split; [reflexivity|]. split; [reflexivity|]. split; [vm_compute; reflexivity|].
  intros H. apply (f_equal saved) in H. vm_compute in H. discriminate H.
Qed.

End StoreFacts.

(** ** Reasoning about computations *)

Module SysFacts.
Import Js Sys Spec.

Lemma post_ret {S A : Type} (a : A) (s : S) (Q : result A -> S -> Prop) :
  Q (Ok a) s -> post (ret a) s Q.
Proof. exact (fun H => H). Qed.

Lemma post_throw {S A : Type} (e : string) (s : S) (Q : result A -> S -> Prop) :
  Q (Throw e) s -> post (throw e) s Q.
Proof. exact (fun H => H). Qed.

Lemma post_bind {S A B : Type} (m : M S A) (k : A -> M S B) (s : S)
    (Q : result B -> S -> Prop) :
  post m s (fun r s' => match r with
                        | Ok a => post (k a) s' Q
                        | Throw e => Q (Throw e) s'
                        end) ->
  post (bind m k) s Q.
Proof. unfold post, bind. destruct (m s) as [[a|e] s']; simpl; auto. Qed.

Lemma post_tryCatch {S A : Type} (body : M S A) (handler : string -> M S A) (s : S)
    (Q : result A -> S -> Prop) :
  post body s (fun r s' => match r with
                           | Ok a => Q (Ok a) s'
                           | Throw e => post (handler e) s' Q
                           end) ->
  post (tryCatch body handler) s Q.
Proof. unfold post, tryCatch. destruct (body s) as [[a|e] s']; simpl; auto. Qed.

Lemma post_modifyL {L : Type} (f : L -> L) (s : L * World) (Q : result unit -> L * World -> Prop) :
  Q (Ok tt) (f (fst s), snd s) -> post (modifyL f) s Q.
Proof. exact (fun H => H). Qed.

Lemma post_getL {L : Type} (s : L * World) (Q : result L -> L * World -> Prop) :
  Q (Ok (fst s)) s -> post getL s Q.
Proof. exact (fun H => H). Qed.

Lemma post_liftW {L A : Type} (m : M World A) (s : L * World)
    (Q : result A -> L * World -> Prop) :
  post m (snd s) (fun r w' => Q r (fst s, w')) -> post (liftW m) s Q.
Proof. unfold post, liftW. destruct (m (snd s)) as [r w']. simpl. auto. Qed.

(** Whatever a computation on the world does, the local object stays. *)
Lemma post_liftW_any {L A : Type} (m : M World A) (s : L * World)
    (Q : result A -> L * World -> Prop) :
  (forall r w', Q r (fst s, w')) -> post (liftW m) s Q.
Proof. intros H. apply post_liftW. apply H. Qed.

Lemma post_liftW_eq {L A : Type} (m : M World A) (s : L * World) (r : result A) (w' : World)
    (Q : result A -> L * World -> Prop) :
  m (snd s) = (r, w') -> Q r (fst s, w') -> post (liftW m) s Q.
Proof. intros E H. apply post_liftW. unfold post. rewrite E. exact H. Qed.

Lemma post_withLocal {L A : Type} (init : L) (m : M (L * World) A) (w : World)
    (Q : result (A * L) -> World -> Prop) :
  post m (init, w) (fun r s' => match r with
                                | Ok a => Q (Ok (a, fst s')) (snd s')
                                | Throw e => Q (Throw e) (snd s')
                                end) ->
  post (withLocal init m) w Q.
Proof.
  unfold post, withLocal. destruct (m (init, w)) as [[a|e] [l w']]; simpl; auto.
Qed.

Lemma post_mono {S A : Type} (m : M S A) (s : S) (Q Q' : result A -> S -> Prop) :
  post m s Q -> (forall r s', Q r s' -> Q' r s') -> post m s Q'.
Proof. unfold post. auto. Qed.

Lemma post_intro {S A : Type} (m : M S A) (s : S) (Q : result A -> S -> Prop) :
  (forall r s', m s = (r, s') -> Q r s') -> post m s Q.
Proof. intros H. unfold post. apply H. destruct (m s); reflexivity. Qed.

Lemma post_elim {S A : Type} (m : M S A) (s s' : S) (r : result A)
    (Q : result A -> S -> Prop) :
  post m s Q -> m s = (r, s') -> Q r s'.
Proof. unfold post. intros H E. rewrite E in H. exact H. Qed.

Lemma post_total {S A : Type} (m : M S A) (s : S) (Q : result A -> S -> Prop) :
  total m -> (forall a s', Q (Ok a) s') -> post m s Q.
Proof. intros T H. unfold post. destruct (T s) as (a & s' & ->). apply H. Qed.

Lemma total_post {S A : Type} (m : M S A) :
  (forall s, post m s (fun r _ => exists a, r = Ok a)) -> total m.
Proof.
  intros H s. specialize (H s). unfold post in H.
  destruct (m s) as [r s']. destruct H as [a H]. simpl in H. subst r. eauto.
Qed.

(** A handler that cannot throw makes the whole [try] total. *)
Lemma total_tryCatch {S A : Type} (body : M S A) (handler : string -> M S A) :
  (forall e, total (handler e)) -> total (tryCatch body handler).
Proof.
  intros H s. unfold tryCatch. destruct (body s) as [[a|e] s']; [eauto | apply H].
Qed.

Lemma total_bind {S A B : Type} (m : M S A) (k : A -> M S B) :
  total m -> (forall a, total (k a)) -> total (bind m k).
Proof.
  intros Hm Hk s. unfold bind. destruct (Hm s) as (a & s' & ->). apply Hk.
Qed.

Lemma total_ret {S A : Type} (a : A) : total (ret a : M S A).
Proof. intros s. eauto. Qed.

Lemma total_log (line : string) : total (log line).
Proof. intros s. eauto. Qed.

Lemma total_liftW {L A : Type} (m : M World A) : total m -> total (liftW m : M (L * World) A).
Proof.
  intros H [l w]. unfold liftW. simpl. destruct (H w) as (a & w' & ->). eauto.
Qed.

Lemma total_modifyL {L : Type} (f : L -> L) : total (modifyL f).
Proof. intros s. eauto. Qed.

Lemma total_withLocal {L A : Type} (init : L) (m : M (L * World) A) :
  total m -> total (withLocal init m).
Proof.
  intros H w. unfold withLocal. destruct (H (init, w)) as (a & [l w'] & ->). eauto.
Qed.

End SysFacts.

(** ** Dependency installation *)

Module InstallFacts.
Import Js Sys Spec Optimizer.

(** C6.  [installDependencies] never fails.  With a manifest in the working
    directory it starts exactly one installer there, chosen by the lockfile
    present: pnpm before yarn before npm, npm also when there is no
    lockfile; without a manifest it starts nothing and leaves the tree as
    it is. *)
Theorem installDependencies_selects :
  forall (h : Host) (workDir : string) (w : World),
    let present name := isFile (fs w) (pathJoin workDir name)
                        || isDir (fs w) (pathJoin workDir name) in
    exists w',
      installDependencies h workDir w = (Ok tt, w') /\
      if present "package.json"
      then exists ok,
             commands w' =
             (commands w ++
              [{| cmd := if present "pnpm-lock.yaml" then "pnpm install"
                         else if present "yarn.lock" then "yarn install"
                         else if present "package-lock.json" then "npm install"
                         else "npm install";
                  cwd := Some workDir;
                  succeeded := ok |}])%list
      else commands w' = commands w /\ fs w' = fs w.
Proof.
  intros h workDir w present.
  unfold installDependencies, bind, log, fileExists. simpl. fold (present "package.json").
  destruct (present "package.json"); simpl.
  - fold (present "pnpm-lock.yaml") (present "yarn.lock") (present "package-lock.json").
    unfold tryCatch, execAsync. simpl.
    match goal with |- context [exec h ?t ?c ?d ?f] => destruct (exec h t c d f) as [[so|se] f'] end;
      simpl; eexists; (split; [reflexivity|]); simpl;
      eexists; destruct (present "pnpm-lock.yaml"), (present "yarn.lock"),
                 (present "package-lock.json"); reflexivity.
  - eexists. split; [reflexivity|]. simpl. split; reflexivity.
Qed.

(** With both a pnpm and a yarn lockfile next to the manifest, pnpm runs. *)
Example installDependencies_prefers_pnpm :
  commandLines (snd (installDependencies Scenario.allGood "/w" Scenario.pnpmAndYarnTree))
  = ["pnpm install"].
Proof. vm_compute. reflexivity. Qed.

(** Without a manifest nothing runs and nothing is thrown. *)
Example installDependencies_skips :
  installDependencies Scenario.allGood "/w" Scenario.freshWorld
  = (Ok tt, {| fs := Scenario.emptyFs; clock := 0;
               console := ["📦 Installation des dépendances...";
                           "⚠️  package.json non trouvé, skip install"];
               commands := [] |}).
Proof. vm_compute. reflexivity. Qed.

End InstallFacts.

(** ** The patch sets *)

Module PatchFacts.
Import Js Sys Spec SysFacts.

(** Symbolic execution of a sub-step: the calls into the file system are
    taken with any outcome, the branches of the code are split. *)
Ltac step :=
  lazymatch goal with
  | |- post (tryCatch _ _) _ _ => apply post_tryCatch
  | |- post (bind _ _) _ _ => apply post_bind
  | |- post (liftW _) _ _ => apply post_liftW_any; intros [?|?] ?
  | |- post (modifyL _) _ _ => apply post_modifyL
  | |- post getL _ _ => apply post_getL
  | |- post (ret _) _ _ => apply post_ret
  | |- post (throw _) _ _ => apply post_throw
  | |- post (parseJson _ _) _ _ => unfold parseJson
  | |- post (getProp _ _) _ _ => unfold getProp
  | |- post (getPropOf _ _) _ _ => unfold getPropOf
  | |- post (setProp _ _ _) _ _ => unfold setProp
  end.

Ltac split_branch :=
  match goal with
  | |- post (if ?b then _ else _) _ _ => destruct b eqn:?
  | |- post (match ?x with _ => _ end) _ _ => destruct x eqn:?
  | |- post (let '(_, _) := ?x in _) _ _ => destruct x eqn:?
  end.

Ltac run_step := repeat first [ step | split_branch | progress cbn beta iota zeta ].

Lemma in_by_eqb (msg : string) (l : list string) :
  existsb (String.eqb msg) l = true -> In msg l.
Proof.
  intros H. apply existsb_exists in H as (x & Hin & Heq).
  apply String.eqb_eq in Heq. subst x. exact Hin.
Qed.

Lemma not_in_by_eqb (msg : string) (l : list string) :
  existsb (String.eqb msg) l = false -> ~ In msg l.
Proof.
  intros H Hin. assert (existsb (String.eqb msg) l = true) as E; [|congruence].
  apply existsb_exists. exists msg. split; [exact Hin | apply String.eqb_refl].
Qed.

Lemma not_in_by_digit (n : nat) (msg : string) (l : list string) :
  digitAt n msg = true -> forallb (fun x => negb (digitAt n x)) l = true -> ~ In msg l.
Proof.
  intros Hd Hall Hin. rewrite forallb_forall in Hall. specialize (Hall msg Hin).
  rewrite Hd in Hall. discriminate.
Qed.

Lemma showNat_digit (n : nat) (rest : string) : digitAt 0 (showNat n +:+ rest) = true.
Proof. unfold showNat. destruct (Nat.to_uint n); reflexivity. Qed.

Lemma perfSubStep_post (m : M (Perf.PerfOptimizationResult * World) unit) :
  (forall r w, post m (r, w) (fun res s' => res = Ok tt /\ perfOneMore r (fst s'))) ->
  perfSubStep m.
Proof.
  intros H r w. specialize (H r w). unfold post in H.
  destruct (m (r, w)) as [res [r' w']]. simpl in H. destruct H as [-> H]. eauto.
Qed.

Lemma seoSubStep_post (m : M (Seo.SeoOptimizationResult * World) unit) :
  (forall r w, post m (r, w) (fun res s' => res = Ok tt /\ seoOneMore r (fst s'))) ->
  seoSubStep m.
Proof.
  intros H r w. specialize (H r w). unfold post in H.
  destruct (m (r, w)) as [res [r' w']]. simpl in H. destruct H as [-> H]. eauto.
Qed.

Ltac perf_entry :=
  split; [reflexivity|];
  first
    [ eapply perf_more_skipped; cycle 1;
      [reflexivity | reflexivity | reflexivity | apply in_by_eqb; vm_compute; reflexivity]
    | eapply perf_more_applied; cycle 1;
      [reflexivity | reflexivity | reflexivity | apply not_in_by_eqb; vm_compute; reflexivity]
    | eapply perf_more_error; reflexivity ].

Ltac seo_entry :=
  split; [reflexivity|];
  first
    [ eapply seo_more_skipped; cycle 1;
      [reflexivity | reflexivity | reflexivity | apply in_by_eqb; vm_compute; reflexivity]
    | eapply seo_more_applied; cycle 1;
      [reflexivity | reflexivity | reflexivity | apply not_in_by_eqb; vm_compute; reflexivity]
    | eapply seo_more_error; reflexivity ].

Section WithHost.
Variable h : Host.
Variable workDir : string.

Ltac perf_start :=
  apply perfSubStep_post; intros r w;
  unfold Perf.pushApplied, Perf.pushSkipped, Perf.pushError.

Ltac seo_start :=
  apply seoSubStep_post; intros r w;
  unfold Seo.pushApplied, Seo.pushSkipped, Seo.pushError.

(** An applied entry that starts with a count, [n] characters in. *)
Ltac perf_counted n :=
  split; [reflexivity|];
  eapply perf_more_applied; cycle 1;
  [ reflexivity | reflexivity | reflexivity
  | apply (not_in_by_digit n); [apply showNat_digit | vm_compute; reflexivity] ].

Ltac seo_counted n :=
  split; [reflexivity|];
  eapply seo_more_applied; cycle 1;
  [ reflexivity | reflexivity | reflexivity
  | apply (not_in_by_digit n); [apply showNat_digit | vm_compute; reflexivity] ].

Lemma optimizeNextConfig_one : perfSubStep (Perf.optimizeNextConfig h workDir).
Proof. perf_start. unfold Perf.optimizeNextConfig. run_step; perf_entry. Qed.

Lemma optimizeImages_one : perfSubStep (Perf.optimizeImages h workDir).
Proof.
  perf_start. unfold Perf.optimizeImages. run_step; first [perf_entry | perf_counted 9%nat].
Qed.

Lemma optimizeFonts_one : perfSubStep (Perf.optimizeFonts h workDir).
Proof.
  perf_start. unfold Perf.optimizeFonts. run_step; first [perf_entry | perf_counted 8%nat].
Qed.

Lemma optimizeCacheHeaders_one : perfSubStep (Perf.optimizeCacheHeaders workDir).
Proof. perf_start. unfold Perf.optimizeCacheHeaders. run_step; perf_entry. Qed.

Lemma optimizeBundle_one : perfSubStep (Perf.optimizeBundle h workDir).
Proof. perf_start. unfold Perf.optimizeBundle. run_step; perf_entry. Qed.

Lemma optimizeCodeSplitting_one : perfSubStep (Perf.optimizeCodeSplitting h workDir).
Proof. perf_start. unfold Perf.optimizeCodeSplitting. run_step; perf_entry. Qed.

Lemma purgeCss_one : perfSubStep (Perf.purgeCss workDir).
Proof. perf_start. unfold Perf.purgeCss. run_step; perf_entry. Qed.

Variable siteUrl : string.

Lemma optimizeMetaTags_one : seoSubStep (Seo.optimizeMetaTags h workDir siteUrl).
Proof. seo_start. unfold Seo.optimizeMetaTags. run_step; seo_entry. Qed.

Lemma optimizeRobotsTxt_one : seoSubStep (Seo.optimizeRobotsTxt workDir siteUrl).
Proof. seo_start. unfold Seo.optimizeRobotsTxt. run_step; seo_entry. Qed.

Lemma optimizeSitemap_one : seoSubStep (Seo.optimizeSitemap workDir siteUrl).
Proof. seo_start. unfold Seo.optimizeSitemap. run_step; seo_entry. Qed.

Lemma addStructuredData_one : seoSubStep (Seo.addStructuredData workDir siteUrl).
Proof. seo_start. unfold Seo.addStructuredData. run_step; seo_entry. Qed.

Lemma addCanonicalUrls_one : seoSubStep (Seo.addCanonicalUrls h workDir siteUrl).
Proof.
  seo_start. unfold Seo.addCanonicalUrls. run_step; first [seo_entry | seo_counted 17%nat].
Qed.

Lemma checkImageAltTexts_one : seoSubStep (Seo.checkImageAltTexts h workDir).
Proof. seo_start. unfold Seo.checkImageAltTexts. run_step; seo_entry. Qed.

Lemma perfOneMore_tally (n : nat) (r r' : Perf.PerfOptimizationResult) :
  perfTally n r -> perfOneMore r r' -> perfTally (S n) r'.
Proof.
  intros (Hn & Ha & Hs) [msg Hm E1 E2 E3 | msg Hm E1 E2 E3 | msg E1 E2 E3];
    unfold perfTally; rewrite E1, E2, E3, ?length_app; simpl;
    (split; [lia|]); split; rewrite ?Forall_app; auto.
Qed.

Lemma seoOneMore_tally (n : nat) (r r' : Seo.SeoOptimizationResult) :
  seoTally n r -> seoOneMore r r' -> seoTally (S n) r'.
Proof.
  intros (Hn & Ha & Hs) [msg Hm E1 E2 E3 | msg Hm E1 E2 E3 | msg E1 E2 E3];
    unfold seoTally; rewrite E1, E2, E3, ?length_app; simpl;
    (split; [lia|]); split; rewrite ?Forall_app; auto.
Qed.

Lemma perfTally_disjoint (n : nat) (r : Perf.PerfOptimizationResult) :
  perfTally n r -> forall msg, In msg (Perf.applied r) -> ~ In msg (Perf.skipped r).
Proof.
  intros (_ & Ha & Hs) msg Hin Hin'.
  rewrite Forall_forall in Ha, Hs.
  apply list_elem_of_In in Hin, Hin'. exact (Ha msg Hin (Hs msg Hin')).
Qed.

Lemma seoTally_disjoint (n : nat) (r : Seo.SeoOptimizationResult) :
  seoTally n r -> forall msg, In msg (Seo.applied r) -> ~ In msg (Seo.skipped r).
Proof.
  intros (_ & Ha & Hs) msg Hin Hin'.
  rewrite Forall_forall in Ha, Hs.
  apply list_elem_of_In in Hin, Hin'. exact (Ha msg Hin (Hs msg Hin')).
Qed.

Lemma post_perfSubStep (m : M (Perf.PerfOptimizationResult * World) unit)
    (s : Perf.PerfOptimizationResult * World)
    (Q : result unit -> Perf.PerfOptimizationResult * World -> Prop) :
  perfSubStep m -> (forall r' w', perfOneMore (fst s) r' -> Q (Ok tt) (r', w')) -> post m s Q.
Proof.
  intros Hm HQ. destruct s as [r w]. destruct (Hm r w) as (r' & w' & E & H1).
  unfold post. rewrite E. apply HQ. exact H1.
Qed.

Lemma post_seoSubStep (m : M (Seo.SeoOptimizationResult * World) unit)
    (s : Seo.SeoOptimizationResult * World)
    (Q : result unit -> Seo.SeoOptimizationResult * World -> Prop) :
  seoSubStep m -> (forall r' w', seoOneMore (fst s) r' -> Q (Ok tt) (r', w')) -> post m s Q.
Proof.
  intros Hm HQ. destruct s as [r w]. destruct (Hm r w) as (r' & w' & E & H1).
  unfold post. rewrite E. apply HQ. exact H1.
Qed.

Lemma post_log (line : string) (w : World) (Q : result unit -> World -> Prop) :
  (forall w', Q (Ok tt) w') -> post (log line) w Q.
Proof. intros H. apply H. Qed.

Lemma perfTally_start : perfTally 0 Perf.emptyResult.
Proof. repeat split; constructor. Qed.

Lemma seoTally_start : seoTally 0 Seo.emptyResult.
Proof. repeat split; constructor. Qed.

Ltac next_perf lemma :=
  apply post_bind, post_perfSubStep; [apply lemma|]; cbn [fst snd];
  let r := fresh "r" in let w := fresh "w" in let H := fresh "H" in intros r w H.

Ltac next_seo lemma :=
  apply post_bind, post_seoSubStep; [apply lemma|]; cbn [fst snd];
  let r := fresh "r" in let w := fresh "w" in let H := fresh "H" in intros r w H.

Lemma applyPerfOptimizations_tally (w : World) :
  exists r w', Perf.applyPerfOptimizations h workDir w = (Ok r, w') /\ perfTally 7 r.
Proof.
  assert (post (Perf.applyPerfOptimizations h workDir) w
            (fun res _ => exists r, res = Ok r /\ perfTally 7 r)) as H.
  { unfold Perf.applyPerfOptimizations.
    apply post_bind, post_withLocal, post_bind, post_liftW, post_log. intros w0. cbn [fst snd].
    next_perf optimizeNextConfig_one. next_perf optimizeImages_one.
    next_perf optimizeFonts_one. next_perf optimizeCacheHeaders_one.
    next_perf optimizeBundle_one. next_perf optimizeCodeSplitting_one.
    next_perf purgeCss_one.
    apply post_bind, post_getL, post_liftW, post_log. intros w8. cbn [fst snd].
    apply post_ret. eexists. split; [reflexivity|]. cbn [snd].
    repeat (eapply perfOneMore_tally; [|eassumption]). apply perfTally_start. }
  unfold post in H. destruct (Perf.applyPerfOptimizations h workDir w) as [res w'].
  destruct H as (r & E & T). simpl in E. subst res. eauto.
Qed.

Lemma applySeoOptimizations_tally (w : World) :
  exists r w', Seo.applySeoOptimizations h workDir siteUrl w = (Ok r, w') /\ seoTally 6 r.
Proof.
  assert (post (Seo.applySeoOptimizations h workDir siteUrl) w
            (fun res _ => exists r, res = Ok r /\ seoTally 6 r)) as H.
  { unfold Seo.applySeoOptimizations.
    apply post_bind, post_withLocal, post_bind, post_liftW, post_log. intros w0. cbn [fst snd].
    next_seo optimizeMetaTags_one. next_seo optimizeRobotsTxt_one.
    next_seo optimizeSitemap_one. next_seo addStructuredData_one.
    next_seo addCanonicalUrls_one. next_seo checkImageAltTexts_one.
    apply post_bind, post_getL, post_liftW, post_log. intros w8. cbn [fst snd].
    apply post_ret. eexists. split; [reflexivity|]. cbn [snd].
    repeat (eapply seoOneMore_tally; [|eassumption]). apply seoTally_start. }
  unfold post in H. destruct (Seo.applySeoOptimizations h workDir siteUrl w) as [res w'].
  destruct H as (r & E & T). simpl in E. subst res. eauto.
Qed.

(** C7.  Every sub-step of the two patch sets returns normally having added
    exactly one entry to exactly one of the three lists, an applied entry
    never being one of the descriptions recorded as skipped; a run of the
    performance set therefore ends with seven entries, a run of the SEO set
    with six, and no description stands in both [applied] and [skipped]. *)
Theorem patch_steps_record_once :
  forall (w : World),
    Forall perfSubStep
      [ Perf.optimizeNextConfig h workDir; Perf.optimizeImages h workDir;
        Perf.optimizeFonts h workDir; Perf.optimizeCacheHeaders workDir;
        Perf.optimizeBundle h workDir; Perf.optimizeCodeSplitting h workDir;
        Perf.purgeCss workDir ] /\
    Forall seoSubStep
      [ Seo.optimizeMetaTags h workDir siteUrl; Seo.optimizeRobotsTxt workDir siteUrl;
        Seo.optimizeSitemap workDir siteUrl; Seo.addStructuredData workDir siteUrl;
        Seo.addCanonicalUrls h workDir siteUrl; Seo.checkImageAltTexts h workDir ] /\
    (exists r w',
       Perf.applyPerfOptimizations h workDir w = (Ok r, w') /\
       (length (Perf.applied r) + length (Perf.skipped r) + length (Perf.errors r) = 7)%nat /\
       forall msg, In msg (Perf.applied r) -> ~ In msg (Perf.skipped r)) /\
    (exists r w',
       Seo.applySeoOptimizations h workDir siteUrl w = (Ok r, w') /\
       (length (Seo.applied r) + length (Seo.skipped r) + length (Seo.errors r) = 6)%nat /\
       forall msg, In msg (Seo.applied r) -> ~ In msg (Seo.skipped r)).
Proof.
  intros w. split; [|split; [|split]].
  - repeat constructor;
      auto using optimizeNextConfig_one, optimizeImages_one, optimizeFonts_one,
        optimizeCacheHeaders_one, optimizeBundle_one, optimizeCodeSplitting_one, purgeCss_one.
  - repeat constructor;
      auto using optimizeMetaTags_one, optimizeRobotsTxt_one, optimizeSitemap_one,
        addStructuredData_one, addCanonicalUrls_one, checkImageAltTexts_one.
  - destruct (applyPerfOptimizations_tally w) as (r & w' & E & T).
    exists r, w'. split; [exact E|]. split; [apply T | exact (perfTally_disjoint _ _ T)].
  - destruct (applySeoOptimizations_tally w) as (r & w' & E & T).
    exists r, w'. split; [exact E|]. split; [apply T | exact (seoTally_disjoint _ _ T)].
Qed.

(** *** The code-splitting advisory step *)

Lemma scanTree_in_files (skip pattern : string -> bool) (dir : string) (f : FS) (p : string) :
  In p (scanTree skip pattern dir f) -> is_Some (files f !! p).
Proof.
  unfold scanTree. intros H. apply filter_In in H as [H _].
  apply in_map_iff in H as ([p' x] & E & H). simpl in E. subst p'.
  apply list_elem_of_In, elem_of_map_to_list in H. eauto.
Qed.

(** The loop of the advisory step reads and does nothing else: it ends in
    the world it started from, normally if every file can be read. *)
Lemma advisory_loop (paths : list string) (count : nat) (w : World) :
  (forall p, In p paths -> is_Some (files (fs w) !! p)) ->
  exists res,
    forAcc paths count (fun file optimizedCount =>
      content <- readFile file ;;
      if regexTest h ("/import.*from.*['" +:+ dq +:+ "].*\/(Modal|Chart|Editor|Map)['"
                      +:+ dq +:+ "]/") content
      then ret optimizedCount
      else ret optimizedCount) w = (res, w) /\
    if forallb (readable (fs w)) paths then res = Ok count else exists e, res = Throw e.
Proof.
  revert count. induction paths as [|p paths IH]; intros count Hin.
  - exists (Ok count). split; reflexivity.
  - destruct (IH count (fun q Hq => Hin q (or_intror Hq))) as (res & E & Hres).
    destruct (Hin p (or_introl eq_refl)) as [content Hp].
    cbn [forAcc forallb]. unfold bind at 1. unfold bind at 1. unfold readFile, readable at 1.
    destruct (bool_decide (p ∈ unreadable (fs w))); cbn [negb andb].
    + eexists. split; [reflexivity|]. eauto.
    + rewrite Hp.
      destruct (regexTest h _ content); cbn [ret]; exists res; split; assumption.
Qed.

(** C8, as the code has it.  The advisory step returns normally in the very
    world it was started in (no file is written, created or removed), never
    adds to [applied], and records the manual-review entry under [skipped]
    when every source file it scans can be read; when one cannot, it
    records an entry under [errors] instead. *)
Theorem optimizeCodeSplitting_reads_only :
  forall (r : Perf.PerfOptimizationResult) (w : World),
  exists r',
    Perf.optimizeCodeSplitting h workDir (r, w) = (Ok tt, (r', w)) /\
    Perf.applied r' = Perf.applied r /\
    if forallb (readable (fs w)) (scanTree Perf.skipDir Perf.isTsxOrJsx workDir (fs w))
    then Perf.skipped r' = (Perf.skipped r ++ ["Code splitting - analyse manuelle requise"])%list
         /\ Perf.errors r' = Perf.errors r
    else Perf.skipped r' = Perf.skipped r
         /\ exists e, Perf.errors r' = (Perf.errors r ++ ["Code splitting - " +:+ e])%list.
Proof.
  intros r w.
  destruct (advisory_loop (scanTree Perf.skipDir Perf.isTsxOrJsx workDir (fs w)) 0 w
              (scanTree_in_files _ _ _ _)) as (res & E & Hres).
  pose (Q := fun (out : result unit) (s' : Perf.PerfOptimizationResult * World) =>
    out = Ok tt /\ snd s' = w /\ Perf.applied (fst s') = Perf.applied r /\
    if forallb (readable (fs w)) (scanTree Perf.skipDir Perf.isTsxOrJsx workDir (fs w))
    then Perf.skipped (fst s')
         = (Perf.skipped r ++ ["Code splitting - analyse manuelle requise"])%list
         /\ Perf.errors (fst s') = Perf.errors r
    else Perf.skipped (fst s') = Perf.skipped r
         /\ exists e, Perf.errors (fst s') = (Perf.errors r ++ ["Code splitting - " +:+ e])%list).
  assert (post (Perf.optimizeCodeSplitting h workDir) (r, w) Q) as H.
  { unfold Perf.optimizeCodeSplitting, Perf.pushSkipped, Perf.pushError.
    apply post_tryCatch, post_bind.
    eapply post_liftW_eq; [reflexivity|]. cbn [fst snd].
    apply post_bind. eapply post_liftW_eq; [exact E|]. cbn [fst snd].
    unfold Q. destruct (forallb _ _).
    - subst res. apply post_modifyL. simpl. auto.
    - destruct Hres as [e ->]. apply post_modifyL. simpl. eauto 6. }
  unfold post, Q in H.
  destruct (Perf.optimizeCodeSplitting h workDir (r, w)) as [out [r' w']].
  cbn [fst snd] in H. destruct H as (-> & -> & H). exists r'. split; [reflexivity | exact H].
Qed.

End WithHost.

(** On a tree with a source file that cannot be read, the advisory step
    records no manual-review entry: its only record is an error. *)
Lemma optimizeCodeSplitting_unreadable_file :
  Perf.optimizeCodeSplitting Scenario.allGood "/w" (Perf.emptyResult, Scenario.lockedTree)
  = (Ok tt,
     ({| Perf.applied := []; Perf.skipped := [];
         Perf.errors :=
           ["Code splitting - EACCES: permission denied, open '/w/app/page.tsx'"] |},
      Scenario.lockedTree)).
Proof. vm_compute. reflexivity. Qed.

(** On an empty tree the manual-review entry is recorded. *)
Example optimizeCodeSplitting_empty_tree :
  Perf.skipped (fst (snd (Perf.optimizeCodeSplitting Scenario.allGood "/w"
                            (Perf.emptyResult, Scenario.freshWorld))))
  = ["Code splitting - analyse manuelle requise"].
Proof. vm_compute. reflexivity. Qed.

End PatchFacts.

(** ** What a computation leaves as it is *)

Module TraceFacts.
Import Js Sys Spec SysFacts.

Section Keeps.
Context {S : Type} (R : S -> S -> Prop) {Hrefl : Reflexive R} {Htrans : Transitive R}.

Lemma keeps_ret {A : Type} (a : A) : keeps R (ret a : M S A).
Proof. intros s. apply Hrefl. Qed.

Lemma keeps_throw {A : Type} (e : string) : keeps R (throw e : M S A).
Proof. intros s. apply Hrefl. Qed.

Lemma keeps_bind {A B : Type} (m : M S A) (k : A -> M S B) :
  keeps R m -> (forall a, keeps R (k a)) -> keeps R (bind m k).
Proof.
  intros Hm Hk s. specialize (Hm s). unfold bind.
  destruct (m s) as [[a|e] s']; simpl in *; [|exact Hm].
  exact (Htrans _ _ _ Hm (Hk a s')).
Qed.

Lemma keeps_tryCatch {A : Type} (body : M S A) (handler : string -> M S A) :
  keeps R body -> (forall e, keeps R (handler e)) -> keeps R (tryCatch body handler).
Proof.
  intros Hm Hk s. specialize (Hm s). unfold tryCatch.
  destruct (body s) as [[a|e] s']; simpl in *; [exact Hm|].
  exact (Htrans _ _ _ Hm (Hk e s')).
Qed.

Lemma keeps_forAcc {A B : Type} (xs : list A) (acc : B) (body : A -> B -> M S B) :
  (forall x b, keeps R (body x b)) -> keeps R (forAcc xs acc body).
Proof.
  intros Hb. revert acc. induction xs as [|x xs IH]; intros acc; cbn [forAcc].
  - apply keeps_ret.
  - apply keeps_bind; [apply Hb | intros b; apply IH].
Qed.

End Keeps.

Lemma grows_same (P : ExecRecord -> Prop) (w w' : World) :
  commands w' = commands w -> grows P w w'.
Proof. intros E. exists []. rewrite E, app_nil_r. split; [reflexivity | constructor]. Qed.

Lemma grows_one (P : ExecRecord -> Prop) (w w' : World) (r : ExecRecord) :
  commands w' = (commands w ++ [r])%list -> P r -> grows P w w'.
Proof. intros E Hr. exists [r]. split; [exact E | repeat constructor; exact Hr]. Qed.

#[export] Instance grows_refl (P : ExecRecord -> Prop) : Reflexive (grows P).
Proof. intros w. apply grows_same. reflexivity. Qed.

#[export] Instance grows_trans (P : ExecRecord -> Prop) : Transitive (grows P).
Proof.
  intros a b c (e1 & E1 & F1) (e2 & E2 & F2). exists (e1 ++ e2)%list. split.
  - rewrite E2, E1, <- app_assoc. reflexivity.
  - apply Forall_app. split; assumption.
Qed.

#[export] Instance growsL_refl {L : Type} (P : ExecRecord -> Prop) : Reflexive (@growsL L P).
Proof. intros s. apply grows_refl. Qed.

#[export] Instance growsL_trans {L : Type} (P : ExecRecord -> Prop) : Transitive (@growsL L P).
Proof. intros a b c. apply grows_trans. Qed.

Lemma sameButWarnings_refl (r : Optimizer.OptimizationReport) : sameButWarnings r r.
Proof. repeat split. Qed.

Lemma sameButWarnings_trans (a b c : Optimizer.OptimizationReport) :
  sameButWarnings a b -> sameButWarnings b c -> sameButWarnings a c.
Proof.
  unfold sameButWarnings. intros H1 H2.
  repeat match goal with H : _ /\ _ |- _ => destruct H end.
  repeat split; congruence.
Qed.

#[export] Instance warnsOnly_refl (P : ExecRecord -> Prop) : Reflexive (warnsOnly P).
Proof. intros s. split; [apply sameButWarnings_refl | apply grows_refl]. Qed.

#[export] Instance warnsOnly_trans (P : ExecRecord -> Prop) : Transitive (warnsOnly P).
Proof.
  intros a b c [H1 G1] [H2 G2]. split.
  - exact (sameButWarnings_trans _ _ _ H1 H2).
  - exact (grows_trans P _ _ _ G1 G2).
Qed.

Section Primitives.
Variable P : ExecRecord -> Prop.

Lemma keeps_log (line : string) : keeps (grows P) (log line).
Proof. intros w. apply grows_same. reflexivity. Qed.

Lemma keeps_fileExists (p : string) : keeps (grows P) (fileExists p).
Proof. intros w. apply grows_same. reflexivity. Qed.

Lemma keeps_readFile (p : string) : keeps (grows P) (readFile p).
Proof.
  intros w. apply grows_same. unfold readFile.
  destruct (bool_decide _); [reflexivity|]. destruct (files (fs w) !! p); reflexivity.
Qed.

Lemma keeps_writeFile (p content : string) : keeps (grows P) (writeFile p content).
Proof.
  intros w. apply grows_same. unfold writeFile. destruct (bool_decide _); reflexivity.
Qed.

Lemma keeps_mkdir (p : string) : keeps (grows P) (mkdir p).
Proof. intros w. apply grows_same. unfold mkdir. destruct (bool_decide _); reflexivity. Qed.

Lemma keeps_DateNow (h : Host) : keeps (grows P) (DateNow h).
Proof. intros w. apply grows_same. reflexivity. Qed.

Lemma keeps_isoNow (h : Host) : keeps (grows P) (isoNow h).
Proof. intros w. apply grows_same. reflexivity. Qed.

Lemma keeps_execAsync (h : Host) (command : string) (dir : option string) :
  (forall ok, P {| cmd := command; cwd := dir; succeeded := ok |}) ->
  keeps (grows P) (execAsync h command dir).
Proof.
  intros HP w. unfold execAsync.
  destruct (exec h (clock w) command dir (fs w)) as [[so|se] f'];
    (eapply grows_one; [reflexivity | apply HP]).
Qed.

Lemma keeps_liftW {L A : Type} (m : M World A) :
  keeps (grows P) m -> keeps (@growsL L P) (liftW m).
Proof.
  intros H [l w]. specialize (H w). unfold growsL, liftW. cbn [fst snd].
  destruct (m w) as [r w']. exact H.
Qed.

Lemma keeps_modifyL {L : Type} (f : L -> L) : keeps (@growsL L P) (modifyL f).
Proof. intros s. apply grows_refl. Qed.

Lemma keeps_getL {L : Type} : keeps (@growsL L P) getL.
Proof. intros s. apply grows_refl. Qed.

Lemma keeps_withLocal {L A : Type} (init : L) (m : M (L * World) A) :
  keeps (@growsL L P) m -> keeps (grows P) (withLocal init m).
Proof.
  intros H w. specialize (H (init, w)). unfold growsL, withLocal in *. cbn [fst snd] in H.
  destruct (m (init, w)) as [[a|e] [l w']]; exact H.
Qed.

Lemma keeps_liftW_report {A : Type} (m : M World A) :
  keeps (grows P) m -> keeps (warnsOnly P) (liftW m).
Proof.
  intros H [l w]. specialize (H w). unfold warnsOnly, liftW. cbn [fst snd].
  destruct (m w) as [r w']. split; [apply sameButWarnings_refl | exact H].
Qed.

Lemma keeps_pushWarning (msg : string) :
  keeps (warnsOnly P) (modifyL (Optimizer.pushWarning msg)).
Proof. intros s. split; [repeat split | apply grows_refl]. Qed.

Lemma keeps_getL_report : keeps (warnsOnly P) getL.
Proof. intros s. apply warnsOnly_refl. Qed.

End Primitives.

(** Going through a computation piece by piece. *)
Ltac keeps_step :=
  lazymatch goal with
  | |- keeps _ (bind _ _) => apply keeps_bind; [exact _ | | intros ?]
  | |- keeps _ (tryCatch _ _) => apply keeps_tryCatch; [exact _ | | intros ?]
  | |- keeps _ (ret _) => apply keeps_ret; exact _
  | |- keeps _ (throw _) => apply keeps_throw; exact _
  | |- keeps _ (forAcc _ _ _) => apply keeps_forAcc; [exact _ | exact _ | intros ? ?]
  | |- keeps (warnsOnly _) (liftW _) => apply keeps_liftW_report
  | |- keeps _ (liftW _) => apply keeps_liftW
  | |- keeps (warnsOnly _) (modifyL (Optimizer.pushWarning _)) => apply keeps_pushWarning
  | |- keeps (warnsOnly _) getL => apply keeps_getL_report
  | |- keeps _ (modifyL _) => apply keeps_modifyL
  | |- keeps _ getL => apply keeps_getL
  | |- keeps _ (withLocal _ _) => apply keeps_withLocal
  | |- keeps _ (log _) => apply keeps_log
  | |- keeps _ (fileExists _) => apply keeps_fileExists
  | |- keeps _ (readFile _) => apply keeps_readFile
  | |- keeps _ (writeFile _ _) => apply keeps_writeFile
  | |- keeps _ (mkdir _) => apply keeps_mkdir
  | |- keeps _ (DateNow _) => apply keeps_DateNow
  | |- keeps _ (isoNow _) => apply keeps_isoNow
  | |- keeps _ (execAsync _ _ _) => apply keeps_execAsync; intros ?
  | |- keeps _ (parseJson _ _) => unfold parseJson
  | |- keeps _ (getProp _ _) => unfold getProp
  | |- keeps _ (getPropOf _ _) => unfold getPropOf
  | |- keeps _ (setProp _ _ _) => unfold setProp
  | |- keeps _ (if ?b then _ else _) => destruct b
  | |- keeps _ (match ?x with _ => _ end) => destruct x
  | |- keeps _ (let '(_, _) := ?x in _) => destruct x
  end.

Ltac keeps_all := repeat first [ keeps_step | progress cbn beta iota zeta ].

Section PatchSets.
Variable h : Host.
Variable workDir siteUrl : string.

Lemma keeps_findFiles_perf (P : ExecRecord -> Prop) (dir : string) (pattern : string -> bool) :
  keeps (grows P) (Perf.findFiles dir pattern).
Proof. intros w. apply grows_same. reflexivity. Qed.

Lemma keeps_findFiles_seo (P : ExecRecord -> Prop) (dir : string) (pattern : string -> bool) :
  keeps (grows P) (Seo.findFiles dir pattern).
Proof. intros w. apply grows_same. reflexivity. Qed.

Lemma keeps_firstExisting (P : ExecRecord -> Prop) (paths : list string) :
  keeps (grows P) (Seo.firstExisting paths).
Proof.
  induction paths as [|p paths IH]; cbn [Seo.firstExisting].
  - keeps_step.
  - keeps_step; [apply keeps_fileExists|].
    destruct a; [keeps_step | exact IH].
Qed.

(** The performance patch set starts no subprocess. *)
Lemma applyPerfOptimizations_quiet :
  keeps (grows noCommand) (Perf.applyPerfOptimizations h workDir).
Proof.
  unfold Perf.applyPerfOptimizations, Perf.optimizeNextConfig, Perf.optimizeImages,
    Perf.optimizeFonts, Perf.optimizeCacheHeaders, Perf.optimizeBundle,
    Perf.optimizeCodeSplitting, Perf.purgeCss, Perf.pushApplied, Perf.pushSkipped,
    Perf.pushError.
  keeps_all; apply keeps_findFiles_perf.
Qed.

(** Nor does the SEO patch set. *)
Lemma applySeoOptimizations_quiet :
  keeps (grows noCommand) (Seo.applySeoOptimizations h workDir siteUrl).
Proof.
  unfold Seo.applySeoOptimizations, Seo.optimizeMetaTags, Seo.optimizeRobotsTxt,
    Seo.optimizeSitemap, Seo.addStructuredData, Seo.addCanonicalUrls,
    Seo.checkImageAltTexts, Seo.pushApplied, Seo.pushSkipped, Seo.pushError.
  keeps_all; first [apply keeps_findFiles_seo | apply keeps_firstExisting].
Qed.

End PatchSets.
End TraceFacts.

(** ** The stages of the pipeline *)

Module StageFacts.
Import Js Sys Spec SysFacts TraceFacts.

Lemma total_throwless_getL {L : Type} : total (getL : M (L * World) L).
Proof. intros s. eauto. Qed.

Lemma total_fileExists (p : string) : total (fileExists p).
Proof. intros w. eauto. Qed.

Lemma total_DateNow (h : Host) : total (DateNow h).
Proof. intros w. eauto. Qed.

Lemma total_isoNow (h : Host) : total (isoNow h).
Proof. intros w. eauto. Qed.

Ltac total_step :=
  lazymatch goal with
  | |- total (bind _ _) => apply total_bind; [| intros ?]
  | |- total (tryCatch _ _) => apply total_tryCatch; intros ?
  | |- total (ret _) => apply total_ret
  | |- total (liftW _) => apply total_liftW
  | |- total (modifyL _) => apply total_modifyL
  | |- total getL => apply total_throwless_getL
  | |- total (withLocal _ _) => apply total_withLocal
  | |- total (log _) => apply total_log
  | |- total (fileExists _) => apply total_fileExists
  | |- total (DateNow _) => apply total_DateNow
  | |- total (isoNow _) => apply total_isoNow
  | |- total (if ?b then _ else _) => destruct b
  | |- total (match ?x with _ => _ end) => destruct x
  end.

Ltac total_all := repeat first [ total_step | progress cbn beta iota zeta ].

(** A command line that is none of the fetch or build commands makes a
    record that is not a fatal failure, whether it succeeds or not. *)
Lemma nonFatal_other (command : string) (dir : option string) (ok : bool) :
  startsWith command "git clone " = false ->
  startsWith command "scp " = false ->
  String.eqb command "npm run build" = false ->
  nonFatal {| cmd := command; cwd := dir; succeeded := ok |}.
Proof.
  intros H1 H2 H3. unfold nonFatal, fatalFailure, isClone, isSecureCopy, isBuild.
  cbn [cmd succeeded]. rewrite H1, H2, H3. apply andb_false_r.
Qed.

Lemma nonFatal_succeeded (command : string) (dir : option string) :
  nonFatal {| cmd := command; cwd := dir; succeeded := true |}.
Proof. reflexivity. Qed.

Ltac other_command :=
  repeat match goal with |- context [if ?b then _ else _] => destruct b end;
  apply nonFatal_other; reflexivity.

Lemma grows_weaken (P P' : ExecRecord -> Prop) (w w' : World) :
  (forall r, P r -> P' r) -> grows P w w' -> grows P' w w'.
Proof.
  intros H (extra & E & F). exists extra. split; [exact E|].
  eapply Forall_impl; [exact F | exact H].
Qed.

Lemma grows_quiet (P : ExecRecord -> Prop) (w w' : World) :
  grows noCommand w w' -> grows P w w'.
Proof. apply grows_weaken. intros r []. Qed.

Lemma post_total_keeps {S A : Type} (R : S -> S -> Prop) (m : M S A) (s : S)
    (Q : result A -> S -> Prop) :
  total m -> keeps R m -> (forall a s', R s s' -> Q (Ok a) s') -> post m s Q.
Proof.
  intros T K H. unfold post. specialize (K s). destruct (T s) as (a & s' & E).
  rewrite E in *. apply H. exact K.
Qed.

Section WithHost.
Variable h : Host.

(** *** The audit runner *)

Lemma runLighthouse_total (url : string) (preset : Audit.Preset) :
  total (Audit.runLighthouse h url preset).
Proof. unfold Audit.runLighthouse. total_all. Qed.

Lemma runLighthouse_trace (url : string) (preset : Audit.Preset) :
  keeps (grows nonFatal) (Audit.runLighthouse h url preset).
Proof. unfold Audit.runLighthouse. keeps_all. other_command. Qed.

Lemma analyzeBundles_total (buildDir : string) : total (Audit.analyzeBundles h buildDir).
Proof. unfold Audit.analyzeBundles. total_all. Qed.

Lemma analyzeBundles_quiet (buildDir : string) :
  keeps (grows noCommand) (Audit.analyzeBundles h buildDir).
Proof.
  unfold Audit.analyzeBundles, Audit.writeBundleReport. keeps_all.
  intros w. apply grows_same. reflexivity.
Qed.

(** With the scorer down the [try] block always ends in the handler, which
    builds the all-zero result. *)
Lemma runLighthouse_down (url : string) (preset : Audit.Preset) (w : World) :
  auditToolDown h ->
  post (Audit.runLighthouse h url preset) w
    (fun r _ => forall x, r = Ok x ->
       Audit.scores x = Audit.zeroScores /\ Audit.metrics x = Audit.noMetrics).
Proof.
  intros Hdown.
  assert (forall e w1,
    post (log ("Erreur lors de l'audit Lighthouse (" +:+ Audit.presetName preset +:+ "): " +:+ e) ;;;
          now <- isoNow h ;;
          ret {| Audit.url := url; Audit.device := preset;
                 Audit.scores := {| Audit.performance := 0; Audit.accessibility := 0;
                                    Audit.bestPractices := 0; Audit.seo := 0 |};
                 Audit.metrics := Audit.noMetrics; Audit.timestamp := now |}) w1
      (fun r _ => forall x, r = Ok x ->
         Audit.scores x = Audit.zeroScores /\ Audit.metrics x = Audit.noMetrics)) as Hhandler.
  { intros e w1. unfold post. cbn. intros x [= <-]. split; reflexivity. }
  unfold Audit.runLighthouse. apply post_tryCatch, post_bind.
  unfold post at 1. unfold mkdir. destruct (bool_decide _); cbn [fst snd]; [apply Hhandler|].
  apply post_bind. unfold post at 1. cbn [DateNow fst snd].
  apply post_bind. unfold post at 1. cbn [log fst snd].
  apply post_bind. unfold post at 1. unfold execAsync.
  match goal with
  | |- context [exec h ?t ?c ?d ?f] =>
      destruct (Hdown t c d f eq_refl) as (stderr & f' & E); rewrite E
  end.
  cbn [fst snd]. apply Hhandler.
Qed.

Lemma runLighthouse_spec (url : string) (preset : Audit.Preset) (w : World) :
  post (Audit.runLighthouse h url preset) w
    (fun r w' => exists x, r = Ok x /\ grows nonFatal w w' /\ zeroWhenDown h x).
Proof.
  pose proof (runLighthouse_trace url preset w) as K.
  destruct (runLighthouse_total url preset w) as (x & w' & E).
  unfold post. rewrite E in *. exists x. split; [reflexivity|]. split; [exact K|].
  intros Hdown. pose proof (runLighthouse_down url preset w Hdown) as D.
  unfold post in D. rewrite E in D. apply (D x eq_refl).
Qed.

(** Every call of the audit runner returns a result.  It starts the scorer
    at most once, and when that subprocess fails (or is never started) the
    result carries the all-zero score. *)
Lemma runLighthouse_call (url : string) (preset : Audit.Preset) (w : World) :
  exists x w',
    Audit.runLighthouse h url preset w = (Ok x, w') /\
    (commands w' = commands w /\ Audit.scores x = Audit.zeroScores
     \/ exists rec,
          commands w' = (commands w ++ [rec])%list /\
          startsWith (cmd rec) "npx lighthouse " = true /\
          (succeeded rec = false -> Audit.scores x = Audit.zeroScores)).
Proof.
  pose (Q := fun (r : result Audit.LighthouseResult) (w' : World) =>
    exists x, r = Ok x /\
    (commands w' = commands w /\ Audit.scores x = Audit.zeroScores
     \/ exists rec,
          commands w' = (commands w ++ [rec])%list /\
          startsWith (cmd rec) "npx lighthouse " = true /\
          (succeeded rec = false -> Audit.scores x = Audit.zeroScores))).
  assert (post (Audit.runLighthouse h url preset) w Q) as H.
  { unfold Audit.runLighthouse. apply post_tryCatch, post_bind.
    unfold post at 1. unfold mkdir. destruct (bool_decide _); cbn [fst snd].
    { unfold post, Q. cbn. eexists. split; [reflexivity|]. left. split; reflexivity. }
    apply post_bind. unfold post at 1. cbn [DateNow fst snd].
    apply post_bind. unfold post at 1. cbn [log fst snd].
    apply post_bind. unfold post at 1. unfold execAsync.
    match goal with
    | |- context [exec h ?t ?c ?d ?f] => destruct (exec h t c d f) as [[stdout|stderr] f']
    end; cbn [fst snd].
    - match goal with |- post ?m ?s ?Q' =>
        apply (post_mono m s (fun _ s' => grows noCommand s s'))
      end.
      + match goal with |- post ?m ?s _ => assert (keeps (grows noCommand) m) as K end.
        { keeps_all. }
        apply K.
      + intros r s' (extra & E & F).
        assert (extra = []) as -> by (destruct F as [|? ? []]; reflexivity).
        rewrite app_nil_r in E. cbn [commands] in E.
        assert (forall x w'', commands w'' = commands s' -> Q (Ok x) w'') as HQ.
        { intros x w'' E'. exists x. split; [reflexivity|]. right. eexists.
          split; [rewrite E', E; reflexivity|]. split; [reflexivity|]. discriminate. }
        destruct r as [x|e]; [apply HQ; reflexivity|].
        unfold post. cbn. apply HQ. reflexivity.
    - unfold post, Q. cbn. eexists. split; [reflexivity|]. right. eexists.
      split; [reflexivity|]. split; [reflexivity|]. intros _. reflexivity. }
  unfold post, Q in H. destruct (Audit.runLighthouse h url preset w) as [r w'].
  destruct H as (x & E & H). cbn [fst snd] in *. subst r. eauto.
Qed.

(** *** The stages of the orchestrator *)

Lemma normalize_nonempty (p : string) : normalize p <> "".
Proof.
  unfold normalize. destruct (String.eqb p ""); [discriminate|].
  destruct (String.eqb _ "") eqn:E.
  - destruct (startsWith p "/"); [discriminate|]. destruct (endsWith p "/"); discriminate.
  - apply String.eqb_neq in E. destruct (startsWith p "/"); [discriminate|].
    destruct (join "/" _); [congruence | discriminate].
Qed.

Lemma pathJoin_nonempty (a b : string) : pathJoin a b <> "".
Proof.
  unfold pathJoin. destruct (String.eqb a ""); [apply normalize_nonempty|].
  destruct (String.eqb b ""); apply normalize_nonempty.
Qed.

(** Allocation of the working directory starts no subprocess; the path it
    returns is not the empty string the report starts with. *)
Lemma prepareWorkingDirectory_spec (config : Optimizer.OptimizationConfig) (w : World) :
  post (Optimizer.prepareWorkingDirectory h config) w
    (fun r w' => commands w' = commands w /\
                 match r with Ok d => d <> "" | Throw _ => True end).
Proof.
  unfold Optimizer.prepareWorkingDirectory, post, bind, DateNow, mkdir, log. cbn [fst snd tick fs].
  destruct (bool_decide _); cbn; split; auto using pathJoin_nonempty.
Qed.

(** The source fetch either succeeds, for a supported transport and having
    started only its own subprocess, or throws: for an unsupported type
    before anything is started, otherwise because its clone or secure-copy
    subprocess failed. *)
Lemma fetchSources_spec (config : Optimizer.OptimizationConfig) (d : string) (w : World) :
  post (Optimizer.fetchSources h config d) w
    (fun r w' =>
       match r with
       | Ok _ => supportedType (Optimizer.connectionData config) = true /\
                 exists rec, commands w' = (commands w ++ [rec])%list /\ succeeded rec = true
       | Throw _ =>
           (supportedType (Optimizer.connectionData config) = false /\
            commands w' = commands w)
           \/ exists rec, commands w' = (commands w ++ [rec])%list /\ succeeded rec = false /\
                          isClone rec || isSecureCopy rec = true
       end).
Proof.
  unfold Optimizer.fetchSources, supportedType.
  destruct (String.eqb (Connection.type (Optimizer.connectionData config)) "git") eqn:Egit.
  - unfold post, bind, log, execAsync. cbn [fst snd fs clock console commands].
    match goal with
    | |- context [exec h ?t ?c ?dir ?f] => destruct (exec h t c dir f) as [[so|se] f']
    end; cbn [fst snd commands].
    + split; [reflexivity|]. eexists. split; reflexivity.
    + right. eexists. split; [reflexivity|]. split; reflexivity.
  - cbn [orb].
    destruct (String.eqb (Connection.type (Optimizer.connectionData config)) "ssh"
              || String.eqb (Connection.type (Optimizer.connectionData config)) "sftp") eqn:Essh.
    + unfold post, bind, tryCatch, log, execAsync. cbn [fst snd fs clock console commands].
      match goal with
      | |- context [exec h ?t ?c ?dir ?f] => destruct (exec h t c dir f) as [[so|se] f']
      end; cbn [fst snd commands throw].
      * split; [reflexivity|]. eexists. split; reflexivity.
      * right. eexists. split; [reflexivity|]. split; reflexivity.
    + unfold post. cbn. left. split; reflexivity.
Qed.

Lemma createOptimizationBranch_total (workDir branchName : string) :
  total (Optimizer.createOptimizationBranch h workDir branchName).
Proof. unfold Optimizer.createOptimizationBranch. total_all. Qed.

Lemma createOptimizationBranch_trace (workDir branchName : string) :
  keeps (grows nonFatal) (Optimizer.createOptimizationBranch h workDir branchName).
Proof. unfold Optimizer.createOptimizationBranch. keeps_all. other_command. Qed.

Lemma installDependencies_total (workDir : string) :
  total (Optimizer.installDependencies h workDir).
Proof. unfold Optimizer.installDependencies. total_all. Qed.

Lemma installDependencies_trace (workDir : string) :
  keeps (grows nonFatal) (Optimizer.installDependencies h workDir).
Proof. unfold Optimizer.installDependencies. keeps_all. other_command. Qed.

Lemma runQualityChecks_total (workDir : string) : total (Optimizer.runQualityChecks h workDir).
Proof. unfold Optimizer.runQualityChecks. total_all. Qed.

Lemma runQualityChecks_trace (workDir : string) :
  keeps (warnsOnly nonFatal) (Optimizer.runQualityChecks h workDir).
Proof. unfold Optimizer.runQualityChecks. keeps_all; other_command. Qed.

Lemma commitChanges_total (workDir : string) (config : Optimizer.OptimizationConfig) :
  total (Optimizer.commitChanges h workDir config).
Proof. unfold Optimizer.commitChanges. total_all. Qed.

Lemma commitChanges_trace (workDir : string) (config : Optimizer.OptimizationConfig) :
  keeps (warnsOnly nonFatal) (Optimizer.commitChanges h workDir config).
Proof. unfold Optimizer.commitChanges. keeps_all; other_command. Qed.

Lemma createPullRequest_total (workDir : string) (config : Optimizer.OptimizationConfig) :
  total (Optimizer.createPullRequest h workDir config).
Proof. unfold Optimizer.createPullRequest. total_all. Qed.

Lemma createPullRequest_trace (workDir : string) (config : Optimizer.OptimizationConfig) :
  keeps (warnsOnly nonFatal) (Optimizer.createPullRequest h workDir config).
Proof. unfold Optimizer.createPullRequest. keeps_all; other_command. Qed.

(** The build either succeeds and leaves the report alone, or records its
    message in [errors] and throws it again. *)
Lemma buildProject_spec (workDir : string) (r : Optimizer.OptimizationReport) (w : World) :
  post (Optimizer.buildProject h workDir) (r, w)
    (fun res s' =>
       exists rec, commands (snd s') = (commands w ++ [rec])%list /\ isBuild rec = true /\
       match res with
       | Ok _ => fst s' = r /\ succeeded rec = true
       | Throw e => fst s' = Optimizer.pushError e r /\ succeeded rec = false
       end).
Proof.
  unfold Optimizer.buildProject, post, bind, tryCatch, liftW, log, execAsync, modifyL, throw.
  cbn [fst snd fs clock console commands].
  destruct (exec h (clock w) "npm run build" (Some workDir) (fs w)) as [[so|se] f'];
    cbn [fst snd commands]; eexists; (split; [reflexivity|]); split; try reflexivity;
    split; reflexivity.
Qed.

Lemma validateScores_warns (config : Optimizer.OptimizationConfig)
    (r : Optimizer.OptimizationReport) :
  sameButWarnings r (Optimizer.validateScores config r).
Proof.
  unfold Optimizer.validateScores. destruct (Optimizer.after (Optimizer.lighthouse r));
    [|apply sameButWarnings_refl].
  repeat match goal with |- context [if ?b then _ else _] => destruct b end;
    repeat split.
Qed.

End WithHost.
End StageFacts.

(** ** The pipeline as a whole *)

Module PipelineFacts.
Import Js Sys Spec SysFacts TraceFacts StageFacts.

Lemma post_stage {L A : Type} (P : ExecRecord -> Prop) (m : M World A) (s : L * World)
    (Q : result A -> L * World -> Prop) :
  total m -> keeps (grows P) m ->
  (forall a w', grows P (snd s) w' -> Q (Ok a) (fst s, w')) ->
  post (liftW m) s Q.
Proof.
  intros T K H. apply post_liftW. apply (post_total_keeps (grows P)); assumption.
Qed.

Lemma all_nonFatal (extra : list ExecRecord) :
  Forall nonFatal extra -> existsb fatalFailure extra = false.
Proof.
  induction 1 as [|r extra Hr _ IH]; [reflexivity|]. cbn [existsb]. rewrite Hr, IH. reflexivity.
Qed.

Lemma keeps_log_line (P : ExecRecord -> Prop) (line : string) : keeps (grows P) (log line).
Proof. apply keeps_log. Qed.

(** Folding the subprocesses of one more stage into those of the run. *)
Ltac advance G G' :=
  first [ apply grows_quiet with (P := nonFatal) in G' | idtac ];
  apply (grows_trans nonFatal _ _ _ G) in G'; clear G; rename G' into G.

(** A stage on the world that cannot throw. *)
Ltac stage T K G :=
  apply post_bind; eapply (post_stage _ _ _ _ T K); cbn [fst snd];
  let a := fresh "a" in let w := fresh "w" in let G' := fresh "G" in
  intros a w G'; advance G G'.

(** An audit: its result and what is known of it. *)
Ltac audit G :=
  apply post_bind; eapply post_liftW, post_mono; [apply runLighthouse_spec|];
  cbn [fst snd];
  let r := fresh "r" in let w := fresh "w" in let G' := fresh "G" in
  intros r w (x & -> & G' & Z); advance G G';
  apply post_bind, post_modifyL; cbn [fst snd].

(** A stage on the report that cannot throw and adds warnings at most. *)
Ltac report_stage T K G :=
  apply post_bind; eapply (post_total_keeps (warnsOnly nonFatal) _ _ _ T K);
  let a := fresh "a" in let r := fresh "r" in let w := fresh "w" in
  let S := fresh "S" in let G' := fresh "G" in
  intros a [r w] [S G']; cbn [fst snd] in S, G'; advance G G'.

Section WithHost.
Variable h : Host.
Variable config : Optimizer.OptimizationConfig.

Lemma applyPerfOptimizations_total (workDir : string) :
  total (Perf.applyPerfOptimizations h workDir).
Proof.
  intros w. destruct (PatchFacts.applyPerfOptimizations_tally h workDir w) as (r & w' & E & _).
  eauto.
Qed.

Lemma applySeoOptimizations_total (workDir siteUrl : string) :
  total (Seo.applySeoOptimizations h workDir siteUrl).
Proof.
  intros w.
  destruct (PatchFacts.applySeoOptimizations_tally h workDir siteUrl w) as (r & w' & E & _).
  eauto.
Qed.

Lemma pipeline_try (w0 : World) :
  post (tryCatch (Optimizer.pipelineSteps h config) onAbort)
    (Optimizer.initialReport config, w0)
    (fun res s' =>
       res = Ok tt /\
       exists extra, commands (snd s') = (commands w0 ++ extra)%list /\
                     Outcome h config (fst s') extra).
Proof.
  set (Q := fun (res : result unit) (s' : Optimizer.OptimizationReport * World) =>
       res = Ok tt /\
       exists extra, commands (snd s') = (commands w0 ++ extra)%list /\
                     Outcome h config (fst s') extra).
  assert (forall e r w extra,
            commands w = (commands w0 ++ extra)%list ->
            Outcome h config (Optimizer.setSuccess false (Optimizer.pushError e r)) extra ->
            post (onAbort e) (r, w) Q) as Habort.
  { intros e r w extra E O. unfold post, Q. cbn. split; [reflexivity|]. exists extra. auto. }
  apply post_tryCatch. unfold Optimizer.pipelineSteps.
  (* 1. working directory *)
  apply post_bind. eapply post_liftW, post_mono; [apply prepareWorkingDirectory_spec|].
  cbn [fst snd]. intros [d|e] w1 [E1 Hd].
  2:{ apply (Habort e _ _ []); [rewrite app_nil_r; exact E1|].
      eapply aborted_at_workdir; reflexivity. }
  apply post_bind, post_modifyL. cbn [fst snd].
  (* 2. source fetch *)
  apply post_bind. eapply post_liftW, post_mono; [apply fetchSources_spec|].
  cbn [fst snd]. intros [[]|e] w2 H2.
  2:{ destruct H2 as [[Hs E2] | (rec & E2 & Hf & Hk)].
      - apply (Habort e _ _ []); [rewrite app_nil_r; congruence|].
        eapply aborted_at_fetch; try reflexivity; [exact Hd | left; auto].
      - apply (Habort e _ _ [rec]); [congruence|].
        eapply aborted_at_fetch; try reflexivity; [exact Hd | right; eauto]. }
  destruct H2 as (Hsup & rec2 & E2 & Hok2).
  assert (grows nonFatal w0 w2) as G.
  { exists [rec2]. split; [congruence|]. repeat constructor.
    unfold nonFatal, fatalFailure. rewrite Hok2. reflexivity. }
  clear E1 E2 Hok2 rec2 w1.
  (* 3. the audit before *)
  stage (total_log "📊 Audit avant optimisation...")
        (keeps_log_line noCommand "📊 Audit avant optimisation...") G.
  audit G.
  rename x into b. rename Z into Zb.
  (* 4-7. branch, dependencies, patch sets *)
  stage (createOptimizationBranch_total h d (Optimizer.optimizeBranch config))
        (createOptimizationBranch_trace h d (Optimizer.optimizeBranch config)) G.
  stage (installDependencies_total h d) (installDependencies_trace h d) G.
  stage (applyPerfOptimizations_total d) (applyPerfOptimizations_quiet h d) G.
  apply post_bind, post_modifyL; cbn [fst snd].
  stage (applySeoOptimizations_total d (Optimizer.siteUrl config))
        (applySeoOptimizations_quiet h d (Optimizer.siteUrl config)) G.
  apply post_bind, post_modifyL; cbn [fst snd].
  (* 8. quality checks *)
  report_stage (runQualityChecks_total h d) (runQualityChecks_trace h d) G.
  assert (Optimizer.workDir r = d /\ Optimizer.errors r = [] /\ Optimizer.diffs r = ∅ /\
          Optimizer.lighthouse r =
            {| Optimizer.before := Some b; Optimizer.after := None;
               Optimizer.mobile := None |}) as (F1 & F2 & F3 & F4).
  { unfold sameButWarnings in S. cbn in S. tauto. }
  clear S.
  (* 9. build *)
  apply post_bind. eapply post_mono; [apply buildProject_spec|].
  intros [[]|e] [r' w'] (rec & E & Hb & H); cbn [fst snd] in *.
  2:{ destruct H as [-> Hf]. destruct G as (earlier & E0 & F0).
      apply (Habort e _ _ (earlier ++ [rec])%list);
        [rewrite E, E0, <- app_assoc; reflexivity|].
      eapply aborted_at_build with (b := b) (earlier := earlier) (rec := rec);
        cbn; rewrite ?F1, ?F2, ?F3, ?F4;
        auto using all_nonFatal. }
  destruct H as [-> Hok].
  assert (grows nonFatal w0 w') as G'.
  { apply (grows_trans nonFatal _ _ _ G). eapply grows_one; [exact E|].
    unfold nonFatal, fatalFailure. rewrite Hok. reflexivity. }
  clear G E Hok Hb rec. rename G' into G.
  (* 10-11. bundle analysis and the audits after *)
  stage (analyzeBundles_total h d) (analyzeBundles_quiet h d) G.
  apply post_bind, post_modifyL; cbn [fst snd].
  stage (total_log "📊 Audit après optimisation...")
        (keeps_log_line noCommand "📊 Audit après optimisation...") G.
  audit G. rename x into a'. rename Z into Za.
  audit G. rename x into m. rename Z into Zm.
  (* 12-13. deltas and thresholds *)
  apply post_bind, post_modifyL; cbn [fst snd].
  cbn [Optimizer.setMobile Optimizer.setAfter Optimizer.setBundles Optimizer.setLighthouse
       Optimizer.lighthouse Optimizer.before Optimizer.after Optimizer.mobile].
  rewrite F4. cbn [Optimizer.before Optimizer.after Optimizer.mobile].
  apply post_bind, post_modifyL; cbn [fst snd].
  match goal with |- context [Optimizer.validateScores config ?r0] =>
    pose proof (validateScores_warns config r0) as V;
    set (r1 := r0) in *
  end.
  assert (Optimizer.workDir r1 = d /\ Optimizer.errors r1 = [] /\
          Optimizer.diffs r1 = Audit.compareAudits b a' /\
          Optimizer.lighthouse r1 =
            {| Optimizer.before := Some b; Optimizer.after := Some a';
               Optimizer.mobile := Some m |}) as F.
  { subst r1. cbn. rewrite F4. auto. }
  clearbody r1. clear F1 F2 F3 F4 r.
  assert (forall rf wf,
            Optimizer.workDir rf = Optimizer.workDir r1 /\
            Optimizer.errors rf = Optimizer.errors r1 /\
            Optimizer.diffs rf = Optimizer.diffs r1 /\
            Optimizer.lighthouse rf = Optimizer.lighthouse r1 ->
            grows nonFatal w0 wf ->
            Q (Ok tt) (Optimizer.setSuccess true rf, wf)) as Hdone.
  { intros rf wf (S1 & S2 & S3 & S4) (extra & E & Fe). split; [reflexivity|]. exists extra.
    split; [exact E|]. destruct F as (F1 & F2 & F3 & F4).
    apply completed with (b := b) (a := a') (m := m); cbn;
      auto using all_nonFatal; congruence. }
  (* 14. commit and push *)
  report_stage (commitChanges_total h d config) (commitChanges_trace h d config) G.
  pose proof (sameButWarnings_trans _ _ _ V S) as S'. clear V S.
  (* 15. change request *)
  destruct (Optimizer.preferPr config).
  - apply post_bind.
    report_stage (createPullRequest_total h d config) (createPullRequest_trace h d config) G.
    apply post_modifyL. cbn [fst snd].
    apply post_bind, post_modifyL. cbn [fst snd].
    eapply (post_stage noCommand); [apply total_log | apply keeps_log |].
    cbn [fst snd]. intros [] wf Gf. advance G Gf.
    apply Hdone; [|exact G].
    pose proof (sameButWarnings_trans _ _ _ S' S) as S''.
    unfold sameButWarnings in S''. cbn. tauto.
  - apply post_bind, post_ret.
    apply post_bind, post_modifyL. cbn [fst snd].
    eapply (post_stage noCommand); [apply total_log | apply keeps_log |].
    cbn [fst snd]. intros [] wf Gf. advance G Gf.
    apply Hdone; [|exact G]. unfold sameButWarnings in S'. tauto.
Qed.

(** Every run returns a report, and ends in one of the four ways
    [Outcome] lists. *)
Lemma pipeline_outcome (w : World) :
  exists report w' extra,
    Optimizer.runOptimizationPipeline h config w = (Ok report, w') /\
    commands w' = (commands w ++ extra)%list /\
    Outcome h config report extra.
Proof.
  assert (post (Optimizer.runOptimizationPipeline h config) w
            (fun r w' => exists report extra,
               r = Ok report /\ commands w' = (commands w ++ extra)%list /\
               Outcome h config report extra)) as H.
  { change (Optimizer.runOptimizationPipeline h config)
      with (log "🚀 Démarrage du pipeline d'optimisation..." ;;;
            out <- withLocal (Optimizer.initialReport config)
                     (tryCatch (Optimizer.pipelineSteps h config) onAbort) ;;
            ret (snd out)).
    apply post_bind. unfold post at 1. cbn [log fst snd].
    apply post_bind, post_withLocal. eapply post_mono; [apply pipeline_try|].
    intros r [report w'] (-> & extra & E & O). cbn [fst snd commands] in *.
    apply post_ret. eauto. }
  unfold post in H. destruct (Optimizer.runOptimizationPipeline h config w) as [r w'].
  destruct H as (report & extra & E & H). cbn [fst snd] in *. subst r. eauto.
Qed.

(** *** A run on a machine whose scorer is down *)






Lemma buildProject_outcome (d : string) (r : Optimizer.OptimizationReport) (w : World) :
  post (Optimizer.buildProject h d) (r, w)
    (fun res s' =>
       exists rec, commands (snd s') = (commands w ++ [rec])%list /\
                   Traces.buildIn d rec = true /\
       match res with
       | Ok _ => fst s' = r /\ succeeded rec = true
       | Throw e =>
           exists stderr,
             e = "Build échoué: " +:+ execErrorMessage "npm run build" stderr /\
             fst s' = Optimizer.pushError e r /\ succeeded rec = false
       end).
Proof.
  unfold Optimizer.buildProject, post, bind, tryCatch, liftW, log, execAsync, modifyL, throw.
  cbn [fst snd fs clock console commands].
  destruct (exec h (clock w) "npm run build" (Some d) (fs w)) as [[so|se] f'];
    cbn [fst snd commands]; eexists; (split; [reflexivity|]);
    (split; [unfold Traces.buildIn; cbn [cmd cwd]; rewrite !String.eqb_refl; reflexivity|]).
  - split; reflexivity.
  - exists se. repeat split.
Qed.






Lemma fatal_iff (report : Optimizer.OptimizationReport) (extra : list ExecRecord) :
  Outcome h config report extra ->
  (Optimizer.success report = false <->
   Optimizer.workDir report = ""
   \/ supportedType (Optimizer.connectionData config) = false
   \/ existsb fatalFailure extra = true).
Proof.
  intros [b a m Hs He Hw Ht Hx _ _ _ _ _
         | e Hs He Hw Hx _ _
         | e Hs He Hw Hx _ _
         | e b earlier rec Hs He Hw Ht Hx Hearlier Hf Hb _ _ _].
  - split; [congruence|]. intros [H | [H | H]]; congruence.
  - split; [auto | intros _; exact Hs].
  - split; [|intros _; exact Hs]. intros _.
    destruct Hx as [[Hu _] | (rec & -> & Hf & Hk)]; [auto|]. right; right.
    cbn [existsb]. unfold fatalFailure. rewrite Hf. cbn [negb andb].
    apply orb_true_iff in Hk as [-> | ->]; cbn; rewrite ?orb_true_r; reflexivity.
  - split; [|intros _; exact Hs]. intros _. right; right. subst extra.
    rewrite existsb_app. cbn [existsb]. unfold fatalFailure at 2. rewrite Hf, Hb.
    cbn. rewrite !orb_true_r. reflexivity.
Qed.

Lemma errors_iff (report : Optimizer.OptimizationReport) (extra : list ExecRecord) :
  Outcome h config report extra ->
  (Optimizer.success report = true <-> Optimizer.errors report = []).
Proof.
  intros [b a m Hs He _ _ _ _ _ _ _ _
         | e Hs He _ _ _ _
         | e Hs He _ _ _ _
         | e b earlier rec Hs He _ _ _ _ _ _ _ _ _];
    rewrite Hs, He; split; (reflexivity || discriminate).
Qed.

(** What the [try]/[catch] of the orchestrator returns: the accumulated
    report as it is when the stages ran through, and with the message
    appended to [errors] and [success] set to false when one of them threw. *)
Lemma caught_and_appended (w : World) :
  fst (Optimizer.runOptimizationPipeline h config w) =
  match Optimizer.pipelineSteps h config (Optimizer.initialReport config, announced w) with
  | (Ok _, (accumulated, _)) => Ok accumulated
  | (Throw message, (accumulated, _)) =>
      Ok (Optimizer.setSuccess false (Optimizer.pushError message accumulated))
  end.
Proof.
  change (Optimizer.runOptimizationPipeline h config)
    with (log "🚀 Démarrage du pipeline d'optimisation..." ;;;
          out <- withLocal (Optimizer.initialReport config)
                   (tryCatch (Optimizer.pipelineSteps h config) onAbort) ;;
          ret (snd out)).
  unfold bind, withLocal, tryCatch, announced. cbn [log fst snd].
  match goal with
  | |- context [Optimizer.pipelineSteps h config ?s] =>
      destruct (Optimizer.pipelineSteps h config s) as [[[]|message] [accumulated wx]]
  end; reflexivity.
Qed.

End WithHost.

(** C1, as the code has it.  Every run returns a report and never throws:
    the report is the one the stages accumulated, and when a failure
    escaped a stage it is that report with the failure's message appended
    to [errors] and [success] set to false.
    The run fails exactly when a stage whose failure escapes the stage has
    failed: the allocation of the working directory (the report's [workDir]
    is still empty), the source fetch (unsupported connection type, or a
    failed clone or secure copy) or the build; the report then has
    [success = false] and a non-empty [errors].  A failure of any other
    stage leaves [success] and [errors] as they are: [success] is true
    exactly when [errors] is empty. *)
Theorem pipeline_always_reports :
  forall (h : Host) (config : Optimizer.OptimizationConfig) (w : World),
  exists report w' extra,
    Optimizer.runOptimizationPipeline h config w = (Ok report, w') /\
    commands w' = (commands w ++ extra)%list /\
    match Optimizer.pipelineSteps h config (Optimizer.initialReport config, announced w) with
    | (Ok _, (accumulated, _)) => report = accumulated
    | (Throw message, (accumulated, _)) =>
        report = Optimizer.setSuccess false (Optimizer.pushError message accumulated)
    end /\
    (Optimizer.success report = true <-> Optimizer.errors report = []) /\
    (Optimizer.success report = false <->
     Optimizer.workDir report = ""
     \/ supportedType (Optimizer.connectionData config) = false
     \/ existsb fatalFailure extra = true).
Proof.
  intros h config w. destruct (pipeline_outcome h config w) as (report & w' & extra & E & C & O).
  exists report, w', extra. split; [exact E|]. split; [exact C|].
  split; [|split; [exact (errors_iff h config _ _ O) | exact (fatal_iff h config _ _ O)]].
  pose proof (caught_and_appended h config w) as H. rewrite E in H.
  destruct (Optimizer.pipelineSteps h config (Optimizer.initialReport config, announced w))
    as [[[]|message] [accumulated wx]]; cbn [fst] in H; congruence.
Qed.

(** A run in which the linter fails and nothing else does: the failure is
    absorbed into a warning, [errors] stays empty and [success] is true. *)
Lemma lint_failure_is_not_recorded :
  let '(r, w) := Optimizer.runOptimizationPipeline Scenario.lintFails Scenario.foreignRepo
                   Scenario.freshWorld in
  existsb (fun rec => String.eqb (cmd rec) "npm run lint -- --fix" && negb (succeeded rec))
    (commands w) = true /\
  match r with
  | Ok report =>
      Optimizer.success report = true /\ Optimizer.errors report = [] /\
      Optimizer.warnings report = ["ESLint a détecté des erreurs (non bloquant)"]
  | Throw _ => False
  end.
Proof. vm_compute. repeat split. Qed.

(** C4.  In the report of every run, when both the snapshot before and the
    snapshot after are present, [diffs] holds for each of the four
    dimensions the score after minus the score before, and nothing else;
    when either is missing, [diffs] is the empty map. *)
Theorem diffs_are_after_minus_before :
  forall (h : Host) (config : Optimizer.OptimizationConfig) (w : World),
  exists report w',
    Optimizer.runOptimizationPipeline h config w = (Ok report, w') /\
    match Optimizer.before (Optimizer.lighthouse report),
          Optimizer.after (Optimizer.lighthouse report) with
    | Some b, Some a =>
        Optimizer.diffs report = Audit.compareAudits b a /\
        Optimizer.diffs report !! "performance"
          = Some (Audit.performance (Audit.scores a) - Audit.performance (Audit.scores b))%Z /\
        Optimizer.diffs report !! "accessibility"
          = Some (Audit.accessibility (Audit.scores a) - Audit.accessibility (Audit.scores b))%Z /\
        Optimizer.diffs report !! "bestPractices"
          = Some (Audit.bestPractices (Audit.scores a) - Audit.bestPractices (Audit.scores b))%Z /\
        Optimizer.diffs report !! "seo"
          = Some (Audit.seo (Audit.scores a) - Audit.seo (Audit.scores b))%Z /\
        dom (Optimizer.diffs report)
          = ({[ "performance"; "accessibility"; "bestPractices"; "seo" ]} : gset string)
    | _, _ => Optimizer.diffs report = ∅
    end.
Proof.
  intros h config w. destruct (pipeline_outcome h config w) as (report & w' & extra & E & _ & O).
  exists report, w'. split; [exact E|].
  destruct O as [b a m _ _ _ _ _ Hl Hd _ _ _
                | e _ _ _ _ Hl Hd
                | e _ _ _ _ Hl Hd
                | e b earlier rec _ _ _ _ _ _ _ _ Hl Hd _];
    rewrite Hl, Hd; cbn [Optimizer.before Optimizer.after noSnapshots]; try reflexivity.
  unfold Audit.compareAudits. repeat split; by simplify_map_eq.
Qed.







Example scorer_down_run :
  let '(r, w) := Optimizer.runOptimizationPipeline Scenario.scorerDown Scenario.foreignRepo
                   Scenario.freshWorld in
  match r with
  | Ok report =>
      Optimizer.success report = true /\
      option_map Audit.scores (Optimizer.before (Optimizer.lighthouse report))
        = Some Audit.zeroScores /\
      option_map Audit.scores (Optimizer.after (Optimizer.lighthouse report))
        = Some Audit.zeroScores /\
      map_to_list (Optimizer.diffs report)
        = [("seo", 0%Z); ("accessibility", 0%Z); ("bestPractices", 0%Z); ("performance", 0%Z)]
  | Throw _ => False
  end.
Proof. vm_compute. repeat split. Qed.

(** *** The source fetch and the allow-list *)

(** Whenever the fetch subprocess of a run fails, the run ends there: the
    report has [success = false], the working directory that was
    allocated and one error, and no other subprocess (branch creation,
    commit, push) was started. *)
Lemma fetch_failure_aborts (h : Host) (config : Optimizer.OptimizationConfig) (w : World) :
  exists report w' extra,
    Optimizer.runOptimizationPipeline h config w = (Ok report, w') /\
    commands w' = (commands w ++ extra)%list /\
    forall rec,
      In rec extra -> succeeded rec = false -> isClone rec || isSecureCopy rec = true ->
      Optimizer.success report = false /\ Optimizer.workDir report <> "" /\
      (exists e, Optimizer.errors report = [e]) /\ extra = [rec].
Proof.
  destruct (pipeline_outcome h config w) as (report & w' & extra & E & C & O).
  exists report, w', extra. split; [exact E|]. split; [exact C|].
  intros rec Hin Hf Hk.
  assert (fatalFailure rec = true) as Hfatal.
  { unfold fatalFailure. rewrite Hf. cbn [negb andb].
    apply orb_true_iff in Hk as [-> | ->]; cbn; rewrite ?orb_true_r; reflexivity. }
  destruct O as [b a m _ _ _ _ Hx _ _ _ _ _
                | e _ _ _ Hx _ _
                | e Hs He Hw Hx _ _
                | e b earlier rec' _ _ _ _ Hx Hearlier Hf' Hb _ _ _].
  - exfalso. assert (existsb fatalFailure extra = true) as Ht; [|congruence].
    apply existsb_exists. eauto.
  - subst extra. destruct Hin.
  - destruct Hx as [[_ ->] | (rec0 & -> & _ & _)]; [destruct Hin|].
    destruct Hin as [<- | []]. eauto.
  - exfalso. subst extra. apply in_app_iff in Hin as [Hin | [<- | []]].
    + assert (existsb fatalFailure earlier = true) as Ht; [|congruence].
      apply existsb_exists. eauto.
    + unfold isBuild in Hb. apply String.eqb_eq in Hb.
      unfold isClone, isSecureCopy in Hk. rewrite Hb in Hk. discriminate Hk.
Qed.

(** With an unreachable remote the run stops after the clone. *)
Example unreachable_remote_run :
  let '(r, w) := Optimizer.runOptimizationPipeline Scenario.unreachable Scenario.foreignRepo
                   Scenario.freshWorld in
  List.map succeeded (commands w) = [false] /\
  match r with
  | Ok report =>
      Optimizer.success report = false /\
      Optimizer.workDir report = "/tmp/workdir-conn_1-1700000000000" /\
      length (Optimizer.errors report) = 1%nat
  | Throw _ => False
  end.
Proof. vm_compute. repeat split. Qed.

(** C2, at the input on which the code departs from it.  The repository
    sits on a host that [isHostAllowed] rejects for the configured
    allow-list; the pipeline never consults the list, clones the
    repository, and goes on to create the branch, commit and push, ending
    with [success = true]. *)
Theorem disallowed_host_is_fetched :
  (forall caseTables,
     Crypto.isHostAllowed caseTables "https://git.example.org/acme/site.git"
       (Optimizer.allowedHosts Scenario.foreignRepo) = false) /\
  (forall caseTables,
     Crypto.isHostAllowed caseTables "git.example.org"
       (Optimizer.allowedHosts Scenario.foreignRepo) = false) /\
  let '(r, w) := Optimizer.runOptimizationPipeline Scenario.allGood Scenario.foreignRepo
                   Scenario.freshWorld in
  existsb (fun c => startsWith c "git clone ") (commandLines w) = true /\
  existsb (fun c => startsWith c "git checkout -b ") (commandLines w) = true /\
  existsb (fun c => startsWith c "git commit ") (commandLines w) = true /\
  existsb (fun c => startsWith c "git push ") (commandLines w) = true /\
  match r with
  | Ok report => Optimizer.success report = true /\ Optimizer.errors report = []
  | Throw _ => False
  end.
Proof. vm_compute. repeat split. Qed.

(** *** Secrets *)

(** Whatever the outcome of the clone, the repository URL is written to
    the console as it stands. *)
Lemma clone_logs_the_url (h : Host) (config : Optimizer.OptimizationConfig)
    (d : string) (w : World) :
  Connection.type (Optimizer.connectionData config) = "git" ->
  exists later,
    console (snd (Optimizer.fetchSources h config d w)) =
    (console w ++ ["🔄 Clonage du dépôt Git: "
                   +:+ tpl (Connection.repoUrl (Optimizer.connectionData config))] ++ later)%list.
Proof.
  intros Ht. unfold Optimizer.fetchSources. rewrite Ht, String.eqb_refl.
  unfold bind, log, execAsync. cbn [fst snd fs clock console commands].
  match goal with
  | |- context [exec h ?t ?c ?dir ?f] => destruct (exec h t c dir f) as [[so|se] f']
  end; exists []; reflexivity.
Qed.

(** C5, at the input on which the code departs from it.  The repository
    URL carries an access token and the clone fails: the token is written
    to the console twice (the line announcing the clone, and the error
    line) and stands in the [errors] field of the report returned. *)
Theorem token_is_logged_and_reported :
  Connection.repoUrl (Optimizer.connectionData Scenario.tokenRepo)
    = Some "https://ghp_s3cr3tT0k3n@github.com/acme/site.git" /\
  let '(r, w) := Optimizer.runOptimizationPipeline Scenario.unreachable Scenario.tokenRepo
                   Scenario.freshWorld in
  mentions "ghp_s3cr3tT0k3n" (console w) = true /\
  length (List.filter (fun line => includes line "ghp_s3cr3tT0k3n") (console w)) = 2%nat /\
  match r with
  | Ok report =>
      Optimizer.success report = false /\
      mentions "ghp_s3cr3tT0k3n" (Optimizer.errors report) = true
  | Throw _ => False
  end.
Proof. vm_compute. repeat split. Qed.

(** The token is logged when the clone succeeds, too. *)
Example token_is_logged_on_success :
  mentions "ghp_s3cr3tT0k3n"
    (console (snd (Optimizer.runOptimizationPipeline Scenario.allGood Scenario.tokenRepo
                     Scenario.freshWorld))) = true.
Proof. vm_compute. reflexivity. Qed.

End PipelineFacts.

(** ** lib/store.ts: the other operations *)

Module StoreOpsFacts.
Import Js Store Sys StoreOps.

Lemma saveStore_flags (store : ConnectionStore) (st : State) :
  readOk (saveStore store st) = readOk st /\ mkdirOk (saveStore store st) = mkdirOk st /\
  writeOk (saveStore store st) = writeOk st /\ renameOk (saveStore store st) = renameOk st.
Proof.
  unfold saveStore. cbn. destruct (mkdirOk st), (writeOk st), (renameOk st); cbn; auto.
Qed.

(** A save followed by a load. *)
Lemma load_after_save (store : ConnectionStore) (st : State) :
  readsBack st = true -> version store = STORE_VERSION ->
  loadStore (saveStore store st) = store.
Proof.
  intros Hrb Hv. unfold readsBack in Hrb. unfold loadStore, saveStore. cbn.
  destruct (mkdirOk st), (writeOk st), (renameOk st), (readOk st) eqn:Er; cbn in *;
    rewrite ?Er; cbn; rewrite ?Hv; cbn; try reflexivity;
    destruct (file st); cbn in *; try reflexivity; discriminate.
Qed.

Lemma saveStore_memory (store : ConnectionStore) (st : State) :
  memoryStore (saveStore store st) = Some store.
Proof.
  unfold saveStore. cbn. destruct (mkdirOk st), (writeOk st), (renameOk st); reflexivity.
Qed.

Lemma saveStore_file (store : ConnectionStore) (st : State) :
  file (saveStore store st) =
  if mkdirOk st && writeOk st && renameOk st then Parsed store else file st.
Proof.
  unfold saveStore. cbn. destruct (mkdirOk st), (writeOk st), (renameOk st); reflexivity.
Qed.

Lemma readsBack_after_save (store : ConnectionStore) (st : State) :
  readsBack st = true -> readsBack (saveStore store st) = true.
Proof.
  intros Hrb. unfold readsBack in *. rewrite saveStore_file.
  destruct (saveStore_flags store st) as (-> & -> & -> & ->).
  destruct (mkdirOk st && writeOk st && renameOk st); [reflexivity | exact Hrb].
Qed.

Lemma lookup_assign_same (obj : gmap string StoredConnection) (key : string)
    (c : StoredConnection) :
  key <> "__proto__" -> lookup (assign obj key c) key = Own c.
Proof.
  intros Hk. unfold assign, lookup.
  destruct (String.eqb key "__proto__") eqn:E; [apply String.eqb_eq in E; contradiction|].
  rewrite lookup_insert_eq. reflexivity.
Qed.

Lemma lookup_assign_other (obj : gmap string StoredConnection) (key other : string)
    (c : StoredConnection) :
  other <> key -> lookup (assign obj key c) other = lookup obj other.
Proof.
  intros Hk. unfold assign, lookup.
  destruct (String.eqb key "__proto__"); [reflexivity|].
  rewrite lookup_insert_ne by congruence. reflexivity.
Qed.

Lemma loadStore_version (st : State) :
  match memoryStore st with Some m => version m = STORE_VERSION | None => True end ->
  version (loadStore st) = STORE_VERSION.
Proof.
  intros Hm. unfold loadStore.
  destruct (if readOk st then file st else NoFile) as [| |parsed].
  - destruct (memoryStore st); [exact Hm | reflexivity].
  - destruct (memoryStore st); [exact Hm | reflexivity].
  - destruct (Z.eqb (version parsed) STORE_VERSION) eqn:E; cbn; [|reflexivity].
    apply Z.eqb_eq. exact E.
Qed.

(** What [upsertConnection] stores is what [getConnection] finds.  For an
    id other than [__proto__], on a store whose writes read back and whose
    content has the current version, [upsertConnection] returns a
    connection with that id, the given payload and [updatedAt] set to the
    time of the call; [getConnection] of the id then finds that very
    connection, and every other id answers as before. *)
Theorem upsert_then_get :
  forall (now id : string) (encrypted : EncryptedData) (st : State),
    id <> "__proto__" ->
    readsBack st = true ->
    version (loadStore st) = STORE_VERSION ->
    let '(connection, st') := upsertConnection now id encrypted st in
    getConnection id st' = Own connection /\
    Store.id connection = id /\
    Store.encrypted connection = encrypted /\
    updatedAt connection = now /\
    forall other, other <> id -> getConnection other st' = getConnection other st.
Proof.
  intros now id encrypted st Hid Hrb Hv. unfold upsertConnection, getConnection.
  rewrite load_after_save by assumption. cbn [connections].
  split; [apply lookup_assign_same; exact Hid|].
  split; [reflexivity|]. split; [reflexivity|]. split; [reflexivity|].
  intros other Hne. apply lookup_assign_other. exact Hne.
Qed.

Lemma upsert_then_get_witness :
  "conn_3" <> "__proto__" /\
  let '(connection, st') :=
    upsertConnection "2024-01-01T00:00:00.000Z" "conn_3"
      (Store.encrypted (Scenario.someConnection "conn_3")) Scenario.twoOnDisk in
  getConnection "conn_3" st' = Own connection /\
  Store.id connection = "conn_3" /\
  Store.encrypted connection = Store.encrypted (Scenario.someConnection "conn_3") /\
  updatedAt connection = "2024-01-01T00:00:00.000Z" /\
  forall other, other <> "conn_3" ->
    getConnection other st' = getConnection other Scenario.twoOnDisk.
Proof.
  split; [discriminate|].
  apply (upsert_then_get "2024-01-01T00:00:00.000Z" "conn_3"
           (Store.encrypted (Scenario.someConnection "conn_3")) Scenario.twoOnDisk);
    [discriminate | reflexivity | reflexivity].
Defined.


(** The creation date survives an update.  Under the same conditions and
    for a non-empty time of the first call, a second [upsertConnection] of
    the same id keeps the [createdAt] of the first, sets [updatedAt] to the
    time of the second call and stores the new payload, and that
    connection is what [getConnection] then finds. *)
Theorem createdAt_survives_update :
  forall (t1 t2 id : string) (e1 e2 : EncryptedData) (st : State),
    id <> "__proto__" ->
    readsBack st = true ->
    version (loadStore st) = STORE_VERSION ->
    t1 <> "" ->
    let '(c1, st1) := upsertConnection t1 id e1 st in
    let '(c2, st2) := upsertConnection t2 id e2 st1 in
    createdAt c2 = createdAt c1 /\ updatedAt c2 = t2 /\ Store.encrypted c2 = e2 /\
    getConnection id st2 = Own c2.
Proof.
  intros t1 t2 id e1 e2 st Hid Hrb Hv Ht. unfold upsertConnection, getConnection.
  set (c1 := {| Store.id := id; Store.encrypted := e1;
                createdAt := orElse _ t1; updatedAt := t1 |}).
  set (store1 := {| connections := assign (connections (loadStore st)) id c1;
                    version := version (loadStore st) |}).
  assert (loadStore (saveStore store1 st) = store1) as H1 by (apply load_after_save; assumption).
  rewrite H1. cbn [connections version store1].
  rewrite (lookup_assign_same _ _ _ Hid).
  assert (createdAt c1 <> "") as Hc.
  { subst c1. cbn [createdAt]. unfold orElse.
    destruct (lookup _ id) as [c0| |]; try exact Ht.
    destruct (String.eqb (createdAt c0) "") eqn:E; [exact Ht|].
    intros H. rewrite H in E. discriminate. }
  assert (orElse (Some (createdAt c1)) t2 = createdAt c1) as ->.
  { unfold orElse. destruct (String.eqb (createdAt c1) "") eqn:E; [|reflexivity].
    apply String.eqb_eq in E. contradiction. }
  split; [reflexivity|]. split; [reflexivity|]. split; [reflexivity|].
  rewrite load_after_save; [|apply readsBack_after_save; exact Hrb | exact Hv].
  cbn [connections]. apply lookup_assign_same. exact Hid.
Qed.

Lemma createdAt_survives_update_witness :
  let '(c1, st1) := upsertConnection "2024-01-01T00:00:00.000Z" "conn_3"
                      (Store.encrypted (Scenario.someConnection "a")) Scenario.emptyStore in
  let '(c2, st2) := upsertConnection "2024-06-01T00:00:00.000Z" "conn_3"
                      (Store.encrypted (Scenario.someConnection "b")) st1 in
  createdAt c2 = createdAt c1 /\ updatedAt c2 = "2024-06-01T00:00:00.000Z" /\
  Store.encrypted c2 = Store.encrypted (Scenario.someConnection "b") /\
  getConnection "conn_3" st2 = Own c2.
Proof.
  apply (createdAt_survives_update "2024-01-01T00:00:00.000Z" "2024-06-01T00:00:00.000Z"
           "conn_3" (Store.encrypted (Scenario.someConnection "a"))
           (Store.encrypted (Scenario.someConnection "b")) Scenario.emptyStore);
    [discriminate | reflexivity | reflexivity | discriminate].
Defined.

(** An update whose write fails is not seen while an older file can be
    read.  When the store file is readable and of the current version but
    the directory creation, the write or the rename fails,
    [upsertConnection] still returns the connection and keeps the updated
    store in memory, yet the next [loadStore] reads the old file: every
    [getConnection] answers as before the update. *)
Theorem failed_write_is_not_read_back :
  forall (now id : string) (encrypted : EncryptedData) (st : State) (old : ConnectionStore),
    readOk st = true ->
    file st = Parsed old ->
    version old = STORE_VERSION ->
    mkdirOk st && writeOk st && renameOk st = false ->
    let '(connection, st') := upsertConnection now id encrypted st in
    updatedAt connection = now /\
    memoryStore st' = Some {| connections := assign (connections old) id connection;
                              version := STORE_VERSION |} /\
    loadStore st' = old /\
    forall any, getConnection any st' = getConnection any st.
Proof.
  intros now id encrypted st old Hr Hf Hv Hw.
  assert (loadStore st = old) as Hl.
  { unfold loadStore. rewrite Hr, Hf, Hv. reflexivity. }
  assert (forall store, loadStore (saveStore store st) = old) as Hs.
  { intros store. unfold loadStore. rewrite saveStore_file, Hw.
    destruct (saveStore_flags store st) as (-> & _). rewrite Hr, Hf, Hv. reflexivity. }
  unfold upsertConnection, getConnection. rewrite Hs, Hl, Hv.
  split; [reflexivity|]. split; [apply saveStore_memory|]. split; reflexivity.
Qed.

Lemma failed_write_is_not_read_back_witness :
  let '(connection, st') :=
    upsertConnection "2024-01-01T00:00:00.000Z" "conn_3"
      (Store.encrypted (Scenario.someConnection "conn_3")) Cases.readOnlyDisk in
  updatedAt connection = "2024-01-01T00:00:00.000Z" /\
  memoryStore st' = Some {| connections := assign (connections (loadStore Scenario.twoOnDisk))
                                             "conn_3" connection;
                            version := STORE_VERSION |} /\
  loadStore st' = loadStore Scenario.twoOnDisk /\
  forall any, getConnection any st' = getConnection any Cases.readOnlyDisk.
Proof.
  apply (failed_write_is_not_read_back "2024-01-01T00:00:00.000Z" "conn_3"
           (Store.encrypted (Scenario.someConnection "conn_3")) Cases.readOnlyDisk
           (loadStore Scenario.twoOnDisk)); reflexivity.
Defined.

(** A deleted connection is gone.  For an id that is not a member of
    [Object.prototype], on a store whose writes read back and whose content
    has the current version: deleting a connection that [getConnection]
    finds returns true; afterwards [getConnection] of the id finds nothing,
    every other id answers as before, and a second deletion returns false
    and changes nothing. *)
Theorem delete_then_get :
  forall (id : string) (st : State) (c : StoredConnection),
    ~ In id objectPrototypeKeys ->
    readsBack st = true ->
    version (loadStore st) = STORE_VERSION ->
    getConnection id st = Own c ->
    let '(deleted, st') := deleteConnection id st in
    deleted = true /\
    getConnection id st' = Undefined /\
    (forall other, other <> id -> getConnection other st' = getConnection other st) /\
    deleteConnection id st' = (false, st').
Proof.
  intros id st c Hid Hrb Hv Hc.
  assert (connections (loadStore st) !! id = Some c) as Hl.
  { unfold getConnection, lookup in Hc. destruct (connections (loadStore st) !! id) as [c'|].
    - congruence.
    - destruct (existsb _ _); discriminate. }
  unfold deleteConnection, truthyAt at 1. rewrite Hl. cbn [negb].
  set (store := {| connections := delete id (connections (loadStore st));
                   version := version (loadStore st) |}).
  assert (loadStore (saveStore store st) = store) as Hs.
  { apply load_after_save; assumption. }
  assert (connections store !! id = None) as Hn by apply lookup_delete_eq.
  split; [reflexivity|]. split; [|split].
  - unfold getConnection, lookup. rewrite Hs, Hn.
    destruct (existsb (String.eqb id) objectPrototypeKeys) eqn:E; [|reflexivity].
    apply existsb_exists in E as (k & Hin & Hk). apply String.eqb_eq in Hk. subst k.
    contradiction.
  - intros other Hne. unfold getConnection, lookup. rewrite Hs. cbn [store connections].
    rewrite lookup_delete_ne by congruence. reflexivity.
  - rewrite Hs. unfold truthyAt. rewrite Hn.
    destruct (existsb (String.eqb id) objectPrototypeKeys) eqn:E; [|reflexivity].
    apply existsb_exists in E as (k & Hin & Hk). apply String.eqb_eq in Hk. subst k.
    contradiction.
Qed.

Lemma delete_then_get_witness :
  let '(deleted, st') := deleteConnection "conn_2" Scenario.twoOnDisk in
  deleted = true /\
  getConnection "conn_2" st' = Undefined /\
  (forall other, other <> "conn_2" ->
     getConnection other st' = getConnection other Scenario.twoOnDisk) /\
  deleteConnection "conn_2" st' = (false, st').
Proof.
  apply (delete_then_get "conn_2" Scenario.twoOnDisk (Scenario.someConnection "conn_2"));
    [vm_compute; intuition discriminate | reflexivity | reflexivity | reflexivity].
Defined.

(** On a store whose writes read back, [importStore] refuses a store of
    another version, with the message of the source, and leaves the state
    as it is; a store of the current version replaces the whole content,
    which [exportStore] then returns. *)
Theorem import_then_export :
  forall (store : ConnectionStore) (st : State),
    readsBack st = true ->
    match importStore store st with
    | (Ok _, st') => version store = STORE_VERSION /\ exportStore st' = store
    | (Throw message, st') =>
        version store <> STORE_VERSION /\ message = "Version du store incompatible" /\ st' = st
    end.
Proof.
  intros store st Hrb. unfold importStore, exportStore.
  destruct (Z.eqb (version store) STORE_VERSION) eqn:E; cbn [negb].
  - apply Z.eqb_eq in E. split; [exact E|]. apply load_after_save; assumption.
  - apply Z.eqb_neq in E. auto.
Qed.

Lemma import_then_export_witness :
  match importStore initializeStore Scenario.twoOnDisk with
  | (Ok _, st') => version initializeStore = STORE_VERSION /\ exportStore st' = initializeStore
  | (Throw message, st') =>
      version initializeStore <> STORE_VERSION /\
      message = "Version du store incompatible" /\ st' = Scenario.twoOnDisk
  end.
Proof. apply (import_then_export initializeStore Scenario.twoOnDisk). reflexivity. Defined.

(** *** Pruning *)

Section Prune.
Variable parseDate : string -> option Z.
Variable cutoff : option Z.


Lemma prune_loop_lookup (l : list (string * StoredConnection))
    (m0 : gmap string StoredConnection) (n0 : nat) (i : string) :
  fst (fold_left (pruneStep parseDate cutoff) l (m0, n0)) !! i =
  if existsb (fun e => bool_decide (fst e = i) && isOld parseDate cutoff (snd e)) l
  then None else m0 !! i.
Proof.
  revert m0 n0. induction l as [|[k c] l IH]; intros m0 n0; [reflexivity|].
  cbn [fold_left existsb fst snd]. unfold pruneStep at 2. cbn [fst snd].
  destruct (isOld parseDate cutoff c) eqn:Eo.
  - rewrite IH. rewrite andb_true_r.
    destruct (existsb _ l); [rewrite orb_true_r; reflexivity|]. rewrite orb_false_r.
    case_bool_decide as Hk.
    + subst k. apply lookup_delete_eq.
    + apply lookup_delete_ne. exact Hk.
  - rewrite IH, andb_false_r. reflexivity.
Qed.

Lemma prune_loop_count (l : list (string * StoredConnection))
    (m0 : gmap string StoredConnection) (n0 : nat) :
  NoDup (l.*1) -> (forall k c, (k, c) ∈ l -> is_Some (m0 !! k)) ->
  (snd (fold_left (pruneStep parseDate cutoff) l (m0, n0)) + size (fst (fold_left (pruneStep parseDate cutoff) l (m0, n0))) = n0 + size m0)%nat.
Proof.
  revert m0 n0. induction l as [|[k c] l IH]; intros m0 n0 Hnd Hin; [reflexivity|].
  cbn [fold_left]. unfold pruneStep at 2 4. cbn [fst snd].
  apply NoDup_cons in Hnd as [Hk Hnd].
  destruct (isOld parseDate cutoff c).
  - rewrite IH.
    + destruct (Hin k c) as [x Hx]; [left|].
      pose proof (map_size_delete_Some k m0 (ex_intro _ x Hx)) as Hd.
      pose proof (map_size_ne_0_lookup_2 m0 k (ex_intro _ x Hx)) as Hz.
      rewrite Hd. cbn [snd fst]. lia.
    + exact Hnd.
    + intros k' c' H'. rewrite lookup_delete_ne.
      * apply (Hin k' c'). right. exact H'.
      * intros ->. apply Hk. apply list_elem_of_fmap. exists (k', c'). auto.
  - apply IH; [exact Hnd|]. intros k' c' H'. apply (Hin k' c'). right. exact H'.
Qed.

End Prune.

(** [pruneOldConnections] keeps exactly the connections that are not older
    than the cutoff and returns the number of the others: the number
    returned plus the number kept is the number there was.  The store is
    saved, with the connections kept, only when that number is positive;
    otherwise the state is unchanged.  A connection whose [updatedAt] is
    not a date is never removed. *)
Theorem prune_removes_the_old :
  forall (parseDate : string -> option Z) (cutoffDate : Z -> option Z) (daysOld : Z)
         (st : State),
    let store := loadStore st in
    let remaining :=
      filter (fun entry => isOld parseDate (cutoffDate daysOld) (snd entry) = false)
             (connections store) in
    let '(deletedCount, st') := pruneOldConnections parseDate cutoffDate daysOld st in
    (deletedCount + size remaining = size (connections store))%nat /\
    st' = (if (0 <? deletedCount)%nat
           then saveStore {| connections := remaining; version := version store |} st
           else st) /\
    forall id c, connections store !! id = Some c ->
                 parseDate (updatedAt c) = None -> remaining !! id = Some c.
Proof.
  intros parseDate cutoffDate daysOld st store remaining. unfold pruneOldConnections.
  fold store.
  pose proof (prune_loop_lookup parseDate (cutoffDate daysOld)
                (map_to_list (connections store)) (connections store) 0) as Hl.
  pose proof (prune_loop_count parseDate (cutoffDate daysOld)
                (map_to_list (connections store)) (connections store) 0
                (NoDup_fst_map_to_list _)) as Hc.
  destruct (fold_left _ (map_to_list (connections store)) (connections store, 0%nat))
    as [left n] eqn:E.
  cbn [fst snd] in Hl, Hc.
  assert (left = remaining) as ->.
  { apply map_eq. intros i. rewrite Hl. subst remaining.
    destruct (existsb _ _) eqn:Ex.
    - apply existsb_exists in Ex as ([k c] & Hin & Hk). cbn [fst snd] in Hk.
      apply andb_true_iff in Hk as [Hk Ho]. apply bool_decide_eq_true in Hk. subst k.
      apply list_elem_of_In, elem_of_map_to_list in Hin.
      symmetry. apply map_lookup_filter_None. right. intros x Hx. cbn [snd].
      assert (x = c) as -> by congruence. rewrite Ho. discriminate.
    - destruct (connections store !! i) as [c|] eqn:Ei.
      + symmetry. apply map_lookup_filter_Some. split; [exact Ei|]. cbn [snd].
        destruct (isOld parseDate (cutoffDate daysOld) c) eqn:Eo; [|reflexivity].
        assert (existsb (fun e => bool_decide (fst e = i)
                                  && isOld parseDate (cutoffDate daysOld) (snd e))
                  (map_to_list (connections store)) = true) as Hx; [|congruence].
        apply existsb_exists. exists (i, c). split.
        * apply list_elem_of_In, elem_of_map_to_list. exact Ei.
        * cbn [fst snd]. rewrite Eo, bool_decide_eq_true_2; reflexivity.
      + symmetry. apply map_lookup_filter_None. left. exact Ei. }
  assert (n + size remaining = size (connections store))%nat as Hn.
  { rewrite Nat.add_0_l in Hc. apply Hc.
    intros k c Hin. apply elem_of_map_to_list in Hin. eauto. }
  assert (forall id c, connections store !! id = Some c ->
                       parseDate (updatedAt c) = None -> remaining !! id = Some c) as Hkeep.
  { intros id c Hi Hp. apply map_lookup_filter_Some. split; [exact Hi|]. cbn [snd].
    unfold isOld. rewrite Hp. reflexivity. }
  destruct (0 <? n)%nat eqn:En; cbn beta iota; rewrite En; auto.
Qed.

End StoreOpsFacts.

(** ** lib/crypto.ts: what the allow-list check looks at *)

Module HostFacts.
Import Js JsFacts Crypto CryptoFacts.

Lemma cut_host (h rest : string) :
  bare h -> rest = "" \/ startsWith rest "/" = true \/ startsWith rest ":" = true ->
  splitHead ":" (splitHead "/" (lowerAscii h +:+ lowerAscii rest)) = lowerAscii h.
Proof.
  intros Hb Hrest. destruct (bare_lowerAscii h Hb) as [H1 H2].
  rewrite (splitHead_app_clean "/" _ _ H1), (splitHead_app_clean ":" _ _ H2).
  rewrite <- (app_empty_r (lowerAscii h)) at 2. f_equal.
  destruct Hrest as [-> | [H | H]]; [reflexivity | |];
    apply startsWith_iff in H as [r ->]; cbn; rewrite ?Ascii.eqb_refl; reflexivity.
Qed.

Lemma normalizeHost_written (caseTables : string -> string) (written scheme h rest : string) :
  scheme = "http://" \/ scheme = "https://" ->
  bare h -> rest = "" \/ startsWith rest "/" = true \/ startsWith rest ":" = true ->
  isAscii written = true ->
  lowerAscii written = lowerAscii (scheme +:+ h +:+ rest) ->
  normalizeHost caseTables written = lowerAscii h.
Proof.
  intros Hs Hb Hrest Ha Hw. unfold normalizeHost.
  rewrite (toLowerCase_ascii caseTables written Ha), Hw, !lowerAscii_app.
  destruct Hs as [-> | ->]; cbn [lowerAscii]; unfold stripScheme; cbn;
    apply cut_host; assumption.
Qed.

(** Only the host name counts, whatever the letter case.  For an address
    in ASCII written as [http://] or [https://], a host name, and then
    nothing, a path or a port, in whatever letter case, [isHostAllowed]
    answers as it does for the host name alone; and two lists whose
    entries agree once lowercased give the same answer. *)
Theorem isHostAllowed_reads_the_host_only :
  forall (caseTables : string -> string) (written scheme h rest : string)
         (allowedHosts allowedHosts' : list string),
    scheme = "http://" \/ scheme = "https://" ->
    bare h ->
    rest = "" \/ startsWith rest "/" = true \/ startsWith rest ":" = true ->
    isAscii written = true ->
    lowerAscii written = lowerAscii (scheme +:+ h +:+ rest) ->
    List.map (toLowerCase caseTables) allowedHosts'
      = List.map (toLowerCase caseTables) allowedHosts ->
    isHostAllowed caseTables written allowedHosts' = isHostAllowed caseTables h allowedHosts.
Proof.
  intros caseTables written scheme h rest l l' Hs Hb Hrest Ha Hw Hl. unfold isHostAllowed.
  rewrite (normalizeHost_written caseTables written scheme h rest Hs Hb Hrest Ha Hw).
  assert (isAscii h = true) as Hh.
  { pose proof (isAscii_lowerAscii written) as E. rewrite Hw, isAscii_lowerAscii, Ha in E.
    rewrite !isAscii_app in E. apply andb_true_iff in E as [_ E].
    apply andb_true_iff in E as [E _]. exact E. }
  rewrite (normalizeHost_bare caseTables h Hb Hh).
  set (g := fun a => String.eqb (lowerAscii h) a || endsWith (lowerAscii h) ("." +:+ a)).
  change (existsb (fun a => g (toLowerCase caseTables a)) l'
          = existsb (fun a => g (toLowerCase caseTables a)) l).
  assert (forall xs, existsb (fun a => g (toLowerCase caseTables a)) xs
                     = existsb g (List.map (toLowerCase caseTables) xs)) as E.
  { induction xs as [|x xs IH]; [reflexivity|]. cbn [existsb List.map]. rewrite IH. reflexivity. }
  rewrite !E, Hl. reflexivity.
Qed.

Lemma isHostAllowed_reads_the_host_only_witness :
  isHostAllowed Scenario.finalSigma "HTTPS://Api.GitHub.com:443/acme/site.git"
    ["GitLab.com"; "GitHub.COM"]
  = isHostAllowed Scenario.finalSigma "api.github.com" ["gitlab.com"; "github.com"].
Proof.
  apply (isHostAllowed_reads_the_host_only _ _ "https://" "api.github.com"
           ":443/acme/site.git");
    [right; reflexivity | split; reflexivity | right; right; reflexivity
    | reflexivity | reflexivity | reflexivity].
Defined.

End HostFacts.

(** ** lib/crypto.ts: the Base64 helpers *)

Module EncodingFacts.
Import Js JsFacts Sys Encoding.

Lemma get_in (s : string) (i : nat) (c : ascii) :
  String.get i s = Some c -> In c (list_ascii_of_string s).
Proof.
  revert i. induction s as [|d s IH]; intros i H; [destruct i; discriminate|].
  destruct i as [|i]; cbn in *; [left; congruence | right; eauto].
Qed.

Lemma sextetChar_in (n : N) : In (sextetChar n) (list_ascii_of_string alphabet).
Proof.
  unfold sextetChar. destruct (String.get _ alphabet) as [c|] eqn:E.
  - exact (get_in _ _ _ E).
  - left. reflexivity.
Qed.

(** No character of the alphabet is white space or the padding sign. *)
Lemma sextetChar_plain (n : N) :
  isAsciiWhitespace (sextetChar n) = false /\ Ascii.eqb (sextetChar n) "=" = false.
Proof.
  assert (forallb (fun c => negb (isAsciiWhitespace c) && negb (Ascii.eqb c "="))
            (list_ascii_of_string alphabet) = true) as H by (vm_compute; reflexivity).
  rewrite forallb_forall in H. specialize (H _ (sextetChar_in n)).
  apply andb_true_iff in H as [H1 H2].
  apply negb_true_iff in H1. apply negb_true_iff in H2. auto.
Qed.

Lemma charSextet_sextetChar (n : N) : (n < 64)%N -> charSextet (sextetChar n) = Some n.
Proof.
  intros H.
  assert (forallb (fun k => match charSextet (sextetChar (N.of_nat k)) with
                            | Some m => N.eqb m (N.of_nat k)
                            | None => false
                            end) (seq 0 64) = true) as Hall by (vm_compute; reflexivity).
  rewrite forallb_forall in Hall. specialize (Hall (N.to_nat n)).
  rewrite N2Nat.id in Hall.
  destruct (charSextet (sextetChar n)) as [m|].
  - f_equal. apply N.eqb_eq. apply Hall. apply in_seq. lia.
  - discriminate Hall. apply in_seq. lia.
Qed.

Lemma charCodeAt_bound (c : ascii) : (charCodeAt c < 256)%N.
Proof. apply N_ascii_bounded. Qed.

Lemma fromCharCode_charCodeAt (c : ascii) : fromCharCode (charCodeAt c) = c.
Proof. apply ascii_N_embedding. Qed.

Ltac euclid := zify; Z.to_euclidean_division_equations; lia.

Lemma three_bytes (a b c : N) :
  (a < 256 -> b < 256 -> c < 256 ->
   let n := a * 65536 + b * 256 + c in
   let m := ((n / 262144 * 64 + (n / 4096) mod 64) * 64 + (n / 64) mod 64) * 64 + n mod 64 in
   n / 262144 < 64 /\ m / 65536 = a /\ (m / 256) mod 256 = b /\ m mod 256 = c)%N.
Proof.
  intros Ha Hb Hc n m.
  assert (m = n) as -> by (subst m n; euclid).
  subst n. repeat split; euclid.
Qed.

Lemma two_bytes (a b : N) :
  (a < 256 -> b < 256 ->
   let n := a * 1024 + b * 4 in
   let m := ((n / 4096 * 64 + (n / 64) mod 64) * 64 + n mod 64) / 4 in
   n / 4096 < 64 /\ m / 256 = a /\ m mod 256 = b)%N.
Proof. intros Ha Hb n m. subst m n. repeat split; euclid. Qed.

Lemma one_byte (a : N) :
  (a < 256 -> let n := a * 16 in n / 64 < 64 /\ (n / 64 * 64 + n mod 64) / 16 = a)%N.
Proof. intros Ha n. subst n. split; euclid. Qed.

Lemma mod_lt_64 (n : N) : (n mod 64 < 64)%N.
Proof. apply N.mod_lt. discriminate. Qed.

(** Strings, three characters at a time. *)
Lemma string_ind3 (P : string -> Prop) :
  P "" -> (forall a, P (String a "")) -> (forall a b, P (String a (String b ""))) ->
  (forall a b c rest, P rest -> P (String a (String b (String c rest)))) ->
  forall s, P s.
Proof.
  intros H0 H1 H2 H3.
  assert (forall s, P s /\ (forall a, P (String a s)) /\ (forall a b, P (String a (String b s))))
    as H.
  { induction s as [|c s (IH0 & IH1 & IH2)]; [auto|]. split; [apply IH1|].
    split; [intros a; apply IH2|]. intros a b. apply H3. exact IH0. }
  intros s. apply H.
Qed.

Lemma dropPadding_plain (c : ascii) (s : string) :
  Ascii.eqb c "=" = false -> dropPadding (String c s) = String c (dropPadding s).
Proof. intros H. cbn [dropPadding]. rewrite H. reflexivity. Qed.

Lemma removeWhitespace_plain (c : ascii) (s : string) :
  isAsciiWhitespace c = false -> removeWhitespace (String c s) = String c (removeWhitespace s).
Proof. intros H. cbn [removeWhitespace]. rewrite H. reflexivity. Qed.

Lemma sextets_cons (n : N) (s : string) (l : list N) :
  (n < 64)%N -> sextets s = Some l -> sextets (String (sextetChar n) s) = Some (n :: l).
Proof. intros Hn Hs. cbn [sextets]. rewrite (charSextet_sextetChar n Hn), Hs. reflexivity. Qed.

Lemma mod4_step (n : nat) : ((4 + n) mod 4 = n mod 4)%nat.
Proof. rewrite <- (Nat.Div0.add_mod_idemp_l 4 n 4). reflexivity. Qed.

Lemma btoa_no_whitespace (s : string) : removeWhitespace (btoa s) = btoa s.
Proof.
  induction s as [| a | a b | a b c rest IH] using string_ind3; cbn [btoa]; cbv zeta;
    rewrite ?removeWhitespace_plain by apply sextetChar_plain; rewrite ?IH; reflexivity.
Qed.

Lemma btoa_length (s : string) : (String.length (btoa s) mod 4 = 0)%nat.
Proof.
  induction s as [| a | a b | a b c rest IH] using string_ind3; cbn [btoa]; cbv zeta;
    try reflexivity.
  cbn [String.length].
  change (S (S (S (S (String.length (btoa rest)))))) with (4 + String.length (btoa rest))%nat.
  rewrite mod4_step. exact IH.
Qed.

(** What is left once the padding is dropped decodes to the text that was
    encoded. *)
Lemma btoa_decodes (s : string) :
  exists l, sextets (dropPadding (btoa s)) = Some l /\ bytesOf l = s /\
            (String.length (dropPadding (btoa s)) mod 4 <> 1)%nat.
Proof.
  induction s as [| a | a b | a b c rest (l & Hl & Hb & Hn)] using string_ind3;
    cbn [btoa]; cbv zeta.
  - exists []. repeat split. discriminate.
  - destruct (one_byte _ (charCodeAt_bound a)) as [H1 H2].
    rewrite !dropPadding_plain by apply sextetChar_plain.
    eexists. split; [|split].
    + apply sextets_cons; [exact H1|]. apply sextets_cons; [apply mod_lt_64|]. reflexivity.
    + cbn [bytesOf]. rewrite H2, fromCharCode_charCodeAt. reflexivity.
    + discriminate.
  - destruct (two_bytes _ _ (charCodeAt_bound a) (charCodeAt_bound b)) as (H1 & H2 & H3).
    rewrite !dropPadding_plain by apply sextetChar_plain.
    eexists. split; [|split].
    + apply sextets_cons; [exact H1|]. apply sextets_cons; [apply mod_lt_64|].
      apply sextets_cons; [apply mod_lt_64|]. reflexivity.
    + cbn [bytesOf]. cbv zeta. rewrite H2, H3, !fromCharCode_charCodeAt. reflexivity.
    + discriminate.
  - destruct (three_bytes _ _ _ (charCodeAt_bound a) (charCodeAt_bound b) (charCodeAt_bound c))
      as (H1 & H2 & H3 & H4).
    rewrite !dropPadding_plain by apply sextetChar_plain.
    eexists. split; [|split].
    + apply sextets_cons; [exact H1|]. apply sextets_cons; [apply mod_lt_64|].
      apply sextets_cons; [apply mod_lt_64|]. apply sextets_cons; [apply mod_lt_64|]. exact Hl.
    + cbn [bytesOf]. cbv zeta. rewrite H2, H3, H4, !fromCharCode_charCodeAt, Hb. reflexivity.
    + cbn [String.length].
      match goal with |- (S (S (S (S ?n))) mod 4 <> 1)%nat => change ((4 + n) mod 4 <> 1)%nat end.
      rewrite mod4_step. exact Hn.
Qed.

Lemma atob_btoa (s : string) : atob (btoa s) = Ok s.
Proof.
  unfold atob. rewrite btoa_no_whitespace, btoa_length. cbn [Nat.eqb].
  destruct (btoa_decodes s) as (l & Hl & Hb & Hn).
  destruct (String.length (dropPadding (btoa s)) mod 4 =? 1)%nat eqn:E.
  - apply Nat.eqb_eq in E. contradiction.
  - rewrite Hl, Hb. reflexivity.
Qed.

Lemma binary_of_bytes (bytes : list Byte.byte) (acc : string) :
  fold_left (fun binary b => binary +:+ String (ascii_of_byte b) EmptyString) bytes acc
  = acc +:+ string_of_list_ascii (List.map ascii_of_byte bytes).
Proof.
  revert acc. induction bytes as [|b bytes IH]; intros acc; cbn [fold_left List.map].
  - symmetry. apply app_empty_r.
  - rewrite IH, app_assoc. reflexivity.
Qed.

(** [base64ToArrayBuffer] undoes [arrayBufferToBase64]: for every sequence
    of bytes, decoding its encoding does not fail and gives the same bytes
    back. *)
Theorem base64_round_trip :
  forall bytes : list Byte.byte,
    base64ToArrayBuffer (arrayBufferToBase64 bytes) = Ok bytes.
Proof.
  intros bytes. unfold base64ToArrayBuffer, arrayBufferToBase64.
  rewrite binary_of_bytes, atob_btoa, app_empty_l. f_equal.
  rewrite list_ascii_of_string_of_list_ascii, List.map_map.
  rewrite <- (List.map_id bytes) at 2. apply List.map_ext.
  intros b. apply byte_of_ascii_of_byte.
Qed.

(** The codec on the usual examples. *)
Example base64_vectors :
  btoa "Man" = "TWFu" /\ btoa "Ma" = "TWE=" /\ btoa "M" = "TQ==" /\
  atob " TW Fu" = Ok "Man" /\ atob "TQ" = Ok "M" /\
  atob "TQ=" = Throw "The string to be decoded is not correctly encoded." /\
  atob "TWFuT" = Throw "The string to be decoded is not correctly encoded." /\
  atob "TW-u" = Throw "The string to be decoded is not correctly encoded.".
Proof. vm_compute. repeat split. Qed.

End EncodingFacts.

(** ** The connection test route *)

Module TestRouteFacts.
Import Js JsFacts Sys Store StoreOps Crypto TestRoute.

Section WithEnvironment.
Variable caseTables : string -> string.
Variable ALLOWED_HOSTS : list string.
Variable urlHostname : string -> option string.
Variable templateText : option json -> string.
Variable Net : Type.
Variable testGitConnection : json -> Net -> result json * Net.

Local Abbreviation handler :=
  (POST caseTables ALLOWED_HOSTS urlHostname templateText Net testGitConnection).

(** The host the request declares: the [host] property when it is truthy,
    else the host read off [repoUrl]. *)
Local Abbreviation declared data :=
  (orJson (getOpt (Some data) "host")
          (JStr (extractHostFromUrl urlHostname (getOpt (Some data) "repoUrl")))).

(** The handler always answers, and it answers 200 or lets the Git test
    reach the network only for a request whose body parses, whose id
    finds something in the store, and whose decrypted data declare a host
    that is a string and passes [isHostAllowed]. *)
Theorem test_needs_an_allowed_host
    (id : string) (requestBody : result json) (st : State) (env : Env Net) :
  exists response env',
    handler id requestBody st env = (Ok response, env') /\
    (status response = 200%Z \/ net env' <> net env ->
     exists body data host,
       requestBody = Ok body /\
       getConnection id st <> Undefined /\
       getOpt (Some body) "decryptedData" = Some data /\
       declared data = JStr host /\
       isHostAllowed caseTables host ALLOWED_HOSTS = true).
Proof.
  assert (forall code message (e : Env Net) lines,
            exists response env',
              (Ok (failure code message), {| console := lines; net := net e |})
              = (Ok response, env') /\
              (code <> 200%Z ->
               status response = 200%Z \/ net env' <> net e -> False)) as Hfail.
  { intros code message e lines. eexists _, _. split; [reflexivity|].
    cbn. intros Hc [H | H]; congruence. }
  assert (forall code message lines,
            code <> 200%Z ->
            exists response env',
              (Ok (failure code message), {| console := lines; net := net env |})
              = (Ok response, env') /\
              (status response = 200%Z \/ net env' <> net env ->
               exists body data host,
                 requestBody = Ok body /\
                 getConnection id st <> Undefined /\
                 getOpt (Some body) "decryptedData" = Some data /\
                 declared data = JStr host /\
                 isHostAllowed caseTables host ALLOWED_HOSTS = true)) as Hno.
  { intros code message lines Hc. destruct (Hfail code message env lines) as (r & e' & E & H).
    exists r, e'. split; [exact E|]. intros H'. destruct (H Hc H'). }
  assert (forall e : Env Net, e = {| console := console e; net := net e |}) as Heta
    by (intros []; reflexivity).
  unfold POST, tryCatch, bind. destruct requestBody as [body|e].
  2:{ cbn. apply Hno. discriminate. }
  destruct (getConnection id st) eqn:Eg.
  3:{ cbn. rewrite (Heta env). apply Hno. discriminate. }
  all: assert (getConnection id st <> Undefined) as Hg by (rewrite Eg; discriminate).
  all: clear Eg.
  all: unfold destructure; destruct body as [| b | m e | text | items | fields];
    try (cbn; apply Hno; discriminate);
    try (cbn; rewrite (Heta env); apply Hno; discriminate).
  all: cbn [ret throw fst snd].
  all: destruct (assoc "decryptedData" fields) as [data|] eqn:Ed;
    [|cbn; rewrite (Heta env); apply Hno; discriminate].
  all: destruct (truthy (Some data)) eqn:Et;
    [|cbn; rewrite (Heta env); apply Hno; discriminate].
  all: cbn [negb].
  all: unfold checkHost;
    destruct (declared data) as [| b | m e | host | items | fields'] eqn:Eh;
    try (cbn; apply Hno; discriminate).
  all: cbn [ret].
  all: destruct (isHostAllowed caseTables host ALLOWED_HOSTS) eqn:Ea;
    [|cbn; rewrite (Heta env); apply Hno; discriminate].
  all: cbn [negb].
  all: match goal with
       | |- exists r e, _ /\ (_ -> ?C) =>
           assert C as Hyes
             by (exists (JObj fields), data, host;
                 repeat split; auto; discriminate)
       end.
  all: destruct (getOpt (Some data) "type") as [[| b | m e | ty | items | fields']|];
    try (cbn; rewrite (Heta env); apply Hno; discriminate).
  all: repeat match goal with
         | |- context [match ?t with EmptyString => _ | String _ _ => _ end] =>
             destruct t as [|[[] [] [] [] [] [] [] []] ?]
         end;
    try (cbn; rewrite (Heta env); apply Hno; discriminate).
  all: try (cbn; eexists _, _; split; [reflexivity | intros _; exact Hyes]).
  all: unfold callGitTest;
    match goal with
    | |- context [testGitConnection ?d ?n] =>
        destruct (testGitConnection d n) as [[result|e] n']
    end; cbn;
    eexists _, _; (split; [reflexivity | intros _; exact Hyes]).
Qed.

End WithEnvironment.

Lemma matchGitAt_ssh_form (host path : string) :
  host <> "" -> hasChar ":" host = false ->
  matchGitAt ("git@" +:+ host +:+ ":" +:+ path) = Some host.
Proof.
  intros Hne Hc.
  assert (splitHead ":" (host +:+ ":" +:+ path) = host) as Hrun.
  { rewrite (splitHead_app_clean ":" host _ Hc). cbn. apply app_empty_r. }
  assert (drop (String.length host) (host +:+ ":" +:+ path) = ":" +:+ path) as Hdrop
    by apply drop_app.
  change ("git@" +:+ host +:+ ":" +:+ path)
    with (String "g" (String "i" (String "t" (String "@" (host +:+ ":" +:+ path))))).
  cbn [matchGitAt]. cbn [drop startsWith Ascii.eqb Bool.eqb andb].
  rewrite Hrun. cbn [Nat.add drop]. rewrite Hdrop.
  destruct (String.eqb host "") eqn:E; [apply String.eqb_eq in E; contradiction|].
  reflexivity.
Qed.

(** The host of a repository address in the SSH form [git@host:path], for
    a non-empty host without a colon, is the text between the at sign and
    the first colon; a missing or empty address gives the empty string. *)
Theorem extractHostFromUrl_ssh_form :
  forall (urlHostname : string -> option string) (host path : string),
    host <> "" -> hasChar ":" host = false ->
    extractHostFromUrl urlHostname (Some (JStr ("git@" +:+ host +:+ ":" +:+ path))) = host /\
    extractHostFromUrl urlHostname None = "" /\
    extractHostFromUrl urlHostname (Some (JStr "")) = "".
Proof.
  intros urlHostname host path Hne Hc. split; [|split; reflexivity].
  unfold extractHostFromUrl.
  change ("git@" +:+ host +:+ ":" +:+ path)
    with (String "g" (String "i" (String "t" (String "@" (host +:+ ":" +:+ path))))).
  cbn [truthy negb startsWith Ascii.eqb Bool.eqb].
  change (String "g" (String "i" (String "t" (String "@" (host +:+ ":" +:+ path)))))
    with ("git@" +:+ host +:+ ":" +:+ path).
  rewrite (matchGitAt_ssh_form host path Hne Hc). reflexivity.
Qed.

Lemma extractHostFromUrl_ssh_form_witness :
  extractHostFromUrl (fun _ => None) (Some (JStr "git@github.com:acme/site.git")) = "github.com" /\
  extractHostFromUrl (fun _ => None) None = "" /\
  extractHostFromUrl (fun _ => None) (Some (JStr "")) = "".
Proof.
  apply (extractHostFromUrl_ssh_form (fun _ => None) "github.com" "acme/site.git");
    [discriminate | reflexivity].
Defined.

End TestRouteFacts.

(** ** The files the patch sets generate *)

Module GeneratedFacts.
Import Js Sys.


End GeneratedFacts.

(** ** lib/optimizer/audit.ts: the audit report *)

Module AuditFacts.
Import Js Sys Spec SysFacts TraceFacts StageFacts Audit.

Lemma post_any {S A : Type} (m : M S A) (s : S) (Q : result A -> S -> Prop) :
  (forall r s', Q r s') -> post m s Q.
Proof. intros H. apply H. Qed.

(** The snapshot is of the page and for the device asked for, also when
    the audit failed. *)
Lemma runLighthouse_labels (h : Host) (address : string) (preset : Preset) (w : World) :
  post (runLighthouse h address preset) w
    (fun r _ => forall x, r = Ok x -> url x = address /\ device x = preset).
Proof.
  unfold runLighthouse. apply post_tryCatch.
  repeat (apply post_bind; apply post_any; intros [?|?] ?;
          [|unfold post; cbn; intros ? [= <-]; split; reflexivity]).
  apply post_ret. intros ? [= <-]. split; reflexivity.
Qed.

Lemma runLighthouse_answers (h : Host) (address : string) (preset : Preset) (w : World) :
  exists x w' extra,
    runLighthouse h address preset w = (Ok x, w') /\
    url x = address /\ device x = preset /\
    commands w' = (commands w ++ extra)%list /\ (length extra <= 1)%nat /\
    Forall (fun rec => startsWith (cmd rec) "npx lighthouse " = true) extra.
Proof.
  destruct (runLighthouse_call h address preset w) as (x & w' & E & H).
  pose proof (runLighthouse_labels h address preset w) as L. unfold post in L.
  rewrite E in L. destruct (L x eq_refl) as [L1 L2].
  destruct H as [[Hc _] | (rec & Hc & Hl & _)].
  - exists x, w', []. rewrite app_nil_r. repeat split; auto.
  - exists x, w', [rec]. repeat split; auto.
Qed.

(** [generateAuditReport] never fails and takes the snapshots asked for,
    and only those: a desktop snapshot of the address before when one is
    given, a desktop and a mobile snapshot of the address after when one
    is given.  It starts at most one audit per snapshot and nothing else,
    and the report has no [desktop] snapshot and no bundle analysis. *)
Theorem generateAuditReport_takes_what_is_asked :
  forall (h : Host) (beforeUrl afterUrl : option string) (w : World),
  exists report w' extra,
    AuditReports.generateAuditReport h beforeUrl afterUrl w = (Ok report, w') /\
    commands w' = (commands w ++ extra)%list /\
    (length extra <= (if AuditReports.given beforeUrl then 1 else 0)
                     + (if AuditReports.given afterUrl then 2 else 0))%nat /\
    Forall (fun rec => startsWith (cmd rec) "npx lighthouse " = true) extra /\
    match AuditReports.before (AuditReports.lighthouse report) with
    | Some x => AuditReports.given beforeUrl = true /\
                Some (url x) = beforeUrl /\ device x = desktop
    | None => AuditReports.given beforeUrl = false
    end /\
    match AuditReports.after (AuditReports.lighthouse report),
          AuditReports.mobile (AuditReports.lighthouse report) with
    | Some a, Some m => AuditReports.given afterUrl = true /\
                        Some (url a) = afterUrl /\ device a = desktop /\
                        Some (url m) = afterUrl /\ device m = mobile
    | None, None => AuditReports.given afterUrl = false
    | _, _ => False
    end /\
    AuditReports.desktop (AuditReports.lighthouse report) = None /\
    AuditReports.bundles report = None.
Proof.
  intros h beforeUrl afterUrl w.
  unfold AuditReports.generateAuditReport, bind, isoNow, ret. cbn [fst snd].
  set (w0 := tick w). assert (commands w0 = commands w) as E0 by reflexivity. clearbody w0.
  assert (forall o : option string, AuditReports.given o = true -> Some (default "" o) = o) as Hd.
  { intros [t|]; [reflexivity | discriminate]. }
  destruct (AuditReports.given beforeUrl) eqn:Gb.
  - destruct (runLighthouse_answers h (default "" beforeUrl) Audit.desktop w0)
      as (x & w1 & e1 & -> & U1 & D1 & C1 & L1 & F1).
    destruct (AuditReports.given afterUrl) eqn:Ga.
    + destruct (runLighthouse_answers h (default "" afterUrl) Audit.desktop w1)
        as (y & w2 & e2 & -> & U2 & D2 & C2 & L2 & F2).
      destruct (runLighthouse_answers h (default "" afterUrl) Audit.mobile w2)
        as (z & w3 & e3 & -> & U3 & D3 & C3 & L3 & F3).
      eexists _, _, (e1 ++ e2 ++ e3)%list. split; [reflexivity|]. cbn.
      rewrite U1, U2, U3, !Hd by assumption.
      split; [rewrite C3, C2, C1, E0, <- !app_assoc; reflexivity|].
      split; [rewrite !length_app; lia|].
      split; [rewrite !Forall_app; auto|]. auto 10.
    + eexists _, _, e1. split; [reflexivity|]. cbn. rewrite U1, Hd by assumption.
      split; [rewrite C1, E0; reflexivity|]. split; [lia|]. auto 10.
  - destruct (AuditReports.given afterUrl) eqn:Ga.
    + destruct (runLighthouse_answers h (default "" afterUrl) Audit.desktop w0)
        as (y & w2 & e2 & -> & U2 & D2 & C2 & L2 & F2).
      destruct (runLighthouse_answers h (default "" afterUrl) Audit.mobile w2)
        as (z & w3 & e3 & -> & U3 & D3 & C3 & L3 & F3).
      eexists _, _, (e2 ++ e3)%list. split; [reflexivity|]. cbn.
      rewrite U2, U3, !Hd by assumption.
      split; [rewrite C3, C2, E0, <- !app_assoc; reflexivity|].
      split; [rewrite !length_app; lia|].
      split; [rewrite !Forall_app; auto|]. auto 10.
    + eexists _, _, []. split; [reflexivity|]. cbn.
      split; [rewrite app_nil_r; exact E0|]. split; [lia|]. auto 10.
Qed.

End AuditFacts.

(** ** The stages that run tools in the working tree *)

Module ToolFacts.
Import Js Sys Spec SysFacts Optimizer.

Section WithHost.
Variable h : Host.
Variable workDir : string.

Local Abbreviation ran command ok :=
  ({| cmd := command; cwd := Some workDir; succeeded := ok |}).

(** Add, commit, push, in this order and each only after the one
    before it has succeeded; a failure of any of the three is recorded as
    one warning, and nothing is thrown. *)
Theorem commitChanges_stops_at_the_first_failure :
  forall (config : OptimizationConfig) (r : OptimizationReport) (w : World),
    let add := "git add ." in
    let commit := "git commit -m " +:+ dq +:+ commitMessage r +:+ dq in
    let push := "git push -u origin " +:+ optimizeBranch config in
    exists r' w' started,
      commitChanges h workDir config (r, w) = (Ok tt, (r', w')) /\
      commands w' = (commands w ++ started)%list /\
      (started = [ran add true; ran commit true; ran push true] /\ r' = r
       \/ (started = [ran add false]
           \/ started = [ran add true; ran commit false]
           \/ started = [ran add true; ran commit true; ran push false]) /\
          r' = pushWarning "Commit/push a échoué" r).
Proof.
  intros config r w add commit push.
  unfold commitChanges, tryCatch, bind, liftW, log, execAsync, getL, modifyL.
  cbn [fst snd fs clock console commands].
  repeat match goal with
         | |- context [exec h ?t ?c ?d ?f] =>
             let so := fresh "so" in let se := fresh "se" in let f' := fresh "f" in
             destruct (exec h t c d f) as [[so|se] f']; cbn [fst snd fs clock console commands]
         end;
    eexists _, _, _; (split; [reflexivity|]); cbn [commands];
    rewrite <- ?app_assoc; (split; [reflexivity|]); cbn [app]; auto 6.
Qed.

(** The three quality tools all run, whatever the others did; only
    the linter and the vulnerability scan can add a warning, and the
    report is otherwise untouched. *)
Theorem runQualityChecks_runs_all_three :
  forall (r : OptimizationReport) (w : World),
    exists r' w' lintOk formatOk scanOk scanWarnings,
      runQualityChecks h workDir (r, w) = (Ok tt, (r', w')) /\
      commands w' =
        (commands w ++
         [ ran "npm run lint -- --fix" lintOk;
           ran ("npx prettier --write " +:+ dq +:+ "**/*.{ts,tsx,js,jsx,json,css,md}" +:+ dq)
               formatOk;
           ran "npm audit --json" scanOk ])%list /\
      sameButWarnings r r' /\
      warnings r' =
        (warnings r
         ++ (if lintOk : bool then [] else ["ESLint a détecté des erreurs (non bloquant)"])
         ++ scanWarnings)%list /\
      (length scanWarnings <= 1)%nat /\
      Forall (fun line => startsWith line "npm audit: " = true) scanWarnings /\
      (scanOk = false -> scanWarnings = []).
Proof.
  intros r w.
  unfold runQualityChecks, tryCatch, bind, liftW, log, execAsync, modifyL, parseJson, getProp,
    ret, throw.
  cbn [fst snd fs clock console commands].
  repeat match goal with
         | |- context [exec h ?t ?c ?d ?f] =>
             let so := fresh "so" in let se := fresh "se" in let f' := fresh "f" in
             destruct (exec h t c d f) as [[so|se] f']; cbn [fst snd fs clock console commands]
         end.
  all: try match goal with
           | |- context [JSON_parse h ?t] => destruct (JSON_parse h t) as [[]|]
           end.
  all: cbn [ret throw fst snd].
  all: try match goal with
           | |- context [gtZero ?a ?x] => destruct (gtZero a x)
           end.
  all: cbn [ret throw fst snd commands].
  all: eexists _, _, _, _, _, _; (split; [reflexivity|]); cbn [commands];
    rewrite <- ?app_assoc; (split; [reflexivity|]).
  all: cbn [warnings pushWarning]; (split; [repeat split|]);
    rewrite <- ?app_assoc; cbn [app];
    (split; [first [reflexivity | symmetry; apply app_nil_r]|]);
    (split; [cbn; lia|]);
    (split; [repeat constructor | first [discriminate | reflexivity]]).
Qed.

End WithHost.
End ToolFacts.

(** ** How the shell reads the command lines *)

Module ShellFacts.
Import Js JsFacts Sys Traces.

Lemma every_app (P : ascii -> bool) (a b : string) :
  every P (a +:+ b) = every P a && every P b.
Proof.
  induction a as [|c a IH]; [reflexivity|].
  rewrite app_cons. cbn [every]. rewrite IH, andb_assoc. reflexivity.
Qed.

Lemma every_rev_app (P : ascii -> bool) (s acc : string) :
  every P (String.rev_app s acc) = every P s && every P acc.
Proof.
  revert acc. induction s as [|c s IH]; intros acc; [reflexivity|].
  cbn [String.rev_app every]. rewrite IH. cbn [every].
  destruct (P c), (every P s), (every P acc); reflexivity.
Qed.

Lemma every_rev (P : ascii -> bool) (s : string) : every P (String.rev s) = every P s.
Proof. unfold String.rev. rewrite every_rev_app. cbn [every]. apply andb_true_r. Qed.

Lemma every_splitGo (P : ascii -> bool) (sep : ascii) (s cur : string) :
  every P cur = true -> every P s = true ->
  Forall (fun x => every P x = true) (splitGo sep cur s).
Proof.
  revert cur. induction s as [|c s IH]; intros cur Hc Hs; cbn [splitGo].
  - constructor; [rewrite every_rev; exact Hc | constructor].
  - cbn [every] in Hs. apply andb_true_iff in Hs as [H1 H2].
    destruct (Ascii.eqb c sep).
    + constructor; [rewrite every_rev; exact Hc|]. apply IH; [reflexivity | exact H2].
    + apply IH; [cbn [every]; rewrite H1, Hc; reflexivity | exact H2].
Qed.

Lemma every_join (P : ascii -> bool) (sep : string) (l : list string) :
  every P sep = true -> Forall (fun x => every P x = true) l -> every P (join sep l) = true.
Proof.
  intros Hsep F. induction F as [|x l Hx F IH]; [reflexivity|].
  destruct l as [|y l]; [exact Hx|].
  change (every P (x +:+ sep +:+ join sep (y :: l)) = true).
  rewrite !every_app, Hx, Hsep, IH. reflexivity.
Qed.

Lemma every_pushSegment (P : ascii -> bool) (above : bool) (kept : list string) (seg : string) :
  Forall (fun x => every P x = true) kept -> every P seg = true ->
  Forall (fun x => every P x = true) (pushSegment above kept seg).
Proof.
  intros F Hs. unfold pushSegment.
  destruct (String.eqb seg "" || String.eqb seg "."); [exact F|].
  destruct (String.eqb seg "..").
  - destruct F as [|x kept Hx F]; [destruct above; repeat constructor; exact Hs|].
    destruct (String.eqb x ".."); [repeat constructor; assumption | exact F].
  - constructor; assumption.
Qed.

Lemma every_normalize (P : ascii -> bool) (p : string) :
  P "/"%char = true -> P "."%char = true -> every P p = true -> every P (normalize p) = true.
Proof.
  intros Hslash Hdot Hp. unfold normalize.
  destruct (String.eqb p ""); [cbn; rewrite Hdot; reflexivity|].
  set (segments := fold_left _ _ _).
  assert (Forall (fun x => every P x = true) segments) as F.
  { subst segments. unfold split.
    pose proof (every_splitGo P "/" p "" eq_refl Hp) as Fs.
    revert Fs. generalize (splitGo "/" "" p).
    assert (Forall (fun x => every P x = true) (@nil string)) as F0 by constructor.
    revert F0. generalize (@nil string).
    intros kept Fk l Fl. revert kept Fk.
    induction Fl as [|x l Hx Fl IH]; intros kept Fk; [exact Fk|].
    cbn [fold_left]. apply IH. apply every_pushSegment; assumption. }
  assert (every P (join "/" (rev segments)) = true) as Hbody.
  { apply every_join; [cbn; rewrite Hslash; reflexivity|]. apply Forall_rev. exact F. }
  destruct (String.eqb (join "/" (rev segments)) "").
  - destruct (startsWith p "/"); [cbn; rewrite Hslash; reflexivity|].
    destruct (endsWith p "/"); cbn; rewrite ?Hdot, ?Hslash; reflexivity.
  - rewrite !every_app, Hbody.
    destruct (startsWith p "/"), (endsWith p "/"); cbn; rewrite ?Hslash; reflexivity.
Qed.

Lemma every_pathJoin (P : ascii -> bool) (a b : string) :
  P "/"%char = true -> P "."%char = true -> every P a = true -> every P b = true ->
  every P (pathJoin a b) = true.
Proof.
  intros Hslash Hdot Ha Hb. unfold pathJoin.
  destruct (String.eqb a ""); [apply every_normalize; assumption|].
  destruct (String.eqb b ""); apply every_normalize; try assumption.
  rewrite !every_app, Ha, Hb. cbn. rewrite Hslash. reflexivity.
Qed.


Lemma every_string_of_uint (d : Decimal.uint) : every numeral (NilEmpty.string_of_uint d) = true.
Proof. induction d; cbn [NilEmpty.string_of_uint every]; rewrite ?IHd; reflexivity. Qed.

Lemma every_showNat (n : nat) : every numeral (showNat n) = true.
Proof.
  unfold showNat, NilZero.string_of_uint.
  destruct (Nat.to_uint n) eqn:E; try reflexivity; rewrite <- E; apply every_string_of_uint.
Qed.

Lemma every_showZ (z : Z) : every numeral (showZ z) = true.
Proof.
  unfold showZ, NilZero.string_of_int.
  destruct (Z.to_int z) as [d|d]; unfold NilZero.string_of_uint.
  - destruct d eqn:E; try reflexivity; rewrite <- E; apply every_string_of_uint.
  - destruct d eqn:E; try reflexivity; rewrite <- E; cbn [every];
      rewrite every_string_of_uint; reflexivity.
Qed.

Lemma every_weaken (P Q : ascii -> bool) (s : string) :
  (forall c, P c = true -> Q c = true) -> every P s = true -> every Q s = true.
Proof.
  intros H. induction s as [|c s IH]; [reflexivity|]. cbn [every].
  intros E. apply andb_true_iff in E as [E1 E2]. rewrite (H c E1), (IH E2). reflexivity.
Qed.

Lemma numeral_plain (c : ascii) : numeral c = true -> plainChar c = true.
Proof.
  unfold numeral. intros H. apply orb_true_iff in H as [H | H].
  - apply Ascii.eqb_eq in H. subst c. reflexivity.
  - apply andb_true_iff in H as [H1 H2]. apply Nat.leb_le in H1. apply Nat.leb_le in H2.
    rewrite <- (ascii_nat_embedding c).
    assert (nat_of_ascii c = 48 \/ nat_of_ascii c = 49 \/ nat_of_ascii c = 50
            \/ nat_of_ascii c = 51 \/ nat_of_ascii c = 52 \/ nat_of_ascii c = 53
            \/ nat_of_ascii c = 54 \/ nat_of_ascii c = 55 \/ nat_of_ascii c = 56
            \/ nat_of_ascii c = 57)%nat as Hc by lia.
    repeat (destruct Hc as [-> | Hc]; [reflexivity|]). rewrite Hc. reflexivity.
Qed.

Lemma plain_showZ (z : Z) : plain (showZ z) = true.
Proof. exact (every_weaken _ _ _ numeral_plain (every_showZ z)). Qed.

Lemma plain_showNat (n : nat) : plain (showNat n) = true.
Proof. exact (every_weaken _ _ _ numeral_plain (every_showNat n)). Qed.

Lemma plain_app (a b : string) : plain (a +:+ b) = plain a && plain b.
Proof. apply every_app. Qed.

Lemma plain_pathJoin (a b : string) :
  plain a = true -> plain b = true -> plain (pathJoin a b) = true.
Proof. apply every_pathJoin; reflexivity. Qed.

Lemma plain_quotable (s : string) : plain s = true -> quotable s = true.
Proof.
  apply every_weaken. intros c H. unfold plainChar, quotableChar in *.
  repeat (apply andb_true_iff in H as [H ?]). rewrite H. cbn.
  match goal with H' : negb (Ascii.eqb c _) = true |- _ => rewrite H' end. reflexivity.
Qed.

(** A plain value changes nothing in the way the rest of the line is read. *)
Lemma reads_plain (quoted : bool) (value rest : string) :
  plain value = true -> reads quoted (value +:+ rest) = reads quoted rest.
Proof.
  intros H. induction value as [|c value IH]; [reflexivity|].
  rewrite app_cons. cbn [plain every] in H. apply andb_true_iff in H as [Hc H].
  unfold plainChar in Hc. repeat (apply andb_true_iff in Hc as [Hc ?]).
  cbn [reads].
  match goal with H' : negb (Ascii.eqb c (ascii_of_nat 34)) = true |- _ =>
    apply negb_true_iff in H'; rewrite H' end.
  match goal with H' : negb (separates c) = true |- _ =>
    apply negb_true_iff in H'; rewrite H' end.
  apply negb_true_iff in Hc. rewrite Hc, andb_false_r. cbn [orb]. apply IH. exact H.
Qed.

(** Between double quotes, a quotable value changes nothing either. *)
Lemma reads_quotable (value rest : string) :
  quotable value = true -> reads true (value +:+ rest) = reads true rest.
Proof.
  intros H. induction value as [|c value IH]; [reflexivity|].
  rewrite app_cons. cbn [quotable every] in H. apply andb_true_iff in H as [Hc H].
  unfold quotableChar in Hc. apply andb_true_iff in Hc as [Hc Hq].
  cbn [reads]. apply negb_true_iff in Hq. apply negb_true_iff in Hc.
  rewrite Hq, Hc. cbn [negb andb orb]. apply IH. exact H.
Qed.

(** A piece of the line that is read through. *)
Lemma reads_through (quoted quoted' : bool) (piece rest : string) :
  reads quoted piece = Some quoted' -> reads quoted (piece +:+ rest) = reads quoted' rest.
Proof.
  revert quoted. induction piece as [|c piece IH]; intros quoted H.
  - cbn in H. injection H as ->. reflexivity.
  - rewrite app_cons. cbn [reads] in *.
    destruct (Ascii.eqb c (ascii_of_nat 34)); [apply IH; exact H|].
    destruct (expands c || negb quoted && separates c); [discriminate|]. apply IH. exact H.
Qed.

Lemma reads_plain_end (quoted : bool) (value : string) :
  plain value = true -> reads quoted value = Some quoted.
Proof.
  intros H. rewrite <- (app_empty_r value). rewrite reads_plain by exact H. reflexivity.
Qed.

Ltac solve_plain :=
  repeat first
    [ assumption
    | apply plain_pathJoin
    | apply plain_showZ
    | apply plain_showNat
    | rewrite plain_app; apply andb_true_intro; split
    | reflexivity ].

(** Reading a command line piece by piece. *)
Ltac read_line :=
  unfold oneCommand;
  repeat first
    [ rewrite reads_plain by solve_plain
    | rewrite reads_quotable by (first [assumption | apply plain_quotable; solve_plain])
    | erewrite reads_through by (vm_compute; reflexivity) ];
  first [ reflexivity | rewrite reads_plain_end by solve_plain; reflexivity ].

Lemma plainConfig_fields (h : Host) (config : Optimizer.OptimizationConfig) :
  plainConfig h config = true ->
  let c := Optimizer.connectionData config in
  plain (tmpdir h) = true /\ plain (processCwd h) = true /\
  plain (Optimizer.connectionId config) = true /\ plain (Optimizer.siteUrl config) = true /\
  plain (Optimizer.optimizeBranch config) = true /\
  plain (orElse (Connection.branch c) "main") = true /\
  plain (tpl (Connection.repoUrl c)) = true /\
  plain (tpl (Connection.username c)) = true /\ plain (tpl (Connection.host c)) = true /\
  plain (orElse (Connection.remotePath c) "/var/www/html") = true.
Proof.
  unfold plainConfig. intros H. cbn zeta.
  repeat (apply andb_true_iff in H as [H ?]). repeat split; assumption.
Qed.

End ShellFacts.

(** ** The phases of a run *)

Module PhaseFacts.
Import Js Sys Spec SysFacts TraceFacts StageFacts PipelineFacts Traces ShellFacts.

Section WithHost.
Variable h : Host.
Variable config : Optimizer.OptimizationConfig.

Local Abbreviation early d := (Traces.early h config d).
Local Abbreviation late d := (Traces.late h config d).

Lemma beforeBuild_here (d c : string) (ok : bool) :
  String.eqb c ("git checkout -b " +:+ Optimizer.optimizeBranch config)
  || existsb (String.eqb c)
       [ "pnpm install"; "yarn install"; "npm install";
         "npm run lint -- --fix"; prettierCommand; "npm audit --json" ] = true ->
  beforeBuild config d {| cmd := c; cwd := Some d; succeeded := ok |} = true.
Proof. intros H. unfold beforeBuild. cbn [cwd cmd]. rewrite String.eqb_refl. exact H. Qed.

Lemma afterBuild_here (d c : string) (ok : bool) :
  String.eqb c "git add ."
  || startsWith c "git commit -m "
  || String.eqb c ("git push -u origin " +:+ Optimizer.optimizeBranch config)
  || (Optimizer.preferPr config && startsWith c "gh pr create --title ") = true ->
  afterBuild config d {| cmd := c; cwd := Some d; succeeded := ok |} = true.
Proof. intros H. unfold afterBuild. cbn [cwd cmd]. rewrite String.eqb_refl. exact H. Qed.

Ltac listed :=
  first [ apply beforeBuild_here | apply afterBuild_here | idtac ];
  rewrite ?String.eqb_refl; rewrite ?orb_true_r; reflexivity.

(** The values of a plain configuration, as hypotheses. *)
Ltac plain_values H :=
  let F := fresh "F" in
  pose proof (plainConfig_fields h config H) as F; cbn zeta in F;
  destruct F as (? & ? & ? & ? & ? & ? & ? & ? & ? & ?).

(** A subprocess of the first phase: listed, and one simple command. *)
Ltac early_line :=
  split; [listed | let H := fresh "Hplain" in intros H; plain_values H; cbn [cmd]; read_line].

(** A subprocess of the second phase. *)
Ltac late_line :=
  split; [listed
         | let H := fresh "Hplain" in intros H ?; plain_values H; cbn [cmd]; read_line].

Lemma runLighthouse_early (d : string) (preset : Audit.Preset) :
  keeps (grows (early d)) (Audit.runLighthouse h (Optimizer.siteUrl config) preset).
Proof.
  unfold Audit.runLighthouse. keeps_all.
  unfold Audit.lighthouseCommand, Audit.REPORTS_DIR. destruct preset; early_line.
Qed.

Lemma runLighthouse_late (d : string) (preset : Audit.Preset) :
  keeps (grows (late d)) (Audit.runLighthouse h (Optimizer.siteUrl config) preset).
Proof.
  unfold Audit.runLighthouse. keeps_all.
  unfold Audit.lighthouseCommand, Audit.REPORTS_DIR. destruct preset; late_line.
Qed.

Lemma createOptimizationBranch_early (d : string) :
  keeps (grows (early d))
    (Optimizer.createOptimizationBranch h d (Optimizer.optimizeBranch config)).
Proof. unfold Optimizer.createOptimizationBranch. keeps_all. early_line. Qed.

Lemma installDependencies_early (d : string) :
  keeps (grows (early d)) (Optimizer.installDependencies h d).
Proof.
  unfold Optimizer.installDependencies. keeps_all.
  match goal with |- context [if ?a then _ else if ?b then _ else _] => destruct a, b end;
    early_line.
Qed.

Lemma runQualityChecks_early (d : string) :
  keeps (warnsOnly (early d)) (Optimizer.runQualityChecks h d).
Proof. unfold Optimizer.runQualityChecks. keeps_all; early_line. Qed.

Lemma quotable_scoreOrNA (x : option Audit.LighthouseResult) (f : Audit.Scores -> Z) :
  quotable (Optimizer.scoreOrNA x f) = true.
Proof.
  unfold Optimizer.scoreOrNA. destruct x as [r|]; [|reflexivity].
  destruct (f (Audit.scores r) =? 0)%Z; [reflexivity|]. apply plain_quotable, plain_showZ.
Qed.

(** The commit message stays itself between double quotes. *)
Lemma quotable_commitMessage (report : Optimizer.OptimizationReport) :
  quotable (Optimizer.commitMessage report) = true.
Proof.
  unfold Optimizer.commitMessage, quotable.
  repeat (rewrite every_app; apply andb_true_intro; split);
    first [ apply quotable_scoreOrNA | apply plain_quotable, plain_showNat | reflexivity ].
Qed.

Lemma commitChanges_late (d : string) :
  keeps (warnsOnly (late d)) (Optimizer.commitChanges h d config).
Proof.
  unfold Optimizer.commitChanges. keeps_all; try late_line.
  split; [listed|]. intros Hplain _. cbn [cmd].
  match goal with |- context [Optimizer.commitMessage ?r] =>
    pose proof (quotable_commitMessage r)
  end.
  read_line.
Qed.

Lemma createPullRequest_late (d : string) :
  Optimizer.preferPr config = true ->
  keeps (warnsOnly (late d)) (Optimizer.createPullRequest h d config).
Proof.
  intros Hpr. unfold Optimizer.createPullRequest. keeps_all.
  split; [apply afterBuild_here; rewrite Hpr; reflexivity|].
  intros _ H. cbn [cmd] in H. discriminate H.
Qed.

Lemma prepareWorkingDirectory_named (w : World) :
  post (Optimizer.prepareWorkingDirectory h config) w
    (fun r w' =>
       commands w' = commands w /\
       match r with
       | Ok d => d = workDirOf h config w
       | Throw _ => True
       end).
Proof.
  unfold Optimizer.prepareWorkingDirectory, post, bind, DateNow, mkdir, log. cbn [fst snd tick fs].
  destruct (bool_decide _); cbn; split; auto.
Qed.

Lemma plain_workDirOf (w : World) :
  plainConfig h config = true -> plain (workDirOf h config w) = true.
Proof. intros H. plain_values H. unfold workDirOf. solve_plain. Qed.

Lemma fetchSources_early (d : string) (w : World) :
  (plainConfig h config = true -> plain d = true) ->
  post (Optimizer.fetchSources h config d) w
    (fun r w' =>
       exists l, commands w' = (commands w ++ l)%list /\ (length l <= 1)%nat /\
                 Forall (early d) l).
Proof.
  intros Hd. unfold Optimizer.fetchSources.
  assert (forall c ok,
            startsWith c "git clone --depth 1 --branch " || startsWith c "scp -r " = true ->
            (plainConfig h config = true -> oneCommand c = true) ->
            early d {| cmd := c; cwd := None; succeeded := ok |}) as Hline.
  { intros c ok Hc Ho. split; [|exact Ho]. unfold beforeBuild. cbn [cwd cmd].
    rewrite Hc. reflexivity. }
  destruct (String.eqb (Connection.type (Optimizer.connectionData config)) "git").
  - unfold post, bind, log, execAsync. cbn [fst snd fs clock console commands].
    match goal with
    | |- context [exec h ?t ?c ?dir ?f] => destruct (exec h t c dir f) as [[so|se] f']
    end; cbn [fst snd commands]; eexists [_]; (split; [reflexivity|]);
      (split; [cbn [length]; lia|]); repeat constructor;
      (apply Hline; [reflexivity|]); intros Hplain; specialize (Hd Hplain);
      plain_values Hplain; read_line.
  - destruct (String.eqb (Connection.type (Optimizer.connectionData config)) "ssh"
              || String.eqb (Connection.type (Optimizer.connectionData config)) "sftp").
    + unfold post, bind, tryCatch, log, execAsync. cbn [fst snd fs clock console commands].
      match goal with
      | |- context [exec h ?t ?c ?dir ?f] => destruct (exec h t c dir f) as [[so|se] f']
      end; cbn [fst snd commands throw]; eexists [_]; (split; [reflexivity|]);
        (split; [cbn [length]; lia|]); repeat constructor;
        (apply Hline; [reflexivity|]); intros Hplain; specialize (Hd Hplain);
        plain_values Hplain; read_line.
    + unfold post. cbn. exists []. rewrite app_nil_r. repeat split; [cbn; lia | constructor].
Qed.

Ltac fold_in Pr G G' :=
  first [ apply (grows_quiet Pr) in G' | idtac ];
  apply (grows_trans Pr _ _ _ G) in G'; clear G; rename G' into G.

Ltac world_stage Pr T K G :=
  apply post_bind; eapply (post_stage _ _ _ _ T K); cbn [fst snd];
  let a := fresh "a" in let w := fresh "w" in let G' := fresh "G" in
  intros a w G'; fold_in Pr G G'.

Ltac report_step Pr T K G :=
  apply post_bind; eapply (post_total_keeps (warnsOnly Pr) _ _ _ T K);
  let a := fresh "a" in let r := fresh "r" in let w := fresh "w" in
  let S := fresh "S" in let G' := fresh "G" in
  intros a [r w] [S G']; cbn [fst snd] in S, G'; fold_in Pr G G'.

Lemma pipeline_walk (w0 : World) :
  post (tryCatch (Optimizer.pipelineSteps h config) onAbort)
    (Optimizer.initialReport config, w0)
    (fun res s' =>
       res = Ok tt /\
       exists extra, commands (snd s') = (commands w0 ++ extra)%list /\
                     shaped h config w0 (fst s') extra).
Proof.
  set (Q := fun (res : result unit) (s' : Optimizer.OptimizationReport * World) =>
       res = Ok tt /\
       exists extra, commands (snd s') = (commands w0 ++ extra)%list /\
                     shaped h config w0 (fst s') extra).
  assert (forall e r w extra,
            commands w = (commands w0 ++ extra)%list ->
            shaped h config w0 (Optimizer.setSuccess false (Optimizer.pushError e r)) extra ->
            post (onAbort e) (r, w) Q) as Habort.
  { intros e r w extra E O. unfold post, Q. cbn. split; [reflexivity|]. exists extra. auto. }
  apply post_tryCatch. unfold Optimizer.pipelineSteps.
  (* 1. working directory *)
  apply post_bind. eapply post_liftW, post_mono; [apply prepareWorkingDirectory_named|].
  cbn [fst snd]. intros [d|e] w1 [E1 Hd].
  2:{ apply (Habort e _ _ []); [rewrite app_nil_r; exact E1|]. left. repeat split. }
  fold (workDirOf h config w0) in Hd.
  apply post_bind, post_modifyL. cbn [fst snd].
  (* 2. source fetch *)
  assert (plainConfig h config = true -> plain d = true) as Hpd.
  { intros Hplain. rewrite Hd. apply plain_workDirOf. exact Hplain. }
  apply post_bind. eapply post_liftW, post_mono; [apply (fetchSources_early d _ Hpd)|].
  cbn [fst snd]. intros [[]|e] w2 (l & E2 & Hl & Fl).
  2:{ apply (Habort e _ _ l); [congruence|]. right. cbn. split; [exact Hd|].
      apply stopped_at_fetch; auto. }
  assert (grows (early d) w0 w2) as G.
  { exists l. split; [congruence | exact Fl]. }
  clear E1 E2 Hl Fl l w1.
  (* 3. the audit before *)
  world_stage (early d) (total_log "📊 Audit avant optimisation...")
        (keeps_log_line noCommand "📊 Audit avant optimisation...") G.
  world_stage (early d) (runLighthouse_total h (Optimizer.siteUrl config) Audit.desktop)
        (runLighthouse_early d Audit.desktop) G.
  apply post_bind, post_modifyL; cbn [fst snd].
  (* 4-7. branch, dependencies, patch sets *)
  world_stage (early d) (createOptimizationBranch_total h d (Optimizer.optimizeBranch config))
        (createOptimizationBranch_early d) G.
  world_stage (early d) (installDependencies_total h d) (installDependencies_early d) G.
  world_stage (early d) (applyPerfOptimizations_total h d) (applyPerfOptimizations_quiet h d) G.
  apply post_bind, post_modifyL; cbn [fst snd].
  world_stage (early d) (applySeoOptimizations_total h d (Optimizer.siteUrl config))
        (applySeoOptimizations_quiet h d (Optimizer.siteUrl config)) G.
  apply post_bind, post_modifyL; cbn [fst snd].
  (* 8. quality checks *)
  report_step (early d) (runQualityChecks_total h d) (runQualityChecks_early d) G.
  assert (Optimizer.workDir r = d /\ Optimizer.errors r = [] /\ Optimizer.prUrl r = None)
    as (F1 & F2 & F3).
  { unfold sameButWarnings in S. cbn in S. tauto. }
  clear S.
  (* 9. build *)
  apply post_bind. eapply post_mono; [apply buildProject_outcome|].
  intros [[]|e] [r' w'] (rec & E & Hb & H); cbn [fst snd] in *.
  2:{ destruct H as (stderr & -> & -> & Hf). destruct G as (earlier & E0 & F0).
      apply (Habort _ _ _ (earlier ++ [rec])%list);
        [rewrite E, E0, <- app_assoc; reflexivity|].
      right. cbn. rewrite F1. split; [exact Hd|].
      eapply stopped_at_build with (pre := earlier) (build := rec) (stderr := stderr);
        cbn; rewrite ?F1, ?F2, ?F3; auto. }
  destruct H as [-> Hok]. destruct G as (pre & Epre & Fpre).
  assert (grows (late d) w' w') as G by reflexivity.
  (* 10-11. bundle analysis and the audits after *)
  world_stage (late d) (analyzeBundles_total h d) (analyzeBundles_quiet h d) G.
  apply post_bind, post_modifyL; cbn [fst snd].
  world_stage (late d) (total_log "📊 Audit après optimisation...")
        (keeps_log_line noCommand "📊 Audit après optimisation...") G.
  world_stage (late d) (runLighthouse_total h (Optimizer.siteUrl config) Audit.desktop)
        (runLighthouse_late d Audit.desktop) G.
  apply post_bind, post_modifyL; cbn [fst snd].
  world_stage (late d) (runLighthouse_total h (Optimizer.siteUrl config) Audit.mobile)
        (runLighthouse_late d Audit.mobile) G.
  apply post_bind, post_modifyL; cbn [fst snd].
  (* 12-13. deltas and thresholds *)
  apply post_bind, post_modifyL; cbn [fst snd].
  apply post_bind, post_modifyL; cbn [fst snd].
  match goal with |- context [Optimizer.validateScores config ?r0] =>
    pose proof (validateScores_warns config r0) as V;
    set (r1 := r0) in *
  end.
  assert (Optimizer.workDir r1 = d /\ Optimizer.prUrl r1 = None) as F.
  { subst r1. cbn.
    repeat match goal with |- context [match ?x with _ => _ end] => destruct x end;
      cbn; auto. }
  clearbody r1. clear F1 F2 F3 r.
  assert (forall rf wf,
            Optimizer.workDir rf = d ->
            (Optimizer.preferPr config = false -> Optimizer.prUrl rf = None) ->
            grows (late d) w' wf ->
            Q (Ok tt) (Optimizer.setSuccess true rf, wf)) as Hdone.
  { intros rf wf S1 S2 (post & Ep & Fp). split; [reflexivity|].
    exists (pre ++ [rec] ++ post)%list. cbn [fst snd].
    split; [rewrite Ep, E, Epre, <- !app_assoc; reflexivity|].
    right. cbn [Optimizer.workDir Optimizer.setSuccess]. rewrite S1. split; [exact Hd|].
    eapply ran_through with (pre := pre) (post := post) (build := rec); cbn; auto. }
  (* 14. commit and push *)
  report_step (late d) (commitChanges_total h d config) (commitChanges_late d) G.
  pose proof (sameButWarnings_trans _ _ _ V S) as S'. clear V S.
  (* 15. change request *)
  destruct (Optimizer.preferPr config) eqn:Hpr.
  - apply post_bind.
    report_step (late d) (createPullRequest_total h d config) (createPullRequest_late d Hpr) G.
    apply post_modifyL. cbn [fst snd].
    apply post_bind, post_modifyL. cbn [fst snd].
    eapply (post_stage noCommand); [apply total_log | apply keeps_log |].
    cbn [fst snd]. intros [] wf Gf. fold_in (late d) G Gf.
    apply Hdone; [| discriminate | exact G].
    pose proof (sameButWarnings_trans _ _ _ S' S) as S''.
    unfold sameButWarnings in S''. cbn. destruct F. intuition congruence.
  - apply post_bind, post_ret.
    apply post_bind, post_modifyL. cbn [fst snd].
    eapply (post_stage noCommand); [apply total_log | apply keeps_log |].
    cbn [fst snd]. intros [] wf Gf. fold_in (late d) G Gf.
    apply Hdone; [| | exact G]; unfold sameButWarnings in S'; destruct F;
      intuition congruence.
Qed.

(** Every run returns a report, and its subprocesses come in the phases
    [shaped] describes. *)
Lemma pipeline_phases (w : World) :
  exists report w' extra,
    Optimizer.runOptimizationPipeline h config w = (Ok report, w') /\
    commands w' = (commands w ++ extra)%list /\
    shaped h config w report extra.
Proof.
  assert (post (Optimizer.runOptimizationPipeline h config) w
            (fun r w' => exists report extra,
               r = Ok report /\ commands w' = (commands w ++ extra)%list /\
               shaped h config w report extra)) as H.
  { change (Optimizer.runOptimizationPipeline h config)
      with (log "🚀 Démarrage du pipeline d'optimisation..." ;;;
            out <- withLocal (Optimizer.initialReport config)
                     (tryCatch (Optimizer.pipelineSteps h config) onAbort) ;;
            ret (snd out)).
    apply post_bind. unfold post at 1. cbn [log fst snd].
    apply post_bind, post_withLocal. eapply post_mono; [apply pipeline_walk|].
    intros r [report w'] (-> & extra & E & O). cbn [fst snd commands] in *.
    apply post_ret. eauto. }
  unfold post in H. destruct (Optimizer.runOptimizationPipeline h config w) as [r w'].
  destruct H as (report & extra & E & H). cbn [fst snd] in *. subst r. eauto.
Qed.

End WithHost.

(** *** What the phases exclude *)

Ltac starts H :=
  apply JsFacts.startsWith_iff in H; destruct H as [? H].

Ltac by_command rec :=
  destruct rec as [c dir ok]; cbn [cmd cwd succeeded] in *;
  repeat match goal with
         | H : _ && _ = true |- _ => apply andb_true_iff in H; destruct H
         | H : _ || _ = true |- _ => apply orb_true_iff in H; destruct H
         | H : String.eqb _ _ = true |- _ => apply String.eqb_eq in H
         | H : false = true |- _ => discriminate H
         | H : match ?x with Some _ => _ | None => _ end = true |- _ => destruct x
         end.

Lemma beforeBuild_cases (config : Optimizer.OptimizationConfig) (d : string)
    (rec : ExecRecord) :
  beforeBuild config d rec = true ->
  publishes rec = false /\ isBuild rec = false /\ startsWith (cmd rec) "gh " = false /\
  match cwd rec with Some dir => dir = d | None => True end.
Proof.
  unfold beforeBuild, publishes, isBuild. intros H. cbn [existsb] in H. by_command rec;
    try (match goal with H : startsWith _ _ = true |- _ => starts H end);
    subst; repeat split; reflexivity.
Qed.

Lemma buildIn_cases (d : string) (rec : ExecRecord) :
  buildIn d rec = true ->
  publishes rec = false /\ isBuild rec = true /\ startsWith (cmd rec) "gh " = false /\
  cwd rec = Some d.
Proof.
  unfold buildIn, publishes, isBuild. intros H. by_command rec. subst. repeat split.
Qed.

Lemma afterBuild_cases (config : Optimizer.OptimizationConfig) (d : string)
    (rec : ExecRecord) :
  afterBuild config d rec = true ->
  isBuild rec = false /\
  (Optimizer.preferPr config = false -> startsWith (cmd rec) "gh " = false) /\
  match cwd rec with Some dir => dir = d | None => True end.
Proof.
  unfold afterBuild, isBuild. intros H. by_command rec;
    try (match goal with H : startsWith _ _ = true |- _ => starts H end);
    subst; repeat split; try reflexivity; congruence.
Qed.

Lemma early_listed (h : Host) (config : Optimizer.OptimizationConfig) (d : string)
    (l : list ExecRecord) :
  Forall (early h config d) l -> Forall (fun rec => beforeBuild config d rec = true) l.
Proof. intros F. eapply Forall_impl; [exact F|]. intros rec [H _]. exact H. Qed.

Lemma late_listed (h : Host) (config : Optimizer.OptimizationConfig) (d : string)
    (l : list ExecRecord) :
  Forall (late h config d) l -> Forall (fun rec => afterBuild config d rec = true) l.
Proof. intros F. eapply Forall_impl; [exact F|]. intros rec [H _]. exact H. Qed.

(** In a list that holds the build and then a flagged command, where
    nothing up to the build is flagged, the build comes first. *)
Lemma build_comes_first (publishes : ExecRecord -> bool)
    (pre post l1 l2 : list ExecRecord) (build rec : ExecRecord) :
  (pre ++ [build] ++ post = l1 ++ rec :: l2)%list ->
  Forall (fun x => publishes x = false) (pre ++ [build])%list ->
  publishes rec = true ->
  In build l1.
Proof.
  revert l1. induction pre as [|p pre IH]; intros l1 E F Hp.
  - destruct l1 as [|x l1]; cbn in E; injection E as E1 E2.
    + subst. apply Forall_inv in F. congruence.
    + subst. left. reflexivity.
  - destruct l1 as [|x l1]; cbn in E; injection E as E1 E2.
    + subst. apply Forall_inv in F. congruence.
    + right. apply IH; [exact E2 | exact (Forall_inv_tail F) | exact Hp].
Qed.

Lemma buildIn_one_command (d : string) (rec : ExecRecord) :
  buildIn d rec = true -> oneCommand (cmd rec) = true.
Proof.
  unfold buildIn. intros H. apply andb_true_iff in H as [H _].
  apply String.eqb_eq in H. rewrite H. reflexivity.
Qed.



(** The name of the working directory is normalised: a connection
    identifier that climbs out of the temporary directory takes the
    working directory with it. *)
Example working_directory_is_normalised :
  pathJoin "/tmp" ("workdir-" +:+ "a/../../etc/x" +:+ "-" +:+ showZ 1700000000000)
  = "/etc/x-1700000000000".
Proof. reflexivity. Qed.

(** A branch name that is not plain: the line that creates the branch is
    then more than one command for the shell. *)
Example a_branch_name_that_is_not_plain :
  plain "x; git push -f origin HEAD:main" = false /\
  oneCommand ("git checkout -b " +:+ "x; git push -f origin HEAD:main") = false.
Proof. split; reflexivity. Qed.

(** Nothing is staged, committed, pushed or proposed before the build has
    succeeded.  When the values the configuration and the machine put in
    the command lines are plain, every command line the run hands to
    [exec] before a build has succeeded is read by the shell as one simple
    command, and that command is no [git add], [git commit], [git push]
    or [gh]: a command line that is one of these, or that is not one
    simple command, comes after a successful [npm run build] in the
    working directory, in a run whose report says [success]. *)
Theorem publishing_follows_a_good_build :
  forall (h : Host) (config : Optimizer.OptimizationConfig) (w : World),
  plainConfig h config = true ->
  exists report w' extra,
    Optimizer.runOptimizationPipeline h config w = (Ok report, w') /\
    commands w' = (commands w ++ extra)%list /\
    forall (l1 l2 : list ExecRecord) (rec : ExecRecord),
      extra = (l1 ++ rec :: l2)%list -> flagged rec = true ->
      Optimizer.success report = true /\
      exists build, In build l1 /\ buildIn (Optimizer.workDir report) build = true /\
                    succeeded build = true.
Proof.
  intros h config w Hplain.
  destruct (pipeline_phases h config w) as (report & w' & extra & E & C & O).
  exists report, w', extra. split; [exact E|]. split; [exact C|].
  intros l1 l2 rec Hx Hp.
  assert (forall l, Forall (early h config (Optimizer.workDir report)) l ->
                    Forall (fun x => flagged x = false) l) as Hearly.
  { intros l F. eapply Forall_impl; [exact F|]. cbn. intros x [H Ho].
    apply beforeBuild_cases in H. destruct H as (H & _).
    unfold flagged. rewrite H, (Ho Hplain). reflexivity. }
  assert (forall build, buildIn (Optimizer.workDir report) build = true ->
                        flagged build = false) as Hbuild.
  { intros build Hb. unfold flagged. rewrite (buildIn_one_command _ _ Hb).
    apply buildIn_cases in Hb. destruct Hb as (-> & _). reflexivity. }
  assert (In rec extra) as Hin by (rewrite Hx; apply in_elt).
  destruct O as [(_ & -> & _) | (_ & O)]; [destruct Hin|].
  destruct O as [F _ _ _ | pre build stderr -> F Hb _ _ _ _ | pre post build -> F Hb Hok Fp Hs _].
  - apply Hearly in F. rewrite List.Forall_forall in F. apply F in Hin. congruence.
  - apply Hearly in F. apply in_app_or in Hin. destruct Hin as [Hin | [<- | []]].
    + rewrite List.Forall_forall in F. apply F in Hin. congruence.
    + rewrite (Hbuild _ Hb) in Hp. discriminate.
  - split; [exact Hs|]. exists build. split; [|auto].
    apply (build_comes_first flagged pre post l1 l2 build rec Hx); [|exact Hp].
    apply Forall_app. split; [exact (Hearly _ F)|]. repeat constructor.
    exact (Hbuild _ Hb).
Qed.

Lemma publishing_follows_a_good_build_witness :
  plainConfig Scenario.allGood Scenario.foreignRepo = true /\
  exists report w' extra,
    Optimizer.runOptimizationPipeline Scenario.allGood Scenario.foreignRepo Scenario.freshWorld
      = (Ok report, w') /\
    commands w' = (commands Scenario.freshWorld ++ extra)%list /\
    forall (l1 l2 : list ExecRecord) (rec : ExecRecord),
      extra = (l1 ++ rec :: l2)%list -> flagged rec = true ->
      Optimizer.success report = true /\
      exists build, In build l1 /\ buildIn (Optimizer.workDir report) build = true /\
                    succeeded build = true.
Proof.
  split; [reflexivity|].
  apply (publishing_follows_a_good_build Scenario.allGood Scenario.foreignRepo
           Scenario.freshWorld).
  reflexivity.
Defined.

(** When no change request is preferred, the report has no [prUrl] and the
    run starts no [gh]: for plain values, every command line the run hands
    to [exec] is read by the shell as one simple command, and none of them
    is a [gh] command. *)
Theorem no_change_request_unless_preferred :
  forall (h : Host) (config : Optimizer.OptimizationConfig) (w : World),
  Optimizer.preferPr config = false ->
  plainConfig h config = true ->
  exists report w' extra,
    Optimizer.runOptimizationPipeline h config w = (Ok report, w') /\
    commands w' = (commands w ++ extra)%list /\
    Optimizer.prUrl report = None /\
    Forall (fun rec => oneCommand (cmd rec) = true /\ startsWith (cmd rec) "gh " = false)
           extra.
Proof.
  intros h config w Hpr Hplain.
  destruct (pipeline_phases h config w) as (report & w' & extra & E & C & O).
  exists report, w', extra. split; [exact E|]. split; [exact C|].
  assert (forall l, Forall (early h config (Optimizer.workDir report)) l ->
                    Forall (fun rec => oneCommand (cmd rec) = true /\
                                       startsWith (cmd rec) "gh " = false) l) as Hearly.
  { intros l F. eapply Forall_impl; [exact F|]. cbn. intros x [H Ho].
    apply beforeBuild_cases in H. split; [exact (Ho Hplain) | tauto]. }
  assert (forall build, buildIn (Optimizer.workDir report) build = true ->
                        oneCommand (cmd build) = true /\
                        startsWith (cmd build) "gh " = false) as Hbuild.
  { intros build Hb. split; [exact (buildIn_one_command _ _ Hb)|].
    apply buildIn_cases in Hb. tauto. }
  destruct O as [(_ & -> & _ & Hu) | (_ & O)]; [split; [exact Hu | constructor]|].
  destruct O as [F _ _ Hu | pre build stderr -> F Hb _ _ Hu _
                | pre post build -> F Hb _ Fp _ Hu].
  - split; [exact Hu | exact (Hearly _ F)].
  - split; [exact Hu|]. apply Forall_app. split; [exact (Hearly _ F)|].
    repeat constructor; apply (Hbuild _ Hb).
  - split; [exact (Hu Hpr)|]. apply Forall_app. split; [exact (Hearly _ F)|].
    apply Forall_app. split.
    + repeat constructor; apply (Hbuild _ Hb).
    + eapply Forall_impl; [exact Fp|]. cbn. intros x [H Ho].
      apply afterBuild_cases in H. destruct H as (_ & H & _).
      split; [exact (Ho Hplain (H Hpr)) | exact (H Hpr)].
Qed.

Lemma no_change_request_unless_preferred_witness :
  Optimizer.preferPr Scenario.foreignRepo = false /\
  plainConfig Scenario.allGood Scenario.foreignRepo = true /\
  exists report w' extra,
    Optimizer.runOptimizationPipeline Scenario.allGood Scenario.foreignRepo Scenario.freshWorld
      = (Ok report, w') /\
    commands w' = (commands Scenario.freshWorld ++ extra)%list /\
    Optimizer.prUrl report = None /\
    Forall (fun rec => oneCommand (cmd rec) = true /\ startsWith (cmd rec) "gh " = false)
           extra.
Proof.
  split; [reflexivity|]. split; [reflexivity|].
  apply (no_change_request_unless_preferred Scenario.allGood Scenario.foreignRepo
           Scenario.freshWorld); reflexivity.
Defined.

(** A failed build ends the run, and its message is in [errors]
    twice: whenever an [npm run build] of a run fails, it is the last
    subprocess of the run, the report says no [success], and [errors] holds
    exactly two copies of the build's message. *)
Theorem failed_build_is_reported_twice :
  forall (h : Host) (config : Optimizer.OptimizationConfig) (w : World),
  exists report w' extra,
    Optimizer.runOptimizationPipeline h config w = (Ok report, w') /\
    commands w' = (commands w ++ extra)%list /\
    forall rec : ExecRecord,
      In rec extra -> isBuild rec = true -> succeeded rec = false ->
      exists pre stderr,
        extra = (pre ++ [rec])%list /\
        Optimizer.success report = false /\
        Optimizer.errors report =
          [ "Build échoué: " +:+ execErrorMessage "npm run build" stderr;
            "Build échoué: " +:+ execErrorMessage "npm run build" stderr ].
Proof.
  intros h config w. destruct (pipeline_phases h config w) as (report & w' & extra & E & C & O).
  exists report, w', extra. split; [exact E|]. split; [exact C|].
  intros rec Hin Hb Hf.
  assert (forall l, Forall (early h config (Optimizer.workDir report)) l ->
                    In rec l -> False) as Hearly.
  { intros l F Hl. apply early_listed in F. rewrite List.Forall_forall in F.
    apply F, beforeBuild_cases in Hl. destruct Hl as (_ & Hl & _). congruence. }
  destruct O as [(_ & -> & _) | (_ & O)]; [destruct Hin|].
  destruct O as [F _ _ _ | pre build stderr -> F _ _ Hs _ He | pre post build -> F _ Hok Fp _ _].
  - destruct (Hearly _ F Hin).
  - apply in_app_or in Hin. destruct Hin as [Hin | [<- | []]]; [destruct (Hearly _ F Hin)|].
    exists pre, stderr. auto.
  - apply in_app_or in Hin. destruct Hin as [Hin | Hin]; [destruct (Hearly _ F Hin)|].
    destruct Hin as [<- | Hin]; [congruence|]. cbn [app] in Hin.
    apply late_listed in Fp.
    rewrite List.Forall_forall in Fp. apply Fp, afterBuild_cases in Hin.
    destruct Hin as (Hin & _). congruence.
Qed.

(** A run in which the build fails. *)
Example a_failed_build :
  let '(r, w) := Optimizer.runOptimizationPipeline Cases.buildFails Scenario.foreignRepo
                   Scenario.freshWorld in
  existsb (fun rec => isBuild rec && negb (succeeded rec)) (commands w) = true /\
  match r with
  | Ok report =>
      Optimizer.success report = false /\
      Optimizer.errors report =
        [ "Build échoué: " +:+ execErrorMessage "npm run build" "exit status 1";
          "Build échoué: " +:+ execErrorMessage "npm run build" "exit status 1" ]
  | Throw _ => False
  end.
Proof. vm_compute. repeat split. Qed.

(** A run reads of its configuration the connection id, the site
    address, the thresholds, the branch name, the change-request flag, and
    of the connection its type, repository address, branch, user, host and
    remote path.  Two configurations that agree on these give the same run:
    the allow-list, the constraints, and the port, authentication method,
    password, private key and passphrase of the connection are never
    used. *)
Theorem unread_fields_do_not_matter :
  forall (h : Host) (a b : Optimizer.OptimizationConfig) (w : World),
  sameReadFields a b ->
  Optimizer.runOptimizationPipeline h a w = Optimizer.runOptimizationPipeline h b w.
Proof.
  intros h [ida [tya laa hoa poa usa ama pwa pka ppa rua bra rpa] sua msa oba pra coa ala]
           [idb [tyb lab hob pob usb amb pwb pkb ppb rub brb rpb] sub msb obb prb cob alb] w H.
  unfold sameReadFields in H. cbn in H.
  destruct H as (-> & -> & -> & -> & -> & -> & -> & -> & -> & -> & ->).
  reflexivity.
Qed.

Lemma unread_fields_do_not_matter_witness :
  sameReadFields Cases.withSecrets Cases.withoutSecrets /\
  Optimizer.runOptimizationPipeline Scenario.allGood Cases.withSecrets Scenario.freshWorld
  = Optimizer.runOptimizationPipeline Scenario.allGood Cases.withoutSecrets Scenario.freshWorld.
Proof.
  split; [repeat split|].
  apply (unread_fields_do_not_matter Scenario.allGood Cases.withSecrets Cases.withoutSecrets
           Scenario.freshWorld).
  repeat split.
Defined.

End PhaseFacts.
